(** * timewave-visual: chart interaction and data-transform engine

    A shallow embedding of the TypeScript sources of the time-series chart
    widget, and the properties of its specification that were checked
    against it.

    Conventions of the embedding.
    - A JavaScript [number] that the code uses as an integer (array index,
      epoch milliseconds, timer id, refresh cadence in seconds) is a [Z];
      [NaN] and [undefined] are [None] of an [option].
    - A sample value is a [Qc]: the exact rational value of a finite IEEE
      double.  Comparisons, [Math.min]/[Math.max] and [toFixed] are exact on
      such values.  The product that gives the time of a parsed sample and
      the quotient that gives the unit of a number of bytes are rounded to
      binary64; the other sums, differences and products are exact.
    - A [Date] is its epoch-millisecond time value, or [InvalidDate].
    - A string is the sequence of the bytes of its UTF-8 encoding.
    - A JavaScript object used as a record with dynamic keys (a chart row) is
      a [gmap string jsval] of its own properties; what it inherits from
      [Object.prototype] is modelled where the row is read and written.
    - What the runtime leaves to the implementation (the local time zone,
      [Math.log], the text of a number, of a date or of a built-in function)
      is a parameter.
    - React state is a record; an event handler is a function from the state
      of the render it closes over to the next state and the list of effects
      it performs on the outside world. *)

From Stdlib Require Import ZArith QArith Qcanon Qround List String Ascii Lia Sorted Permutation.
From Stdlib Require Import Lqa.
From stdpp Require Import gmap strings list.

Open Scope Z_scope.

(* ================================================================== *)
(** * Part I: definitions                                              *)
(* ================================================================== *)

(** ** JavaScript string primitives used by the sources *)

(** [s.endsWith(suffix)] *)
Definition endsWith (s suffix : string) : bool :=
  let n := String.length s in
  let m := String.length suffix in
  if (m <=? n)%nat then String.eqb (substring (n - m) m s) suffix else false.

(** [s.replace(pattern, replacement)] with a string pattern: only the first
    occurrence is replaced. *)
Definition replace (s pattern replacement : string) : string :=
  match index 0 pattern s with
  | None => s
  | Some i =>
      substring 0 i s +:+ replacement +:+
      substring (i + String.length pattern)
                (String.length s - (i + String.length pattern)) s
  end.

(** The white space and line terminators of ECMAScript, which [trim] and
    [parseInt] skip, in a text given by the bytes of its UTF-8 encoding:
    those of one byte (TAB, LF, VT, FF, CR, SP), the one of two bytes
    (U+00A0) and those of three bytes (U+1680, U+2000 to U+200A, U+2028,
    U+2029, U+202F, U+205F, U+3000, U+FEFF). *)
Definition isWhiteSpace (c : ascii) : bool :=
  match nat_of_ascii c with
  | 9%nat | 10%nat | 11%nat | 12%nat | 13%nat | 32%nat => true
  | _ => false
  end.

Definition isWhiteSpace2 (c1 c2 : ascii) : bool :=
  (nat_of_ascii c1 =? 194)%nat && (nat_of_ascii c2 =? 160)%nat.

Definition isWhiteSpace3 (c1 c2 c3 : ascii) : bool :=
  let n1 := nat_of_ascii c1 in
  let n2 := nat_of_ascii c2 in
  let n3 := nat_of_ascii c3 in
  ((n1 =? 225) && (n2 =? 154) && (n3 =? 128))%nat
  || ((n1 =? 226) && (n2 =? 128)
      && (((128 <=? n3) && (n3 <=? 138)) || (n3 =? 168) || (n3 =? 169) || (n3 =? 175)))%nat
  || ((n1 =? 226) && (n2 =? 129) && (n3 =? 159))%nat
  || ((n1 =? 227) && (n2 =? 128) && (n3 =? 128))%nat
  || ((n1 =? 239) && (n2 =? 187) && (n3 =? 191))%nat.

(** The text without the white space at its start. *)
Fixpoint trimStart (s : list ascii) : list ascii :=
  match s with
  | [] => []
  | c1 :: s1 =>
      if isWhiteSpace c1 then trimStart s1
      else
        match s1 with
        | [] => s
        | c2 :: s2 =>
            if isWhiteSpace2 c1 c2 then trimStart s2
            else
              match s2 with
              | [] => s
              | c3 :: s3 => if isWhiteSpace3 c1 c2 c3 then trimStart s3 else s
              end
        end
  end.

(** The same from the end, on the reversed text. *)
Fixpoint trimStartReversed (s : list ascii) : list ascii :=
  match s with
  | [] => []
  | c1 :: s1 =>
      if isWhiteSpace c1 then trimStartReversed s1
      else
        match s1 with
        | [] => s
        | c2 :: s2 =>
            if isWhiteSpace2 c2 c1 then trimStartReversed s2
            else
              match s2 with
              | [] => s
              | c3 :: s3 =>
                  if isWhiteSpace3 c3 c2 c1 then trimStartReversed s3 else s
              end
        end
  end.

Definition trimEnd (s : list ascii) : list ascii := rev (trimStartReversed (rev s)).

(** Value of a character as a digit in some radix up to 36. *)
Definition digitValue (c : ascii) : option Z :=
  let n := Z.of_nat (nat_of_ascii c) in
  if (48 <=? n) && (n <=? 57) then Some (n - 48)
  else if (97 <=? n) && (n <=? 122) then Some (n - 87)
  else if (65 <=? n) && (n <=? 90) then Some (n - 55)
  else None.

(** The longest prefix of radix-[R] digits, as a number; [None] when that
    prefix is empty. *)
Fixpoint parseDigits (R : Z) (s : list ascii) (acc : option Z) : option Z :=
  match s with
  | [] => acc
  | c :: s' =>
      match digitValue c with
      | Some d =>
          if d <? R then parseDigits R s' (Some (R * default 0 acc + d))
          else acc
      | None => acc
      end
  end.

(** [parseInt(input)] without a radix argument; [None] is [NaN]. *)
Definition parseInt (input : string) : option Z :=
  let s0 := trimStart (list_ascii_of_string input) in
  let '(sign, s1) :=
    match s0 with
    | "-"%char :: r => (-1, r)
    | "+"%char :: r => (1, r)
    | _ => (1, s0)
    end in
  let '(R, s2) :=
    match s1 with
    | "0"%char :: "x"%char :: r => (16, r)
    | "0"%char :: "X"%char :: r => (16, r)
    | _ => (10, s1)
    end in
  match parseDigits R s2 None with
  | None => None
  | Some n => Some (sign * n)
  end.

(** ** Dates and the date-fns helpers *)

Inductive Date : Type :=
  | InvalidDate
  | DateMs (t : Z).

(** TimeClip of ECMAScript: a time value beyond 8.64e15 ms is invalid. *)
Definition TimeClip (t : Z) : Date :=
  if Z.abs t <=? 8640000000000000 then DateMs t else InvalidDate.

(** date-fns [addMilliseconds(date, amount)]; a [NaN] amount gives an
    invalid date. *)
Definition addMilliseconds (d : Date) (amount : option Z) : Date :=
  match d, amount with
  | DateMs t, Some a => TimeClip (t + a)
  | _, _ => InvalidDate
  end.

(** date-fns [subMinutes], [subHours]: the date minus [amount] units of
    60000 ms and 3600000 ms. *)
Definition subMinutes (d : Date) (amount : option Z) : Date :=
  addMilliseconds d (fmap (M:=option) (fun a => - (a * 60000)) amount).

Definition subHours (d : Date) (amount : option Z) : Date :=
  addMilliseconds d (fmap (M:=option) (fun a => - (a * 3600000)) amount).

(** *** Local time

    [LocalTZA(t, isUTC)] of ECMAScript, the offset of the local time zone in
    milliseconds: at the UTC time [t] when [isUTC] holds, at the local time
    [t] otherwise.  It belongs to the runtime and is a parameter here. *)
Section LocalTime.

Variable LocalTZA : Z -> bool -> Z.

Definition LocalTime (t : Z) : Z := t + LocalTZA t true.

Definition UTC (t : Z) : Z := t - LocalTZA t false.

(** date-fns [subDays(date, amount)] is [addDays(date, -amount)]: an amount
    of zero returns the date, any other one runs
    [date.setDate(date.getDate() + amount)].  [setDate] moves the day of the
    month of the local time and keeps the time within the day, so the local
    time moves by whole days of 86400000 ms, and the result is the UTC time
    of that local time. *)
Definition subDays (d : Date) (amount : option Z) : Date :=
  match d, amount with
  | DateMs t, Some a =>
      if a =? 0 then DateMs t
      else TimeClip (UTC (LocalTime t - a * 86400000))
  | _, _ => InvalidDate
  end.

End LocalTime.

(** ** time-utils.ts *)

Module TimeUtils.

Record TimeRange : Type := {
  label : string;
  value : string;
  duration : Z  (* in milliseconds *)
}.

Definition TIME_RANGES : list TimeRange := [
  {| label := "5m";  value := "5m";  duration := 5 * 60 * 1000 |};
  {| label := "15m"; value := "15m"; duration := 15 * 60 * 1000 |};
  {| label := "30m"; value := "30m"; duration := 30 * 60 * 1000 |};
  {| label := "1h";  value := "1h";  duration := 60 * 60 * 1000 |};
  {| label := "3h";  value := "3h";  duration := 3 * 60 * 60 * 1000 |};
  {| label := "6h";  value := "6h";  duration := 6 * 60 * 60 * 1000 |};
  {| label := "12h"; value := "12h"; duration := 12 * 60 * 60 * 1000 |};
  {| label := "1d";  value := "1d";  duration := 24 * 60 * 60 * 1000 |};
  {| label := "3d";  value := "3d";  duration := 3 * 24 * 60 * 60 * 1000 |};
  {| label := "7d";  value := "7d";  duration := 7 * 24 * 60 * 60 * 1000 |};
  {| label := "30d"; value := "30d"; duration := 30 * 24 * 60 * 60 * 1000 |}
].

(** Refresh cadences offered by the selector, in seconds. *)
Definition REFRESH_INTERVALS : list (string * Z) := [
  ("Off", 0); ("5s", 5); ("10s", 10); ("30s", 30); ("1m", 60);
  ("5m", 300); ("15m", 900); ("30m", 1800); ("1h", 3600)
].

Section Runtime.

Variable LocalTZA : Z -> bool -> Z.

(** [getTimeRangeFromValue(value)]; [now] is the clock read by
    [new Date()]. *)
Definition getTimeRangeFromValue (now : Z) (value : string) : Date * Date :=
  let start :=
    if endsWith value "m" then
      let minutes := parseInt (replace value "m" "") in
      subMinutes (DateMs now) minutes
    else if endsWith value "h" then
      let hours := parseInt (replace value "h" "") in
      subHours (DateMs now) hours
    else if endsWith value "d" then
      let days := parseInt (replace value "d" "") in
      subDays LocalTZA (DateMs now) days
    else
      (* Default to 1h if invalid *)
      subHours (DateMs now) (Some 1)
  in (start, DateMs now).

End Runtime.

(** The window the source calls the default: one hour back from [now]. *)
Definition defaultWindow (now : Z) : Date * Date :=
  (subHours (DateMs now) (Some 1), DateMs now).

End TimeUtils.

(** ** Numbers and numerals *)

Definition Math_abs (x : Qc) : Qc :=
  if bool_decide (x < 0)%Qc then (- x)%Qc else x.

Definition Math_min (x y : Qc) : Qc := if bool_decide (y < x)%Qc then y else x.

Definition Math_max (x y : Qc) : Qc := if bool_decide (x < y)%Qc then y else x.

Definition isDigit (c : ascii) : bool :=
  let n := nat_of_ascii c in (48 <=? n)%nat && (n <=? 57)%nat.

Definition digitChar (d : Z) : ascii := ascii_of_nat (48 + Z.to_nat d).

(** Decimal digits of a non-negative integer, most significant first; the
    fuel is the binary length of the number, which bounds the decimal one. *)
Fixpoint digitsFuel (fuel : nat) (n : Z) (acc : list ascii) : list ascii :=
  match fuel with
  | O => acc
  | S k =>
      let acc' := digitChar (n mod 10) :: acc in
      if n / 10 =? 0 then acc' else digitsFuel k (n / 10) acc'
  end.

Definition decimalDigits (n : Z) : list ascii :=
  digitsFuel (S (Z.to_nat (Z.log2 n))) n [].

(** *** Binary64 arithmetic

    The result of an operation whose exact value is not a double: a finite
    number, an infinity or [NaN].  The sign of a zero is not kept. *)
Inductive double : Type :=
  | Finite (x : Qc)
  | PlusInfinity
  | MinusInfinity
  | NaN.

(** The integer part of the binary logarithm of [x > 0], exactly. *)
Definition floorLog2 (x : Qc) : Z :=
  let p := Qnum (this x) in
  let q := Zpos (Qden (this x)) in
  let e := Z.log2 p - Z.log2 q in
  if (if 0 <=? e then 2 ^ e * q <=? p else q <=? p * 2 ^ (- e))
  then e else e - 1.

Definition pow2 (e : Z) : Qc :=
  if 0 <=? e then Qc_of_Z (2 ^ e) else (/ Qc_of_Z (2 ^ (- e)))%Qc.

(** The integer nearest to [x], the even one of two. *)
Definition roundHalfEven (x : Qc) : Z :=
  let f := Qfloor (this x) in
  let r := (x - Qc_of_Z f)%Qc in
  if bool_decide (r < Q2Qc (1 # 2))%Qc then f
  else if bool_decide (Q2Qc (1 # 2) < r)%Qc then f + 1
  else if Z.even f then f else f + 1.

(** Rounding of an exact result to binary64, to nearest and ties to even:
    a significand of 53 bits at the exponent of [x], of fewer bits below
    the smallest normal number [2^-1022], and an infinity from [2^1024]
    on. *)
Definition roundToDouble (x : Qc) : double :=
  if bool_decide (x = 0%Qc) then Finite 0%Qc
  else
    let e := Z.max (floorLog2 (Math_abs x)) (-1022) in
    let ulp := pow2 (e - 52) in
    let y := (Qc_of_Z (roundHalfEven (x / ulp)%Qc) * ulp)%Qc in
    if bool_decide (pow2 1024 <= Math_abs y)%Qc
    then (if bool_decide (x < 0)%Qc then MinusInfinity else PlusInfinity)
    else Finite y.

(** [x * y] and [x / y] of two finite numbers. *)
Definition multiply (x y : Qc) : double := roundToDouble (x * y)%Qc.

Definition divide (x y : Qc) : double :=
  if bool_decide (y = 0%Qc) then
    if bool_decide (x = 0%Qc) then NaN
    else if bool_decide (x < 0)%Qc then MinusInfinity else PlusInfinity
  else roundToDouble (x / y)%Qc.

(** [Math.floor] *)
Definition Math_floor (x : double) : double :=
  match x with
  | Finite x => Finite (Qc_of_Z (Qfloor (this x)))
  | _ => x
  end.

(** ** Regular-expression replacements of [formatValue] *)

Definition isZeroChar (c : ascii) : bool := Ascii.eqb c "0".

Definition isDot (c : ascii) : bool := Ascii.eqb c ".".

Definition nonEmpty {A} (l : list A) : bool :=
  match l with [] => false | _ => true end.

Fixpoint dropWhile {A} (p : A -> bool) (l : list A) : list A :=
  match l with
  | c :: l' => if p c then dropWhile p l' else l
  | [] => []
  end.

(** Remove the longest run of ['0'] at the end. *)
Definition dropTrailingZeros (s : list ascii) : list ascii :=
  rev (dropWhile isZeroChar (rev s)).

Definition endsWithZero (s : list ascii) : bool :=
  match rev s with
  | c :: _ => isZeroChar c
  | [] => false
  end.

(** [s.replace(/\.0+$/, '')]: the leftmost ['.'] that is followed by one or
    more ['0'] up to the end of the string is removed with them. *)
Fixpoint replaceDotZeros (s : list ascii) : list ascii :=
  match s with
  | [] => []
  | c :: s' =>
      if isDot c && nonEmpty s' && forallb isZeroChar s' then []
      else c :: replaceDotZeros s'
  end.

(** [s.replace(/(\.\d*?)0+$/, '$1')]: the leftmost ['.'] that is followed by
    digits only, the last of them a ['0'], up to the end of the string; the
    lazy group takes the shortest run of digits, so the longest run of
    trailing zeros is dropped and the ['.'] and the digits before it stay. *)
Fixpoint replaceTrailingZeros (s : list ascii) : list ascii :=
  match s with
  | [] => []
  | c :: s' =>
      if isDot c && forallb isDigit s' && endsWithZero s'
      then c :: dropTrailingZeros s'
      else c :: replaceTrailingZeros s'
  end.

(** ** data-utils.ts *)

Module DataUtils.

Record DataPoint : Type := {
  timestamp : Z;   (* [Date], as epoch milliseconds *)
  value : Qc;
  anomaly : option bool;
  annotated : option bool;
  annotation : option string
}.

(** [TimeSeriesData]; the type [D] of the [data] field is [list DataPoint]
    where the points are read, and any type (a reference, say) where the
    field is only carried along. *)
Record TimeSeriesData {D : Type} : Type := {
  id : string;
  name : string;
  color : string;
  data : D;
  visible : option bool;
  query : option string;
  unit : option string;
  aggregation : option string
}.
Arguments TimeSeriesData : clear implicits.

Section Runtime.

(** [Number::toString] of the JavaScript runtime (shortest round-trip
    decimal, exponent notation from 1e21 on): a parameter. *)
Variable Number_toString : Qc -> string.

(** [Number.prototype.toFixed(fractionDigits)], following the steps of
    ECMAScript: below 1e21 the integer [n] for which [n / 10^f] is nearest
    to [x], the larger one of two, then its digits with a point before
    the last [f] of them. *)
Definition toFixed (x : Qc) (fractionDigits : nat) : string :=
  let s := if bool_decide (x < 0)%Qc then "-" else "" in
  let x := if bool_decide (x < 0)%Qc then (- x)%Qc else x in
  let m :=
    if bool_decide (Qc_of_Z (10 ^ 21) <= x)%Qc then Number_toString x
    else
      let n := Qfloor (this (x * Qc_of_Z (10 ^ Z.of_nat fractionDigits)
                             + Q2Qc (1 # 2))%Qc) in
      let m := decimalDigits n in
      string_of_list_ascii
        (if (fractionDigits =? 0)%nat then m
         else
           let k := length m in
           let m := if (k <=? fractionDigits)%nat
                    then repeat "0"%char (fractionDigits + 1 - k) ++ m
                    else m in
           let k := length m in
           take (k - fractionDigits) m ++ "."%char :: drop (k - fractionDigits) m)
  in s +:+ m.

(** [Math.log] of the runtime on a positive finite number, an
    implementation-approximated function whose result there is finite: a
    parameter. *)
Variable Math_log : Qc -> Qc.

(** [Math.pow(1024, i)] for an integer [i]: the power of two, which is a
    double from [2^-1070] to [2^1020]; zero below, infinity above. *)
Definition Math_pow_1024 (i : Z) : double :=
  if i <=? -108 then Finite 0%Qc
  else if 103 <=? i then PlusInfinity
  else Finite (pow2 (10 * i)).

(** [x.toFixed(fractionDigits)] of a result that may not be finite. *)
Definition toFixedDouble (x : double) (fractionDigits : nat) : string :=
  match x with
  | Finite x => toFixed x fractionDigits
  | PlusInfinity => "Infinity"
  | MinusInfinity => "-Infinity"
  | NaN => "NaN"
  end.

Definition units : list string := ["B"; "KB"; "MB"; "GB"; "TB"; "PB"].

(** [formatBytes(bytes)].  A negative argument makes [Math.log] return
    [NaN], which goes through [Math.floor], [Math.pow], the division and
    [toFixed]; an index outside [units] reads [undefined]. *)
Definition formatBytes (bytes : Qc) : string :=
  if bool_decide (bytes = 0%Qc) then "0 B"
  else if bool_decide (bytes < 0)%Qc then "NaN undefined"
  else
    match Math_floor (divide (Math_log bytes) (Math_log (Qc_of_Z 1024))) with
    | Finite i =>
        let i := Qfloor (this i) in
        let scaled :=
          match Math_pow_1024 i with
          | Finite p => divide bytes p
          | PlusInfinity => Finite 0%Qc
          | _ => NaN
          end in
        let u := if 0 <=? i then default "undefined" (units !! Z.to_nat i)
                 else "undefined" in
        toFixedDouble scaled 2 +:+ " " +:+ u
    | PlusInfinity => "0.00 undefined"
    | MinusInfinity => "Infinity undefined"
    | NaN => "NaN undefined"
    end.

(** [formatValue(value, unit)]; a [None] value is [undefined] or [null],
    a [None] unit an absent argument. *)
Definition formatValue (value : option Qc) (unit : option string) : string :=
  match value with
  | None => "N/A"
  | Some value =>
      (* Format bytes with appropriate units if the unit is byte-related *)
      if bool_decide (unit = Some "B" \/ unit = Some "bytes") then
        formatBytes value
      else
        (* Format with appropriate precision *)
        let formattedValue :=
          if bool_decide (Qc_of_Z 1000 <= Math_abs value)%Qc then toFixed value 0
          else if bool_decide (Qc_of_Z 100 <= Math_abs value)%Qc then toFixed value 1
          else if bool_decide (Qc_of_Z 10 <= Math_abs value)%Qc then toFixed value 2
          else toFixed value 3 in
        (* Remove trailing zeros after decimal *)
        let formattedValue :=
          string_of_list_ascii
            (replaceDotZeros (list_ascii_of_string formattedValue)) in
        let formattedValue :=
          string_of_list_ascii
            (replaceTrailingZeros (list_ascii_of_string formattedValue)) in
        (* Add unit if provided *)
        match unit with
        | Some u => if bool_decide (u = "") then formattedValue
                    else formattedValue +:+ " " +:+ u
        | None => formattedValue
        end
  end.

End Runtime.

End DataUtils.

(** ** TimeSeriesChart.tsx: rows, alignment, export *)

Module Chart.

Import DataUtils.

(** Values read from a chart row: the [Date] of the row, the numbers of
    the series, [VUndefined] for a property that is absent, and what
    [Object.prototype] holds under one of its keys, a function or under
    ["__proto__"] the prototype itself. *)
Inductive jsval : Type :=
  | VUndefined
  | VDate (t : Z)
  | VNum (v : Qc)
  | VBuiltin (key : string).

(** [interface ChartData { timestamp: Date; [key: string]: any }]: one
    object whose keys are ["timestamp"] and the ids of the series.  The
    map holds the own properties of the object; its prototype is
    [Object.prototype]. *)
Abbreviation ChartData := (gmap string jsval).

Abbreviation Series := (TimeSeriesData (list DataPoint)).

(** The string keys of [Object.prototype]. *)
Definition Object_prototype_keys : list string := [
  "constructor"; "__defineGetter__"; "__defineSetter__"; "hasOwnProperty";
  "__lookupGetter__"; "__lookupSetter__"; "isPrototypeOf";
  "propertyIsEnumerable"; "toString"; "valueOf"; "__proto__";
  "toLocaleString"
].

Definition inherited (key : string) : bool :=
  existsb (String.eqb key) Object_prototype_keys.

(** [row[key]]: the own property, or else what the prototype has. *)
Definition getProp (row : ChartData) (key : string) : jsval :=
  match row !! key with
  | Some v => v
  | None => if inherited key then VBuiltin key else VUndefined
  end.

(** [row[key] = value] for a number [value].  ["__proto__"] is an accessor
    of [Object.prototype] whose setter ignores a value that is neither an
    object nor [null]; the other keys of the prototype are writable data
    properties, so under every other key the row gets an own property or
    has its own property overwritten. *)
Definition setProp (row : ChartData) (key : string) (value : Qc) : ChartData :=
  if String.eqb key "__proto__" then row else <[ key := VNum value ]> row.

(** [row.timestamp.getTime()]; [None] is the TypeError of calling
    [getTime] on something that is not a [Date]. *)
Definition getTime (row : ChartData) : option Z :=
  match getProp row "timestamp" with
  | VDate t => Some t
  | _ => None
  end.

(** [s.visible !== false] *)
Definition isVisible {D} (s : TimeSeriesData D) : bool :=
  match visible s with
  | Some false => false
  | _ => true
  end.

(** A [Map<number, ChartData>], in insertion order. *)
Abbreviation TimestampMap := (list (Z * ChartData)).

Fixpoint mapHas (k : Z) (m : TimestampMap) : bool :=
  match m with
  | [] => false
  | (k', _) :: m' => if k' =? k then true else mapHas k m'
  end.

Fixpoint mapGet (k : Z) (m : TimestampMap) : option ChartData :=
  match m with
  | [] => None
  | (k', v) :: m' => if k' =? k then Some v else mapGet k m'
  end.

(** [Map.prototype.set]: a present key keeps its place. *)
Fixpoint mapSet (k : Z) (v : ChartData) (m : TimestampMap) : TimestampMap :=
  match m with
  | [] => [(k, v)]
  | (k', v') :: m' => if k' =? k then (k, v) :: m' else (k', v') :: mapSet k v m'
  end.

(** Body of the inner [forEach]: upsert the row of the point's time and
    write the value under the series id.  The row is the object held by the
    map, so the write is seen through the map. *)
Definition addPoint (sid : string) (timestampMap : TimestampMap) (point : DataPoint)
  : TimestampMap :=
  let ts := timestamp point in
  let timestampMap :=
    if mapHas ts timestampMap then timestampMap
    else mapSet ts {[ "timestamp" := VDate ts ]} timestampMap in
  match mapGet ts timestampMap with
  | Some entry => mapSet ts (setProp entry sid (value point)) timestampMap
  | None => timestampMap
  end.

Definition addSeries (timestampMap : TimestampMap) (s : Series) : TimestampMap :=
  fold_left (addPoint (id s)) (data s) timestampMap.

(** The comparator [(a, b) => a.timestamp.getTime() - b.timestamp.getTime()]. *)
Definition compareRows (a b : ChartData) : option Z :=
  match getTime a, getTime b with
  | Some ta, Some tb => Some (ta - tb)
  | _, _ => None
  end.

(** [Array.prototype.sort] with that comparator, as a stable insertion
    sort; [None] when the comparator throws.  An array of fewer than two
    rows is returned without a call of the comparator. *)
Fixpoint insertRow (x : ChartData) (l : list ChartData) : option (list ChartData) :=
  match l with
  | [] => Some [x]
  | y :: l' =>
      match compareRows x y with
      | None => None
      | Some c =>
          if c <=? 0 then Some (x :: y :: l')
          else match insertRow x l' with
               | Some r => Some (y :: r)
               | None => None
               end
      end
  end.

Fixpoint sortRows (l : list ChartData) : option (list ChartData) :=
  match l with
  | [] => Some []
  | x :: l' =>
      match sortRows l' with
      | Some r => insertRow x r
      | None => None
      end
  end.

(** The alignment of the visible series: fill the map, take its values,
    sort them. *)
Definition align (visibleSeries : list Series) : option (list ChartData) :=
  let timestampMap := fold_left addSeries visibleSeries [] in
  sortRows (map snd timestampMap).

(** The effect on [series] that computes [chartData]. *)
Definition chartDataEffect (series : list Series) : option (list ChartData) :=
  if (0 <? length series)%nat then align (List.filter isVisible series)
  else Some [].

(** [handleToggleSeries(id)], the function given to [setSeries]. *)
Definition handleToggleSeries {D} (sid : string) (prevSeries : list (TimeSeriesData D))
  : list (TimeSeriesData D) :=
  map (fun s =>
         if String.eqb (id s) sid
         then {| id := id s; name := name s; color := color s; data := data s;
                 visible := Some (match visible s with Some false => true | _ => false end);
                 query := query s; unit := unit s; aggregation := aggregation s |}
         else s)
      prevSeries.

Definition LF : string := String "010"%char EmptyString.

Inductive ExportResult : Type :=
  | ExportFailed           (* the toast that there is nothing to export, no file *)
  | ExportError            (* the toast of the [catch] clause, no file *)
  | Exported (csvContent : string).

Section Runtime.

Variable Number_toString : Qc -> string.
(** [Date.prototype.toString] *)
Variable Date_toString : Z -> string.
(** [formatAbsoluteTime], date-fns [format(date, 'yyyy-MM-dd HH:mm:ss')]
    in the local time zone; [None] is the [RangeError] that [format]
    throws for an argument that is not a valid time. *)
Variable formatAbsoluteTime : jsval -> option string.
(** The text of what [Object.prototype] holds under a key:
    [Function.prototype.toString] of a built-in function, or
    [Object.prototype.toString] of the prototype. *)
Variable Builtin_toString : string -> string.

(** String conversion of an array element by [join]. *)
Definition ToString (v : jsval) : string :=
  match v with
  | VUndefined => ""
  | VDate t => Date_toString t
  | VNum x => Number_toString x
  | VBuiltin key => Builtin_toString key
  end.

(** [exportDataCSV], up to the text handed to the [Blob]; [None] in the
    loop is the exception that takes the control to the [catch] clause. *)
Definition exportDataCSV (chartData : list ChartData) (series : list Series)
  : ExportResult :=
  if (length chartData =? 0)%nat || (length series =? 0)%nat then ExportFailed
  else
    let visibleSeries := List.filter isVisible series in
    let csvContent :=
      "timestamp," +:+ String.concat "," (map name visibleSeries) +:+ LF in
    match
      fold_left
        (fun csvContent point =>
           match csvContent, formatAbsoluteTime (getProp point "timestamp") with
           | Some csvContent, Some timestamp =>
               let values :=
                 String.concat ","
                   (map (fun s =>
                           let value := getProp point (id s) in
                           ToString value)
                        visibleSeries) in
               Some (csvContent +:+ (timestamp +:+ "," +:+ values +:+ LF))
           | _, _ => None
           end)
        chartData (Some csvContent)
    with
    | Some csvContent => Exported csvContent
    | None => ExportError
    end.

End Runtime.

(** ** TimeSeriesChart.tsx: value-axis domain *)

Definition tenth : Qc := Q2Qc (1 # 10).

(** The scan of [calculateYAxisDomain]: [None] stands for the initial pair
    [(Infinity, -Infinity)], [Some (min, max)] for the pair after a point. *)
Definition scanPoint (acc : option (Qc * Qc)) (point : DataPoint) : option (Qc * Qc) :=
  match acc with
  | None => Some (value point, value point)
  | Some (min, max) => Some (Math_min min (value point), Math_max max (value point))
  end.

Definition scanSeries (acc : option (Qc * Qc)) (s : Series) : option (Qc * Qc) :=
  if isVisible s then fold_left scanPoint (data s) acc else acc.

(** [calculateYAxisDomain()]; [None] is the result that is not a pair of
    finite numbers, when rows exist but no visible point does. *)
Definition calculateYAxisDomain
    (chartData : list ChartData) (series : list Series) (yAxisScale : Qc)
  : option (Qc * Qc) :=
  if (length chartData =? 0)%nat then Some (0%Qc, Qc_of_Z 100)
  else
    match fold_left scanSeries series None with
    | None => None
    | Some (min, max) =>
        let padding := ((max - min) * tenth)%Qc in
        let calculatedDomain := (Math_max 0%Qc (min - padding)%Qc, (max + padding)%Qc) in
        if bool_decide (yAxisScale <> Qc_of_Z 100) then
          let range := (snd calculatedDomain - fst calculatedDomain)%Qc in
          let scaleFactor := (yAxisScale / Qc_of_Z 100)%Qc in
          let newMax := (fst calculatedDomain + range * scaleFactor)%Qc in
          Some (fst calculatedDomain, newMax)
        else Some calculatedDomain
    end.

(** ** TimeSeriesChart.tsx: component state and event handlers *)

Inductive InteractionMode : Type := zoom | pan | brush.

(** [{start?: number, end?: number}] *)
Record SelectedArea : Type := {
  start : option Z;
  end_ : option Z
}.

Definition noSelection : SelectedArea := {| start := None; end_ := None |}.

(** The state variables and refs of one chart instance. *)
Record ChartState : Type := mkState {
  timeRange : string;
  startTime : jsval;
  endTime : jsval;
  refreshInterval : Z;
  series : list Series;
  chartData : list ChartData;
  zoomMode : bool;
  panMode : bool;
  brushMode : bool;
  crosshairMode : bool;
  selectedArea : SelectedArea;
  yAxisDomain : option (Qc * Qc);
  yAxisScale : Qc;
  refreshTimerRef : option positive;
  interactionModeRef : option InteractionMode
}.

Definition set_timeRange v '(mkState _ b c d e f g h i j k l m n o) :=
  mkState v b c d e f g h i j k l m n o.
Definition set_startTime v '(mkState a _ c d e f g h i j k l m n o) :=
  mkState a v c d e f g h i j k l m n o.
Definition set_endTime v '(mkState a b _ d e f g h i j k l m n o) :=
  mkState a b v d e f g h i j k l m n o.
Definition set_refreshInterval v '(mkState a b c _ e f g h i j k l m n o) :=
  mkState a b c v e f g h i j k l m n o.
Definition set_series v '(mkState a b c d _ f g h i j k l m n o) :=
  mkState a b c d v f g h i j k l m n o.
Definition set_chartData v '(mkState a b c d e _ g h i j k l m n o) :=
  mkState a b c d e v g h i j k l m n o.
Definition set_zoomMode v '(mkState a b c d e f _ h i j k l m n o) :=
  mkState a b c d e f v h i j k l m n o.
Definition set_panMode v '(mkState a b c d e f g _ i j k l m n o) :=
  mkState a b c d e f g v i j k l m n o.
Definition set_brushMode v '(mkState a b c d e f g h _ j k l m n o) :=
  mkState a b c d e f g h v j k l m n o.
Definition set_crosshairMode v '(mkState a b c d e f g h i _ k l m n o) :=
  mkState a b c d e f g h i v k l m n o.
Definition set_selectedArea v '(mkState a b c d e f g h i j _ l m n o) :=
  mkState a b c d e f g h i j v l m n o.
Definition set_yAxisDomain v '(mkState a b c d e f g h i j k _ m n o) :=
  mkState a b c d e f g h i j k v m n o.
Definition set_yAxisScale v '(mkState a b c d e f g h i j k l _ n o) :=
  mkState a b c d e f g h i j k l v n o.
Definition set_refreshTimerRef v '(mkState a b c d e f g h i j k l m _ o) :=
  mkState a b c d e f g h i j k l m v o.
Definition set_interactionModeRef v '(mkState a b c d e f g h i j k l m n _) :=
  mkState a b c d e f g h i j k l m n v.

(** The props that the handlers read. *)
Record Props : Type := {
  initialTimeRange : string;
  initialData : option (list Series);
  hasOnTimeRangeChange : bool   (* whether [onTimeRangeChange] was passed *)
}.

(** State of the first render; [now] is the clock. *)
Definition initialState (props : Props) (now : Z) : ChartState :=
  {| timeRange := initialTimeRange props;
     startTime := VDate (now - 3600000);
     endTime := VDate now;
     refreshInterval := 0;
     series := default [] (initialData props);
     chartData := [];
     zoomMode := false;
     panMode := false;
     brushMode := false;
     crosshairMode := true;
     selectedArea := noSelection;
     yAxisDomain := None;
     yAxisScale := Qc_of_Z 100;
     refreshTimerRef := None;
     interactionModeRef := None |}.

(** What a handler does to the outside of the component. *)
Inductive Effect : Type :=
  | OnTimeRangeChange (startTime endTime : jsval)   (* the host's callback *)
  | ToastTimeRangeUpdated.                          (* the toast of a new range *)

(** A handler returns with the next state and its effects, or throws the
    TypeError of reading a property of [undefined]. *)
Inductive Outcome (S : Type) : Type :=
  | Returned (st : S) (effects : list Effect)
  | TypeError.
Arguments Returned {S} st effects.
Arguments TypeError {S}.

(** [handleCustomTimeRangeChange(start, end)] *)
Definition handleCustomTimeRangeChange
    (props : Props) (start_ end' : jsval) (st : ChartState)
  : ChartState * list Effect :=
  (set_timeRange "custom" (set_endTime end' (set_startTime start_ st)),
   if hasOnTimeRangeChange props then [OnTimeRangeChange start_ end'] else []).

(** The three mode buttons: [onClick={() => setZoomMode(!zoomMode)}] and
    its two siblings, and the crosshair button. *)
Definition clickZoom (st : ChartState) : ChartState :=
  set_zoomMode (negb (zoomMode st)) st.

Definition clickPan (st : ChartState) : ChartState :=
  set_panMode (negb (panMode st)) st.

Definition clickBrush (st : ChartState) : ChartState :=
  set_brushMode (negb (brushMode st)) st.

Definition clickCrosshair (st : ChartState) : ChartState :=
  set_crosshairMode (negb (crosshairMode st)) st.

(** The effect on [[zoomMode, panMode, brushMode]], run after a render in
    which one of them changed. *)
Definition interactionModeEffect (st : ChartState) : ChartState :=
  if zoomMode st then
    set_brushMode false (set_panMode false (set_interactionModeRef (Some zoom) st))
  else if panMode st then
    set_brushMode false (set_zoomMode false (set_interactionModeRef (Some pan) st))
  else if brushMode st then
    set_panMode false (set_zoomMode false (set_interactionModeRef (Some brush) st))
  else
    set_interactionModeRef None st.

(** [handleResetView()] *)
Definition handleResetView (st : ChartState) : ChartState :=
  set_selectedArea noSelection
    (set_zoomMode false
       (set_panMode false
          (set_brushMode false
             (set_yAxisScale (Qc_of_Z 100)
                (set_yAxisDomain None st))))).

(** The argument of the brush control's [onChange]. *)
Record BrushData : Type := {
  startIndex : option Z;
  endIndex : option Z
}.

(** Truthiness of an optional index: [undefined] and [0] are falsy. *)
Definition truthy (i : option Z) : bool :=
  match i with
  | Some n => negb (n =? 0)
  | None => false
  end.

(** [array[i]] for a number [i]. *)
Definition at_ {A} (l : list A) (i : Z) : option A :=
  if i <? 0 then None else l !! Z.to_nat i.

(** [handleBrushChange(brushData)] *)
Definition handleBrushChange (brushData : option BrushData) (st : ChartState)
  : Outcome ChartState :=
  match brushData with
  | None => Returned st []
  | Some brushData =>
      if negb (truthy (startIndex brushData)) || negb (truthy (endIndex brushData))
      then Returned st []
      else if bool_decide (startIndex brushData = endIndex brushData)
      then Returned (set_selectedArea noSelection st) []
      else Returned (set_selectedArea {| start := startIndex brushData;
                                         end_ := endIndex brushData |} st) []
  end.

(** [handleBrushApply()] *)
Definition handleBrushApply (props : Props) (st : ChartState) : Outcome ChartState :=
  let area := selectedArea st in
  if negb (truthy (start area)) || negb (truthy (end_ area))
     || bool_decide (start area = end_ area)
  then Returned st []
  else if (0 <? length (chartData st))%nat then
    match at_ (chartData st) (default 0 (start area)),
          at_ (chartData st) (default 0 (end_ area)) with
    | Some startRow, Some endRow =>
        let startTime := getProp startRow "timestamp" in
        let endTime := getProp endRow "timestamp" in
        let '(st', effects) := handleCustomTimeRangeChange props startTime endTime st in
        Returned (set_brushMode false (set_selectedArea noSelection st'))
                 (effects ++ [ToastTimeRangeUpdated])
    | _, _ => TypeError
    end
  else Returned st [].

(** The button next to apply: [onClick={() => setSelectedArea({})}]. *)
Definition clickClearSelection (st : ChartState) : ChartState :=
  set_selectedArea noSelection st.

(** ** TimeSeriesChart.tsx: refresh timer *)

(** The browser's table of interval timers: handle and delay in
    milliseconds of each active one, and the next handle.  Handles are
    integers greater than zero, so a stored handle is truthy. *)
Record Window : Type := {
  intervals : list (positive * Z);
  nextHandle : positive
}.

(** [window.setInterval(callback, delay)] *)
Definition setInterval (delay : Z) (w : Window) : positive * Window :=
  (nextHandle w,
   {| intervals := intervals w ++ [(nextHandle w, delay)];
      nextHandle := Pos.succ (nextHandle w) |}).

(** [window.clearInterval(handle)] *)
Definition clearInterval (handle : positive) (w : Window) : Window :=
  {| intervals := List.filter (fun t => negb (Pos.eqb (fst t) handle)) (intervals w);
     nextHandle := nextHandle w |}.

(** [handleRefreshIntervalChange(interval)]; every tick of the timer it
    installs calls [refreshData]. *)
Definition handleRefreshIntervalChange (interval : Z) (stw : ChartState * Window)
  : ChartState * Window :=
  let '(st, w) := stw in
  let st := set_refreshInterval interval st in
  let '(st, w) :=
    match refreshTimerRef st with
    | Some handle => (set_refreshTimerRef None st, clearInterval handle w)
    | None => (st, w)
    end in
  if 0 <? interval then
    let '(handle, w) := setInterval (interval * 1000) w in
    (set_refreshTimerRef (Some handle) st, w)
  else (st, w).

(** Cleanup of the unmount effect. *)
Definition unmount (stw : ChartState * Window) : ChartState * Window :=
  let '(st, w) := stw in
  match refreshTimerRef st with
  | Some handle => (st, clearInterval handle w)
  | None => (st, w)
  end.

(** Calls of [refreshData] made by the active timers in [d] milliseconds. *)
Definition ticksWithin (d : Z) (w : Window) : Z :=
  fold_right (fun t n => d / snd t + n) 0 (intervals w).

End Chart.

(** ** The simpler chart variant: brush end *)

Module ChartBasic.

Import Chart.

(** The state that [handleBrushEnd] and the [handleCustomTimeRangeChange]
    of this variant touch. *)
Record ChartState : Type := {
  timeRange : string;
  startTime : jsval;
  endTime : jsval;
  zoomLevel : Qc;
  yAxisDomain : option (Qc * Qc);
  chartData : list ChartData
}.

(** [handleCustomTimeRangeChange(start, end)]: also resets the zoom. *)
Definition handleCustomTimeRangeChange
    (props : Props) (start_ end' : jsval) (st : ChartState)
  : ChartState * list Effect :=
  ({| timeRange := "custom"; startTime := start_; endTime := end';
      zoomLevel := 1%Qc; yAxisDomain := None; chartData := chartData st |},
   if hasOnTimeRangeChange props then [OnTimeRangeChange start_ end'] else []).

(** [handleBrushEnd({ startIndex, endIndex })] *)
Definition handleBrushEnd (props : Props) (startIndex endIndex : Z) (st : ChartState)
  : Outcome ChartState :=
  if (startIndex =? endIndex) || (length (chartData st) =? 0)%nat then Returned st []
  else
    match at_ (chartData st) startIndex, at_ (chartData st) endIndex with
    | Some startRow, Some endRow =>
        let start_ := getProp startRow "timestamp" in
        let end' := getProp endRow "timestamp" in
        let '(st', effects) := handleCustomTimeRangeChange props start_ end' st in
        Returned st' (effects ++ [ToastTimeRangeUpdated])
    | _, _ => TypeError
    end.

End ChartBasic.

(** ** time-utils.ts: [formatDuration] *)

Module TimeFormat.

(** An integer number in a template literal: its decimal digits, after a
    minus sign below zero. *)
Definition intToString (n : Z) : string :=
  if n <? 0 then "-" +:+ string_of_list_ascii (decimalDigits (- n))
  else string_of_list_ascii (decimalDigits n).

(** [formatDuration(milliseconds)] for a whole number of milliseconds.
    [Math.floor(a / b)] with [b > 0] is the division of [Z]; the remainder
    [%] takes the sign of the dividend, which is [Z.rem]. *)
Definition formatDuration (milliseconds : Z) : string :=
  let seconds := milliseconds / 1000 in
  let minutes := seconds / 60 in
  let hours := minutes / 60 in
  let days := hours / 24 in
  if 0 <? days then
    intToString days +:+ "d " +:+ intToString (Z.rem hours 24) +:+ "h"
  else if 0 <? hours then
    intToString hours +:+ "h " +:+ intToString (Z.rem minutes 60) +:+ "m"
  else if 0 <? minutes then
    intToString minutes +:+ "m " +:+ intToString (Z.rem seconds 60) +:+ "s"
  else
    intToString seconds +:+ "s".

End TimeFormat.

(** ** [new Date(number)] *)

(** ToIntegerOrInfinity of a finite number: the fraction is dropped. *)
Definition truncate (x : Qc) : Z :=
  if bool_decide (x < 0)%Qc then Qceiling (this x) else Qfloor (this x).

Definition newDate (x : Qc) : Date := TimeClip (truncate x).

(** [new Date(x)] for a result that may not be finite. *)
Definition newDateOf (x : double) : Date :=
  match x with
  | Finite x => newDate x
  | _ => InvalidDate
  end.

(** ** data-utils.ts: [parsePrometheusResponse] *)

Module Prometheus.

Import DataUtils.

(** One element of [data.result]: the labels of the metric as the entries
    of the object, in the order of [Object.entries], and the samples as
    pairs of a time in seconds and a numeral. *)
Record PrometheusResult : Type := {
  metric : list (string * string);
  values : list (Qc * string)
}.

(** A data point as the parser builds it: the date may be invalid. *)
Record ParsedPoint : Type := {
  timestamp : Date;
  value : Qc
}.

Abbreviation ParsedSeries := (TimeSeriesData (list ParsedPoint)).

Record PrometheusResponse : Type := {
  status : string;
  resultType : string;
  result : list PrometheusResult
}.

Definition colors : list string :=
  ["#3584e4"; "#f8e45c"; "#95d45b"; "#ff7800";
   "#9c27b0"; "#00acc1"; "#ff5722"; "#607d8b"].

(** The double-quote character. *)
Definition DQUOTE : string := String "034"%char EmptyString.

(** [metric[key]] *)
Fixpoint ownProperty (key : string) (o : list (string * string)) : option string :=
  match o with
  | [] => None
  | (k, v) :: o' => if String.eqb k key then Some v else ownProperty key o'
  end.

Section Runtime.

(** [parseFloat] of the runtime, on the numerals of finite numbers. *)
Variable parseFloat : string -> Qc.

(** [parsePrometheusResponse(response)] *)
Definition parsePrometheusResponse (response : PrometheusResponse)
  : list ParsedSeries :=
  if negb (String.eqb (status response) "success")
     || (length (result response) =? 0)%nat
  then []
  else
    imap
      (fun index series =>
         (* Create a name from the metric labels *)
         let metricName :=
           match ownProperty "__name__" (metric series) with
           | Some n => if String.eqb n "" then "unknown" else n
           | None => "unknown"
           end in
         let labels :=
           String.concat ", "
             (map (fun kv => fst kv +:+ "=" +:+ DQUOTE +:+ snd kv +:+ DQUOTE)
                  (List.filter (fun kv => negb (String.eqb (fst kv) "__name__"))
                               (metric series))) in
         let name :=
           if String.eqb labels "" then metricName
           else metricName +:+ "{" +:+ labels +:+ "}" in
         (* Convert values to data points *)
         let data :=
           map (fun tv =>
                  {| timestamp := newDateOf (multiply (fst tv) (Qc_of_Z 1000));
                     value := parseFloat (snd tv) |})
               (values series) in
         {| id := "series-" +:+ string_of_list_ascii (decimalDigits (Z.of_nat index));
            name := name;
            color := default "" (colors !! (index mod length colors)%nat);
            data := data;
            visible := Some true;
            query := None; unit := None; aggregation := None |})
      (result response).

End Runtime.

End Prometheus.

(** ** QueryInput.tsx: the query history *)

Module QueryInput.

Record QueryHistory : Type := {
  query : string;
  timestamp : Z
}.

(** The history a new input starts with; [loaded] is the clock when the
    module was loaded. *)
Definition SAMPLE_QUERY_HISTORY (loaded : Z) : list QueryHistory := [
  {| query := "http_requests_total{status=" +:+ Prometheus.DQUOTE +:+ "200"
              +:+ Prometheus.DQUOTE +:+ "}";
     timestamp := loaded - 3600000 |};
  {| query := "rate(http_requests_total[5m])";
     timestamp := loaded - 7200000 |};
  {| query := "sum(rate(node_cpu{mode!=" +:+ Prometheus.DQUOTE +:+ "idle"
              +:+ Prometheus.DQUOTE +:+ "}[1m])) by (instance)";
     timestamp := loaded - 14400000 |};
  {| query := "memory_usage{instance=" +:+ Prometheus.DQUOTE +:+ "server-01"
              +:+ Prometheus.DQUOTE +:+ "}";
     timestamp := loaded - 28800000 |}
].

(** [s.trim()] *)
Definition trim (s : string) : string :=
  string_of_list_ascii (trimEnd (trimStart (list_ascii_of_string s))).

Inductive Effect : Type :=
  | OnQuerySubmit (query : string)   (* the host's callback *)
  | ToastQueryEmpty.                 (* the toast "Query cannot be empty" *)

(** [addToQueryHistory(newQuery)]; [now] is the clock. *)
Definition addToQueryHistory (now : Z) (newQuery : string)
    (queryHistory : list QueryHistory) : list QueryHistory :=
  (* Don't add duplicates *)
  if negb (existsb (fun item => String.eqb (query item) newQuery) queryHistory)
  then {| query := newQuery; timestamp := now |} :: take 9 queryHistory
  else queryHistory.

(** [handleQuerySubmit(e)], with the text that the input holds. *)
Definition handleQuerySubmit (now : Z) (query : string)
    (queryHistory : list QueryHistory) : list QueryHistory * list Effect :=
  if negb (String.eqb (trim query) "")
  then (addToQueryHistory now query queryHistory, [OnQuerySubmit query])
  else (queryHistory, [ToastQueryEmpty]).

End QueryInput.

(** ** The simpler chart variant: zoom buttons *)

Module ChartBasicZoom.

Import Chart.

(** The doubles nearest to 1.5 and 1.3, exactly. *)
Definition double_1_5 : Qc := Q2Qc (3 # 2).

Definition double_1_3 : Qc := Q2Qc (5854679515581645 # 4503599627370496).

(** [handleZoomIn()] *)
Definition handleZoomIn (st : ChartBasic.ChartState) : ChartBasic.ChartState :=
  {| ChartBasic.timeRange := ChartBasic.timeRange st;
     ChartBasic.startTime := ChartBasic.startTime st;
     ChartBasic.endTime := ChartBasic.endTime st;
     ChartBasic.zoomLevel :=
       Math_min (ChartBasic.zoomLevel st * double_1_5)%Qc (Qc_of_Z 10);
     ChartBasic.yAxisDomain := ChartBasic.yAxisDomain st;
     ChartBasic.chartData := ChartBasic.chartData st |}.

(** [handleZoomOut()] *)
Definition handleZoomOut (st : ChartBasic.ChartState) : ChartBasic.ChartState :=
  {| ChartBasic.timeRange := ChartBasic.timeRange st;
     ChartBasic.startTime := ChartBasic.startTime st;
     ChartBasic.endTime := ChartBasic.endTime st;
     ChartBasic.zoomLevel :=
       Math_max (ChartBasic.zoomLevel st / double_1_5)%Qc (Qc_of_Z 1);
     ChartBasic.yAxisDomain :=
       (* Reset Y axis domain when zooming out to default *)
       if bool_decide (ChartBasic.zoomLevel st <= double_1_3)%Qc then None
       else ChartBasic.yAxisDomain st;
     ChartBasic.chartData := ChartBasic.chartData st |}.

(** What the user does to the zoom level of this variant. *)
Inductive ZoomEvent : Type :=
  | ZoomIn
  | ZoomOut
  | CustomTimeRange (start_ end' : jsval).

Definition zoomStep (props : Props) (st : ChartBasic.ChartState) (e : ZoomEvent)
  : ChartBasic.ChartState :=
  match e with
  | ZoomIn => handleZoomIn st
  | ZoomOut => handleZoomOut st
  | CustomTimeRange start_ end' =>
      fst (ChartBasic.handleCustomTimeRangeChange props start_ end' st)
  end.

End ChartBasicZoom.

(** ** The chart variant with a stored brush selection *)

Module ChartBrushSelected.

Import Chart.

(** The state that the brush handlers of this variant touch;
    [brushSelected] is a pair of row indices or [null]. *)
Record ChartState : Type := {
  timeRange : string;
  startTime : jsval;
  endTime : jsval;
  chartData : list ChartData;
  brushSelected : option (Z * Z)
}.

Definition set_brushSelected (v : option (Z * Z)) (st : ChartState) : ChartState :=
  {| timeRange := timeRange st; startTime := startTime st; endTime := endTime st;
     chartData := chartData st; brushSelected := v |}.

(** [handleCustomTimeRangeChange(start, end)] *)
Definition handleCustomTimeRangeChange
    (props : Props) (start_ end' : jsval) (st : ChartState)
  : ChartState * list Effect :=
  ({| timeRange := "custom"; startTime := start_; endTime := end';
      chartData := chartData st; brushSelected := brushSelected st |},
   if hasOnTimeRangeChange props then [OnTimeRangeChange start_ end'] else []).

(** [handleBrushChange(brushData)] *)
Definition handleBrushChange (brushData : option BrushData) (st : ChartState)
  : ChartState :=
  match brushData with
  | Some brushData =>
      match startIndex brushData, endIndex brushData with
      | Some startIndex, Some endIndex =>
          set_brushSelected (Some (startIndex, endIndex)) st
      | _, _ => st
      end
  | None => st
  end.

(** [handleApplyBrushSelection()] *)
Definition handleApplyBrushSelection (props : Props) (st : ChartState)
  : Outcome ChartState :=
  match brushSelected st with
  | Some (startIndex, endIndex) =>
      if (0 <? length (chartData st))%nat then
        if (startIndex <? Z.of_nat (length (chartData st)))
           && (endIndex <? Z.of_nat (length (chartData st)))
        then
          match at_ (chartData st) startIndex, at_ (chartData st) endIndex with
          | Some startRow, Some endRow =>
              let newStartTime := getProp startRow "timestamp" in
              let newEndTime := getProp endRow "timestamp" in
              let '(st', effects) :=
                handleCustomTimeRangeChange props newStartTime newEndTime st in
              Returned (set_brushSelected None st')
                       (effects ++ [ToastTimeRangeUpdated])
          | _, _ => TypeError
          end
        else Returned st []
      else Returned st []
  | None => Returned st []
  end.

End ChartBrushSelected.

(** ** The chart variant with a drag selection on the plot *)

Module ChartSelect.

(** The state that the release and the leave of the pointer and the reset
    of the view touch; the two ends of the selection are finite numbers of
    milliseconds or [null]. *)
Record ChartState : Type := {
  timeRange : string;
  startTime : Date;
  endTime : Date;
  hoveredPoint : option (Date * gmap string Qc);
  zoomMode : bool;
  panMode : bool;
  selectionStart : option Qc;
  selectionEnd : option Qc;
  isSelecting : bool
}.

Inductive Effect : Type :=
  | OnTimeRangeChange (startTime endTime : Date)   (* the host's callback *)
  | ToastTimeRangeUpdated                          (* the toast of a new range *)
  | ToastViewReset.                                (* the toast of a reset view *)

Section Runtime.

Variable LocalTZA : Z -> bool -> Z.

(** [handleTimeRangeChange(newRange)]; [now] is the clock. *)
Definition handleTimeRangeChange
    (props : Chart.Props) (now : Z) (newRange : string) (st : ChartState)
  : ChartState * list Effect :=
  let '(start_, end') := TimeUtils.getTimeRangeFromValue LocalTZA now newRange in
  ({| timeRange := newRange; startTime := start_; endTime := end';
      hoveredPoint := hoveredPoint st;
      zoomMode := zoomMode st; panMode := panMode st;
      selectionStart := selectionStart st; selectionEnd := selectionEnd st;
      isSelecting := isSelecting st |},
   if Chart.hasOnTimeRangeChange props then [OnTimeRangeChange start_ end'] else []).

(** [handleCustomTimeRangeChange(start, end)] *)
Definition handleCustomTimeRangeChange
    (props : Chart.Props) (start_ end' : Date) (st : ChartState)
  : ChartState * list Effect :=
  ({| timeRange := "custom"; startTime := start_; endTime := end';
      hoveredPoint := hoveredPoint st;
      zoomMode := zoomMode st; panMode := panMode st;
      selectionStart := selectionStart st; selectionEnd := selectionEnd st;
      isSelecting := isSelecting st |},
   if Chart.hasOnTimeRangeChange props then [OnTimeRangeChange start_ end'] else []).

(** The three setters that end a selection. *)
Definition endSelection (st : ChartState) : ChartState :=
  {| timeRange := timeRange st; startTime := startTime st; endTime := endTime st;
     hoveredPoint := hoveredPoint st;
     zoomMode := zoomMode st; panMode := panMode st;
     selectionStart := None; selectionEnd := None; isSelecting := false |}.

(** [handleChartMouseUp()] *)
Definition handleChartMouseUp (props : Chart.Props) (st : ChartState)
  : ChartState * list Effect :=
  let '(st', effects) :=
    match isSelecting st, selectionStart st, selectionEnd st with
    | true, Some selectionStart, Some selectionEnd =>
        (* Apply selection as new time range *)
        let newStart := newDate (Math_min selectionStart selectionEnd) in
        let newEnd := newDate (Math_max selectionStart selectionEnd) in
        (* Only apply if the selection is meaningful (not just a click) *)
        if bool_decide (Qc_of_Z 1000 < Math_abs (selectionEnd - selectionStart))%Qc
        then
          let '(st', effects) := handleCustomTimeRangeChange props newStart newEnd st in
          (st', effects ++ [ToastTimeRangeUpdated])
        else (st, [])
    | _, _, _ => (st, [])
    end in
  (endSelection st', effects).

(** [handleChartMouseLeave()] *)
Definition handleChartMouseLeave (st : ChartState) : ChartState * list Effect :=
  let st :=
    {| timeRange := timeRange st; startTime := startTime st; endTime := endTime st;
       hoveredPoint := None;
       zoomMode := zoomMode st; panMode := panMode st;
       selectionStart := selectionStart st; selectionEnd := selectionEnd st;
       isSelecting := isSelecting st |} in
  (* If we're selecting and mouse leaves, cancel the selection *)
  if isSelecting st then (endSelection st, []) else (st, []).

(** [resetView()]; [now] is the clock. *)
Definition resetView (props : Chart.Props) (now : Z) (st : ChartState)
  : ChartState * list Effect :=
  let st' :=
    {| timeRange := timeRange st; startTime := startTime st; endTime := endTime st;
       hoveredPoint := hoveredPoint st;
       zoomMode := false; panMode := false;
       selectionStart := selectionStart st; selectionEnd := selectionEnd st;
       isSelecting := isSelecting st |} in
  (* If custom time range, reset to initial time range *)
  let '(st', effects) :=
    if String.eqb (timeRange st) "custom"
    then handleTimeRangeChange props now (Chart.initialTimeRange props) st'
    else (st', []) in
  (st', effects ++ [ToastViewReset]).

End Runtime.

End ChartSelect.

(** ** Predicates used in the statements *)

(** A clock reading [now] within the range of valid dates, and late
    enough that the longest listed window starts after the epoch. *)
Definition clockOk (now : Z) : Prop :=
  30 * 24 * 60 * 60 * 1000 <= now <= 8640000000000000.

(** The local time that lies [ms] milliseconds before the local time of
    [now] has the offset that [now] has: no change of the zone's offset
    (daylight saving, say) falls between the two. *)
Definition sameOffset (LocalTZA : Z -> bool -> Z) (now ms : Z) : Prop :=
  LocalTZA (LocalTime LocalTZA now - ms) false = LocalTZA now true.

(** The same time of day in local time, [ms] milliseconds of local time
    before [now]. *)
Definition localTimeBefore (LocalTZA : Z -> bool -> Z) (now ms : Z) : Z :=
  UTC LocalTZA (LocalTime LocalTZA now - ms).

(** The start of the window of an entry of the selector's table: for an
    entry in days the same local time of day that many days before [now],
    for the others [now] less the duration of the entry. *)
Definition tableStart (LocalTZA : Z -> bool -> Z) (now : Z) (r : TimeUtils.TimeRange)
  : Date :=
  if endsWith (TimeUtils.value r) "d"
  then TimeClip (localTimeBefore LocalTZA now (TimeUtils.duration r))
  else DateMs (now - TimeUtils.duration r).

(** A browser window in which no interval timer runs. *)
Definition emptyWindow : Chart.Window :=
  {| Chart.intervals := []; Chart.nextHandle := 1%positive |}.

(** The timers of the window are those of this chart instance: the one whose
    handle the ref holds, or none. *)
Definition timerOwned (stw : Chart.ChartState * Chart.Window) : Prop :=
  match Chart.refreshTimerRef (fst stw) with
  | Some handle => exists delay, Chart.intervals (snd stw) = [(handle, delay)]
  | None => Chart.intervals (snd stw) = []
  end.

(** The number of interaction modes among zoom, pan and brush that a state
    shows as active. *)
Definition activeModes (st : Chart.ChartState) : nat :=
  (if Chart.zoomMode st then 1 else 0)
  + (if Chart.panMode st then 1 else 0)
  + (if Chart.brushMode st then 1 else 0).

(** The component after a click: the state of the render that follows the
    click, and the state once the mode effect of that render has run. *)
Definition rendered (click : Chart.ChartState -> Chart.ChartState)
    (st : Chart.ChartState) : Chart.ChartState :=
  click st.

Definition settled (click : Chart.ChartState -> Chart.ChartState)
    (st : Chart.ChartState) : Chart.ChartState :=
  Chart.interactionModeEffect (click st).

(** The writes of the alignment loops in the order they happen: the id of
    the series and the point. *)
Definition writesOf (visibleSeries : list Chart.Series) : list (string * DataUtils.DataPoint) :=
  flat_map (fun s => map (fun p => (DataUtils.id s, p)) (DataUtils.data s)) visibleSeries.

(** The times of all points of the series. *)
Definition timestampsOf (visibleSeries : list Chart.Series) : list Z :=
  flat_map (fun s => map DataUtils.timestamp (DataUtils.data s)) visibleSeries.

(** The value last written under key [k] at time [t]. *)
Definition lastWrite (ws : list (string * DataUtils.DataPoint)) (k : string) (t : Z)
  : option Qc :=
  fold_left
    (fun acc w =>
       if String.eqb (fst w) k && (DataUtils.timestamp (snd w) =? t)
       then Some (DataUtils.value (snd w)) else acc)
    ws None.

(** The value of a series at time [t]: that of its last point at exactly
    that time, if it has one. *)
Definition valueAt (s : Chart.Series) (t : Z) : option Qc :=
  fold_left
    (fun acc p => if DataUtils.timestamp p =? t then Some (DataUtils.value p) else acc)
    (DataUtils.data s) None.

(** What the series with id [k] contribute at time [t]: the value of the
    last of them, in list order, that has a point there. *)
Definition contributed (visibleSeries : list Chart.Series) (k : string) (t : Z)
  : option Qc :=
  fold_left
    (fun acc s =>
       if String.eqb (DataUtils.id s) k
       then match valueAt s t with Some v => Some v | None => acc end
       else acc)
    visibleSeries None.

(** The alignment loops as one loop over the writes. *)
Definition foldWrites (ws : list (string * DataUtils.DataPoint))
    (m : list (Z * gmap string Chart.jsval)) : list (Z * gmap string Chart.jsval) :=
  fold_left (fun m w => Chart.addPoint (fst w) m (snd w)) ws m.

Definition writeTime (w : string * DataUtils.DataPoint) : Z :=
  DataUtils.timestamp (snd w).

(** Order of two rows by their time. *)
Definition rowLe (a b : Chart.ChartData) : Prop :=
  exists ta tb, Chart.getTime a = Some ta /\ Chart.getTime b = Some tb /\ ta <= tb.

Definition hasTime (row : Chart.ChartData) : Prop := is_Some (Chart.getTime row).

(** The alignment as the specification describes it: one row per distinct
    time of a point, the rows in strictly ascending order of time, and in the
    row of time [t], under the id of each series, the value of that series at
    [t] if it has a point there and no entry if it has none. *)
Definition alignsAsSpecified (visibleSeries : list Chart.Series) : Prop :=
  exists rows times,
    Chart.align visibleSeries = Some rows /\
    map Chart.getTime rows = map Some times /\
    StronglySorted Z.lt times /\
    (forall t, In t times <-> In t (timestampsOf visibleSeries)) /\
    (forall row t s, In row rows -> Chart.getTime row = Some t -> In s visibleSeries ->
       row !! DataUtils.id s = Chart.VNum <$> valueAt s t /\
       (is_Some (row !! DataUtils.id s)
        <-> In t (map DataUtils.timestamp (DataUtils.data s)))).

(** The CSV text as the specification describes it: a header line, then
    one line per time; in a line the time and, for each visible series, its
    value at that time or nothing. *)
Section CsvFormat.

Variable Number_toString : Qc -> string.
(** The text of a valid date in the time column. *)
Variable formatTime : Z -> string.





Variable Date_toString : Z -> string.
Variable formatAbsoluteTime : Chart.jsval -> option string.
Variable Builtin_toString : string -> string.


End CsvFormat.


(** The precision that the specification assigns to a magnitude. *)
Definition precisionFor (v : Qc) : nat :=
  if bool_decide (Qc_of_Z 1000 <= Math_abs v)%Qc then 0
  else if bool_decide (Qc_of_Z 100 <= Math_abs v)%Qc then 1
  else if bool_decide (Qc_of_Z 10 <= Math_abs v)%Qc then 2
  else 3.

(** Stripping the trailing zeros after the decimal point, as the
    specification words it: a numeral with a point loses the zeros at its
    end, and the point too when nothing is left after it. *)
Definition stripZerosSpec (s : list ascii) : list ascii :=
  if existsb isDot s then
    let t := dropTrailingZeros s in
    match rev t with
    | c :: r => if isDot c then rev r else t
    | [] => t
    end
  else s.

(** The unit, when one is supplied, after a space. *)
Definition unitSuffix (unit : option string) : string :=
  match unit with
  | Some u => if bool_decide (u = "") then "" else " " +:+ u
  | None => ""
  end.

(** [formatValue] as the specification describes it. *)
Definition formatValueSpec (Number_toString : Qc -> string) (v : Qc) (unit : option string)
  : string :=
  string_of_list_ascii
    (stripZerosSpec
       (list_ascii_of_string (DataUtils.toFixed Number_toString v (precisionFor v))))
  +:+ unitSuffix unit.

(** The shape of a decimal numeral: no point at all, or one point followed
    by at least one digit and nothing but digits. *)
Definition numeralShape (s : list ascii) : Prop :=
  existsb isDot s = false \/
  exists pre frac,
    s = pre ++ "."%char :: frac /\ existsb isDot pre = false /\
    forallb isDigit frac = true /\ frac <> [].

(** *** Runs of events and further predicates *)

(** The cadences the user picks one after the other. *)
Definition runCadences (cadences : list Z) (stw : Chart.ChartState * Chart.Window)
  : Chart.ChartState * Chart.Window :=
  fold_left (fun stw interval => Chart.handleRefreshIntervalChange interval stw)
            cadences stw.

(** The clicks that touch the interaction modes. *)
Inductive ModeEvent : Type :=
  | ClickZoom
  | ClickPan
  | ClickBrush
  | ClickCrosshair
  | ClickResetView.

(** One click and the mode effect of the render that follows it. *)
Definition modeStep (st : Chart.ChartState) (e : ModeEvent) : Chart.ChartState :=
  Chart.interactionModeEffect
    match e with
    | ClickZoom => Chart.clickZoom st
    | ClickPan => Chart.clickPan st
    | ClickBrush => Chart.clickBrush st
    | ClickCrosshair => Chart.clickCrosshair st
    | ClickResetView => Chart.handleResetView st
    end.

(** The mode that the three flags of a state show, zoom before pan before
    brush. *)
Definition modeOf (st : Chart.ChartState) : option Chart.InteractionMode :=
  if Chart.zoomMode st then Some Chart.zoom
  else if Chart.panMode st then Some Chart.pan
  else if Chart.brushMode st then Some Chart.brush
  else None.

(** The values of the points of the visible series, in the order of the
    scan of [calculateYAxisDomain]. *)
Definition visibleValues (series : list Chart.Series) : list Qc :=
  flat_map
    (fun s => if Chart.isVisible s then map DataUtils.value (DataUtils.data s) else [])
    series.

(** A result of the scan covers the values seen so far: none were seen,
    or the minimum and the maximum are two of them and all of them lie
    between the two. *)
Definition covers (acc : option (Qc * Qc)) (seen : list Qc) : Prop :=
  match acc with
  | None => seen = []
  | Some (min, max) =>
      In min seen /\ In max seen /\
      Forall (fun v => (min <= v)%Qc /\ (v <= max)%Qc) seen
  end.

(** What [handleToggleSeries] makes of one series. *)
Definition toggled {D} (sid : string) (s : DataUtils.TimeSeriesData D)
  : DataUtils.TimeSeriesData D :=
  hd s (Chart.handleToggleSeries sid [s]).

(** The id that [parsePrometheusResponse] gives to the series at [index]. *)
Definition seriesId (index : nat) : string :=
  "series-" +:+ string_of_list_ascii (decimalDigits (Z.of_nat index)).

(** A parsed point whose date is valid, as a data point of the store. *)
Definition dataPointOf (p : Prometheus.ParsedPoint) : option DataUtils.DataPoint :=
  match Prometheus.timestamp p with
  | DateMs t =>
      Some {| DataUtils.timestamp := t; DataUtils.value := Prometheus.value p;
              DataUtils.anomaly := None; DataUtils.annotated := None;
              DataUtils.annotation := None |}
  | InvalidDate => None
  end.

(** A parsed series all of whose dates are valid, as a series of the
    store. *)
Definition seriesOf (s : Prometheus.ParsedSeries) : option Chart.Series :=
  match mapM dataPointOf (DataUtils.data s) with
  | Some points =>
      Some {| DataUtils.id := DataUtils.id s; DataUtils.name := DataUtils.name s;
              DataUtils.color := DataUtils.color s; DataUtils.data := points;
              DataUtils.visible := DataUtils.visible s;
              DataUtils.query := DataUtils.query s; DataUtils.unit := DataUtils.unit s;
              DataUtils.aggregation := DataUtils.aggregation s |}
  | None => None
  end.

(** The store that holds the parsed series, when all their dates are
    valid. *)
Definition storeOf (parsed : list Prometheus.ParsedSeries) : option (list Chart.Series) :=
  mapM seriesOf parsed.


(** The submissions of the query form one after the other, the clock and
    the text of each: the history at the end and all the effects. *)
Definition submitAll (submissions : list (Z * string))
    (queryHistory : list QueryInput.QueryHistory)
  : list QueryInput.QueryHistory * list QueryInput.Effect :=
  fold_left
    (fun acc e =>
       let '(h, effects) := QueryInput.handleQuerySubmit (fst e) (snd e) (fst acc) in
       (h, snd acc ++ effects))
    submissions (queryHistory, []).

(** A history as the input keeps it: no query twice, at most ten entries,
    no blank query. *)
Definition historyOk (queryHistory : list QueryInput.QueryHistory) : Prop :=
  List.NoDup (map QueryInput.query queryHistory) /\
  (length queryHistory <= 10)%nat /\
  Forall (fun item => QueryInput.trim (QueryInput.query item) <> "") queryHistory.

(** What the form does with one text: the error toast for a blank one,
    the host's callback with the text as typed for any other. *)
Definition submitEffect (text : string) : QueryInput.Effect :=
  if String.eqb (QueryInput.trim text) "" then QueryInput.ToastQueryEmpty
  else QueryInput.OnQuerySubmit text.

(** A text shows [ms] milliseconds by its two largest units, truncated: days
    and hours, hours and minutes, minutes and seconds, or seconds alone
    below a minute. *)
Definition showsTruncated (ms : Z) (text : string) : Prop :=
  (exists d h, 0 < d /\ 0 <= h < 24 /\
     d * 86400000 + h * 3600000 <= ms < d * 86400000 + (h + 1) * 3600000 /\
     text = TimeFormat.intToString d +:+ "d " +:+ TimeFormat.intToString h +:+ "h") \/
  (exists h m, 0 < h < 24 /\ 0 <= m < 60 /\
     h * 3600000 + m * 60000 <= ms < h * 3600000 + (m + 1) * 60000 /\
     text = TimeFormat.intToString h +:+ "h " +:+ TimeFormat.intToString m +:+ "m") \/
  (exists m s, 0 < m < 60 /\ 0 <= s < 60 /\
     m * 60000 + s * 1000 <= ms < m * 60000 + (s + 1) * 1000 /\
     text = TimeFormat.intToString m +:+ "m " +:+ TimeFormat.intToString s +:+ "s") \/
  (exists s, 0 <= s < 60 /\ s * 1000 <= ms < (s + 1) * 1000 /\
     text = TimeFormat.intToString s +:+ "s").

(** The zoom events of the simpler variant one after the other. *)
Definition runZoom (props : Chart.Props) (events : list ChartBasicZoom.ZoomEvent)
    (st : ChartBasic.ChartState) : ChartBasic.ChartState :=
  fold_left (ChartBasicZoom.zoomStep props) events st.

(** ** Sample data for the closed examples *)

Definition sampleProps : Chart.Props :=
  {| Chart.initialTimeRange := "1h"; Chart.initialData := None;
     Chart.hasOnTimeRangeChange := true |}.

Definition sampleNow : Z := 1700000000000.

Definition sampleState : Chart.ChartState := Chart.initialState sampleProps sampleNow.

(** Two time zones for the closed examples: UTC, and a zone two hours east
    of UTC that goes back to one hour east at 2023-10-29T01:00:00Z, like
    Central European time; a local time that occurs twice then is taken as
    the earlier one. *)
Definition zoneUTC (t : Z) (isUTC : bool) : Z := 0.

Definition zoneCET (t : Z) (isUTC : bool) : Z :=
  if isUTC then (if t <? 1698541200000 then 7200000 else 3600000)
  else (if t <? 1698541200000 + 7200000 then 7200000 else 3600000).

Definition mkSeries (sid sname : string) (points : list DataUtils.DataPoint) : Chart.Series :=
  {| DataUtils.id := sid; DataUtils.name := sname; DataUtils.color := "#3584e4";
     DataUtils.data := points; DataUtils.visible := Some true;
     DataUtils.query := None; DataUtils.unit := None; DataUtils.aggregation := None |}.

Definition point (t v : Z) : DataUtils.DataPoint :=
  {| DataUtils.timestamp := t; DataUtils.value := Qc_of_Z v;
     DataUtils.anomaly := None; DataUtils.annotated := None;
     DataUtils.annotation := None |}.

(** The double nearest to the decimal 42.567, exactly. *)
Definition double_42_567 : Qc := Q2Qc (5990772666821247 # 140737488355328).

(** Stand-ins for the runtime's logarithm and printers in the closed
    examples. *)
Definition sampleMathLog (x : Qc) : Qc := Qc_of_Z (floorLog2 x).

Definition sampleNumberToString (x : Qc) : string :=
  string_of_list_ascii (decimalDigits (Qfloor (this x))).

Definition sampleDateToString (t : Z) : string :=
  string_of_list_ascii (decimalDigits t).

Definition sampleFormatTime (t : Z) : string :=
  string_of_list_ascii (decimalDigits t).

Definition sampleFormatAbsoluteTime (v : Chart.jsval) : option string :=
  match v with
  | Chart.VDate t => Some (sampleFormatTime t)
  | Chart.VNum x => Some (sampleFormatTime (Qfloor (this x)))
  | _ => None
  end.

Definition sampleBuiltinToString (key : string) : string :=
  if String.eqb key "__proto__" then "[object Object]"
  else "function " +:+ key +:+ "() { [native code] }".

(** The two series of the export example: A = [(t0,1),(t1,2)], B = [(t0,5)]. *)
Definition seriesA (t0 t1 : Z) : Chart.Series :=
  mkSeries "series-0" "A" [point t0 1; point t1 2].

Definition seriesB (t0 : Z) : Chart.Series :=
  mkSeries "series-1" "B" [point t0 5].



(** A series whose id is the key under which a row keeps its time. *)
Definition seriesNamedTimestamp : Chart.Series :=
  mkSeries "timestamp" "A" [point 10 1].


(** A series whose id is a key of [Object.prototype]. *)
Definition seriesNamedProto : Chart.Series :=
  mkSeries "__proto__" "A" [point 10 1].

(** A response with two results; the time of the first sample is the
    double nearest to 1700000000.123 seconds. *)
Definition double_1700000000_123 : Qc := Q2Qc (7130316800515899 # 4194304).

Definition sampleParseFloat (numeral : string) : Qc :=
  Qc_of_Z (default 0 (parseInt numeral)).


(** The no-break space U+00A0 and the ideographic space U+3000, in
    UTF-8. *)
Definition NBSP : string := String "194"%char (String "160"%char EmptyString).

Definition IDEOGRAPHIC_SPACE : string :=
  String "227"%char (String "128"%char (String "128"%char EmptyString)).

(** ** Sample states of the chart variants *)

(** Two rows, at the times 10 and 20. *)
Definition sampleRows : list Chart.ChartData :=
  [ {[ "timestamp" := Chart.VDate 10 ]}; {[ "timestamp" := Chart.VDate 20 ]} ].

Definition sampleBasicState : ChartBasic.ChartState :=
  {| ChartBasic.timeRange := "1h";
     ChartBasic.startTime := Chart.VDate (sampleNow - 3600000);
     ChartBasic.endTime := Chart.VDate sampleNow;
     ChartBasic.zoomLevel := 1%Qc;
     ChartBasic.yAxisDomain := None;
     ChartBasic.chartData := sampleRows |}.

Definition sampleBrushSelectedState (selection : option (Z * Z))
  : ChartBrushSelected.ChartState :=
  {| ChartBrushSelected.timeRange := "1h";
     ChartBrushSelected.startTime := Chart.VDate (sampleNow - 3600000);
     ChartBrushSelected.endTime := Chart.VDate sampleNow;
     ChartBrushSelected.chartData := sampleRows;
     ChartBrushSelected.brushSelected := selection |}.

Definition sampleSelectState (selecting : bool) (from to : option Qc)
  : ChartSelect.ChartState :=
  {| ChartSelect.timeRange := "1h";
     ChartSelect.startTime := DateMs (sampleNow - 3600000);
     ChartSelect.endTime := DateMs sampleNow;
     ChartSelect.hoveredPoint := None;
     ChartSelect.zoomMode := true;
     ChartSelect.panMode := false;
     ChartSelect.selectionStart := from;
     ChartSelect.selectionEnd := to;
     ChartSelect.isSelecting := selecting |}.

(* ================================================================== *)
(** * Part II: properties                                              *)
(* ================================================================== *)

Import DataUtils Chart.

(** ** Time-range resolver *)

Section TimeRangeResolver.

Import TimeUtils.

Variable LocalTZA : Z -> bool -> Z.

Lemma TimeClip_in_range t : Z.abs t <= 8640000000000000 -> TimeClip t = DateMs t.
Proof.
  intros H. unfold TimeClip.
  destruct (Z.leb_spec (Z.abs t) 8640000000000000); [reflexivity | lia].
Qed.

(** What the three unit branches compute, once the number is parsed. *)
Lemma resolve_minutes now token n :
  endsWith token "m" = true ->
  parseInt (replace token "m" "") = Some n ->
  getTimeRangeFromValue LocalTZA now token = (TimeClip (now - n * 60000), DateMs now).
Proof.
  intros He Hp. unfold getTimeRangeFromValue. rewrite He, Hp.
  cbn [subMinutes addMilliseconds fmap option_fmap option_map].
  repeat f_equal; try lia.
Qed.

Lemma resolve_hours now token n :
  endsWith token "m" = false ->
  endsWith token "h" = true ->
  parseInt (replace token "h" "") = Some n ->
  getTimeRangeFromValue LocalTZA now token = (TimeClip (now - n * 3600000), DateMs now).
Proof.
  intros Hm He Hp. unfold getTimeRangeFromValue. rewrite Hm, He, Hp.
  cbn [subHours addMilliseconds fmap option_fmap option_map].
  repeat f_equal; try lia.
Qed.

Lemma resolve_days now token n :
  endsWith token "m" = false ->
  endsWith token "h" = false ->
  endsWith token "d" = true ->
  parseInt (replace token "d" "") = Some n ->
  getTimeRangeFromValue LocalTZA now token
  = (if n =? 0 then DateMs now
     else TimeClip (localTimeBefore LocalTZA now (n * 86400000)), DateMs now).
Proof.
  intros Hm Hh He Hp. unfold getTimeRangeFromValue. rewrite Hm, Hh, He, Hp.
  reflexivity.
Qed.

(** Without a change of the offset in between, the same local time [ms]
    milliseconds of local time before [now] is [ms] milliseconds before
    [now]. *)
Lemma localTimeBefore_sameOffset now ms :
  sameOffset LocalTZA now ms -> localTimeBefore LocalTZA now ms = now - ms.
Proof.
  unfold sameOffset, localTimeBefore, UTC. intros ->. unfold LocalTime. lia.
Qed.

(** A unit branch whose number does not parse yields an invalid start. *)
Lemma resolve_days_NaN now token :
  endsWith token "m" = false ->
  endsWith token "h" = false ->
  endsWith token "d" = true ->
  parseInt (replace token "d" "") = None ->
  getTimeRangeFromValue LocalTZA now token = (InvalidDate, DateMs now).
Proof.
  intros Hm Hh He Hp. unfold getTimeRangeFromValue. rewrite Hm, Hh, He, Hp.
  reflexivity.
Qed.

Local Ltac parsed_amount tok u k :=
  let r := eval vm_compute in (parseInt (replace tok u "")) in
  match r with Some ?n => k n end.

Local Ltac resolve_entry :=
  match goal with
  | |- getTimeRangeFromValue LocalTZA ?now ?tok = _ =>
      first
        [ parsed_amount tok "m" ltac:(fun n =>
            rewrite (resolve_minutes now tok n) by reflexivity);
          rewrite TimeClip_in_range by lia
        | parsed_amount tok "h" ltac:(fun n =>
            rewrite (resolve_hours now tok n) by reflexivity);
          rewrite TimeClip_in_range by lia
        | parsed_amount tok "d" ltac:(fun n =>
            rewrite (resolve_days now tok n) by reflexivity) ];
      replace (endsWith tok "d") with (endsWith tok "d" && true)
        by apply andb_true_r;
      let b := eval vm_compute in (endsWith tok "d") in
      change (endsWith tok "d" && true) with b
  end;
  cbn [Z.eqb]; repeat f_equal; lia.

(** Every token of the selector's table resolves to a window that ends at
    [now]; it starts the duration of the entry before [now], or for an
    entry in days at the same local time of day that many days before. *)
Lemma resolve_TIME_RANGES now :
  clockOk now ->
  Forall (fun r => getTimeRangeFromValue LocalTZA now (value r)
                   = (tableStart LocalTZA now r, DateMs now))
         TIME_RANGES.
Proof.
  intros [Hlo Hhi]. unfold TIME_RANGES.
  repeat (apply List.Forall_cons;
          [ unfold tableStart; cbn [value duration]; resolve_entry | ]).
  apply List.Forall_nil.
Qed.

(** Where the offset of the zone is the same at both ends, the window of
    an entry is exactly as long as the table says. *)
Lemma tableStart_sameOffset now r :
  clockOk now -> In r TIME_RANGES ->
  sameOffset LocalTZA now (duration r) ->
  tableStart LocalTZA now r = DateMs (now - duration r).
Proof.
  intros [Hlo Hhi] Hr Hsame. unfold tableStart.
  destruct (endsWith (value r) "d"); [ | reflexivity].
  rewrite (localTimeBefore_sameOffset _ _ Hsame).
  apply TimeClip_in_range.
  unfold TIME_RANGES in Hr. cbn in Hr.
  repeat (destruct Hr as [<- | Hr]; [cbn [duration]; lia | ]). destruct Hr.
Qed.

Example resolve_15m now :
  clockOk now ->
  getTimeRangeFromValue LocalTZA now "15m" = (DateMs (now - 15 * 60 * 1000), DateMs now).
Proof.
  intros H. pose proof (resolve_TIME_RANGES now H) as HF.
  rewrite Forall_forall in HF.
  apply (HF {| label := "15m"; value := "15m"; duration := 15 * 60 * 1000 |}).
  unfold TIME_RANGES. apply list_elem_of_In. set_solver.
Qed.

(** A token that ends in none of [m], [h], [d] resolves to the default
    window. *)
Lemma resolve_fallback now token :
  endsWith token "m" = false ->
  endsWith token "h" = false ->
  endsWith token "d" = false ->
  getTimeRangeFromValue LocalTZA now token = defaultWindow now.
Proof.
  intros Hm Hh Hd. unfold getTimeRangeFromValue, defaultWindow.
  rewrite Hm, Hh, Hd. reflexivity.
Qed.

Example resolve_bogus now : getTimeRangeFromValue LocalTZA now "bogus" = defaultWindow now.
Proof. apply resolve_fallback; reflexivity. Qed.

Example default_window_is_one_hour now :
  clockOk now -> defaultWindow now = (DateMs (now - 3600000), DateMs now).
Proof.
  intros [Hlo Hhi]. unfold defaultWindow, subHours, addMilliseconds. cbn [fmap option_fmap option_map].
  rewrite TimeClip_in_range by lia. repeat f_equal; try lia.
Qed.

(** C4.  The resolver is meant to fall back to the one-hour window for
    every token it does not understand.  A malformed token that happens to
    end in [m], [h] or [d] is not caught: the token ["invalid"] ends in
    [d], [parseInt("invali")] is [NaN], and the start of the window is an
    invalid date instead of one hour before [now]. *)
Theorem getTimeRangeFromValue_malformed_token_not_defaulted :
  (forall now, getTimeRangeFromValue LocalTZA now "invalid" = (InvalidDate, DateMs now)) /\
  getTimeRangeFromValue LocalTZA 1700000000000 "invalid" <> defaultWindow 1700000000000 /\
  defaultWindow 1700000000000 = (DateMs 1699996400000, DateMs 1700000000000).
Proof.
  split; [ | split].
  - intros now. apply resolve_days_NaN; reflexivity.
  - rewrite resolve_days_NaN by reflexivity. vm_compute. discriminate.
  - reflexivity.
Qed.

End TimeRangeResolver.

(** ** Series store *)

Section SeriesStore.

Context {D : Type}.

Lemma handleToggleSeries_length sid (prev : list (TimeSeriesData D)) :
  length (handleToggleSeries sid prev) = length prev.
Proof. unfold handleToggleSeries. apply length_map. Qed.

Lemma handleToggleSeries_lookup sid (prev : list (TimeSeriesData D)) i s :
  prev !! i = Some s ->
  handleToggleSeries sid prev !! i = Some (hd s (handleToggleSeries sid [s])).
Proof.
  revert i. induction prev as [|x prev IH]; intros [|i] H; try discriminate.
  - injection H as ->. reflexivity.
  - cbn in H. apply (IH i H).
Qed.

(** C9.  Toggling the series with id [sid] keeps the length and order of
    the store; a series with another id is left as it is; a series with
    that id has its visibility flipped and every other field, the points
    among them, carried over unchanged, whatever the points field holds. *)
Theorem toggle_flips_only_that_series sid (prev : list (TimeSeriesData D)) i s :
  prev !! i = Some s ->
  length (handleToggleSeries sid prev) = length prev /\
  exists s', handleToggleSeries sid prev !! i = Some s' /\
    (id s <> sid -> s' = s) /\
    (id s = sid ->
       isVisible s' = negb (isVisible s) /\ data s' = data s /\
       id s' = id s /\ name s' = name s /\ color s' = color s /\
       query s' = query s /\ unit s' = unit s /\ aggregation s' = aggregation s).
Proof.
  intros H. split; [apply handleToggleSeries_length | ].
  rewrite (handleToggleSeries_lookup sid prev i s H). cbn.
  eexists; split; [reflexivity | ].
  destruct (String.eqb_spec (id s) sid) as [E | E]; split; intros E'; try congruence.
  cbn. unfold isVisible. cbn. destruct (visible s) as [[|]|]; repeat split.
Qed.

End SeriesStore.

Lemma toggle_flips_only_that_series_witness :
  let a := {| id := "series-0"; name := "A"; color := "#3584e4"; data := 1%positive;
              visible := None; query := None; unit := None; aggregation := None |} in
  let b := {| id := "series-1"; name := "B"; color := "#f8e45c"; data := 2%positive;
              visible := Some true; query := None; unit := None;
              aggregation := None |} in
  length (handleToggleSeries "series-0" [a; b]) = length [a; b] /\
  exists s', handleToggleSeries "series-0" [a; b] !! 0%nat = Some s' /\
    (id a <> "series-0" -> s' = a) /\
    (id a = "series-0" ->
       isVisible s' = negb (isVisible a) /\ data s' = data a /\
       id s' = id a /\ name s' = name a /\ color s' = color a /\
       query s' = query a /\ unit s' = unit a /\ aggregation s' = aggregation a).
Proof.
  intros a b.
  apply (toggle_flips_only_that_series "series-0" [a; b] 0%nat a).
  reflexivity.
Defined.

(** ** Selection and brush engine *)

Section Brush.

Variable props : Props.

Lemma handleBrushChange_no_effects brushData st :
  exists st', handleBrushChange brushData st = Returned st' [].
Proof.
  unfold handleBrushChange. destruct brushData as [bd|]; [ | eauto].
  destruct (negb _ || negb _); [eauto | ].
  destruct (bool_decide _); eauto.
Qed.

Lemma handleBrushApply_zero_width st :
  start (selectedArea st) = end_ (selectedArea st) ->
  handleBrushApply props st = Returned st [].
Proof.
  intros E. unfold handleBrushApply.
  rewrite (bool_decide_eq_true_2 _ E), !orb_true_r. reflexivity.
Qed.

Lemma handleBrushApply_no_selection st :
  selectedArea st = noSelection ->
  handleBrushApply props st = Returned st [].
Proof. intros E. apply handleBrushApply_zero_width. rewrite E. reflexivity. Qed.

Lemma selectedArea_set_selectedArea a st : selectedArea (set_selectedArea a st) = a.
Proof. destruct st. reflexivity. Qed.

(** C5.  A zero-width selection never reaches the host's
    [onTimeRangeChange]: the brush-change handler returns without any
    effect, and where both indices are truthy it clears the stored
    selection, so that applying afterwards has no effect either; the apply
    handler returns without any effect when the stored selection has equal
    ends; and the brush-end handler of the simpler chart variant returns
    without any effect on equal indices. *)
Theorem zero_width_selection_never_emits :
  (forall bd st, startIndex bd = endIndex bd ->
     exists st', handleBrushChange (Some bd) st = Returned st' [] /\
       (truthy (startIndex bd) = true ->
        selectedArea st' = noSelection /\
        handleBrushApply props st' = Returned st' [])) /\
  (forall st, start (selectedArea st) = end_ (selectedArea st) ->
     handleBrushApply props st = Returned st []) /\
  (forall i st, ChartBasic.handleBrushEnd props i i st = Returned st []).
Proof.
  split; [ | split].
  - intros bd st E. unfold handleBrushChange. rewrite <- E.
    destruct (truthy (startIndex bd)) eqn:T; cbn.
    + rewrite bool_decide_eq_true_2 by reflexivity.
      eexists; split; [reflexivity | ]. intros _.
      split; [apply selectedArea_set_selectedArea | ].
      apply handleBrushApply_no_selection, selectedArea_set_selectedArea.
    + eexists; split; [reflexivity | ]. discriminate.
  - apply handleBrushApply_zero_width.
  - intros i st. unfold ChartBasic.handleBrushEnd. rewrite Z.eqb_refl. reflexivity.
Qed.

Lemma handleBrushChange_first_row bd st :
  startIndex bd = Some 0 \/ endIndex bd = Some 0 ->
  handleBrushChange (Some bd) st = Returned st [].
Proof.
  intros [E | E]; unfold handleBrushChange; rewrite E; cbn;
    rewrite ?orb_true_r; reflexivity.
Qed.

Lemma handleBrushApply_first_row st :
  start (selectedArea st) = Some 0 ->
  handleBrushApply props st = Returned st [].
Proof. intros E. unfold handleBrushApply. rewrite E. reflexivity. Qed.

(** C10.  A brush event whose start or end index is 0 is discarded: the
    handler returns the state it was given, with no effect.  The apply
    handler returns without any effect when the stored start index is 0.
    Hence an event that begins at the first row changes nothing: applying
    after it does what applying before it would have done, and on a chart
    with no stored selection that is nothing, whatever the width. *)
Theorem first_row_selection_is_discarded :
  (forall bd st, startIndex bd = Some 0 \/ endIndex bd = Some 0 ->
     handleBrushChange (Some bd) st = Returned st []) /\
  (forall st, start (selectedArea st) = Some 0 ->
     handleBrushApply props st = Returned st []) /\
  (forall bd st, startIndex bd = Some 0 ->
     exists st', handleBrushChange (Some bd) st = Returned st' [] /\
       handleBrushApply props st' = handleBrushApply props st /\
       (selectedArea st = noSelection ->
        handleBrushApply props st' = Returned st [])).
Proof.
  split; [ | split].
  - apply handleBrushChange_first_row.
  - apply handleBrushApply_first_row.
  - intros bd st E. exists st.
    split; [apply handleBrushChange_first_row; auto | ].
    split; [reflexivity | ]. apply handleBrushApply_no_selection.
Qed.

End Brush.

Lemma zero_width_selection_never_emits_witness :
  (exists st', handleBrushChange (Some {| startIndex := Some 3; endIndex := Some 3 |})
                 sampleState = Returned st' [] /\
     (truthy (Some 3) = true ->
      selectedArea st' = noSelection /\
      handleBrushApply sampleProps st' = Returned st' [])) /\
  handleBrushApply sampleProps
    (set_selectedArea {| start := Some 2; end_ := Some 2 |} sampleState)
  = Returned (set_selectedArea {| start := Some 2; end_ := Some 2 |} sampleState) [].
Proof.
  destruct (zero_width_selection_never_emits sampleProps) as (H1 & H2 & _).
  split.
  - apply (H1 {| startIndex := Some 3; endIndex := Some 3 |} sampleState). reflexivity.
  - apply H2. reflexivity.
Defined.

Lemma first_row_selection_is_discarded_witness :
  handleBrushChange (Some {| startIndex := Some 0; endIndex := Some 5 |}) sampleState
  = Returned sampleState [] /\
  handleBrushApply sampleProps
    (set_selectedArea {| start := Some 0; end_ := Some 5 |} sampleState)
  = Returned (set_selectedArea {| start := Some 0; end_ := Some 5 |} sampleState) [] /\
  exists st',
    handleBrushChange (Some {| startIndex := Some 0; endIndex := Some 5 |}) sampleState
    = Returned st' [] /\
    handleBrushApply sampleProps st' = handleBrushApply sampleProps sampleState /\
    (selectedArea sampleState = noSelection ->
     handleBrushApply sampleProps st' = Returned sampleState []).
Proof.
  destruct (first_row_selection_is_discarded sampleProps) as (H1 & H2 & H3).
  split; [ | split].
  - apply (H1 {| startIndex := Some 0; endIndex := Some 5 |} sampleState).
    left. reflexivity.
  - apply H2. reflexivity.
  - apply (H3 {| startIndex := Some 0; endIndex := Some 5 |} sampleState). reflexivity.
Defined.

(** ** Interaction mode controller *)

Lemma interactionModeEffect_idempotent st :
  interactionModeEffect (interactionModeEffect st) = interactionModeEffect st.
Proof.
  destruct st as [a b c d e f z p br cr sel yd ys tr ir].
  destruct z, p, br; reflexivity.
Qed.

(** Once the mode effect has run, at most one of the three modes is active,
    and the ref names it. *)
Lemma interactionModeEffect_exclusive st :
  (activeModes (interactionModeEffect st) <= 1)%nat /\
  interactionModeRef (interactionModeEffect st)
  = (if zoomMode st then Some zoom
     else if panMode st then Some pan
     else if brushMode st then Some brush else None).
Proof.
  destruct st as [a b c d e f z p br cr sel yd ys tr ir].
  destruct z, p, br; cbn; split; (lia || reflexivity).
Qed.

(** Enabling a mode while no mode is active activates that mode alone. *)
Lemma enable_from_none st :
  activeModes st = 0%nat ->
  (zoomMode (settled clickZoom st) = true /\ activeModes (settled clickZoom st) = 1%nat) /\
  (panMode (settled clickPan st) = true /\ activeModes (settled clickPan st) = 1%nat) /\
  (brushMode (settled clickBrush st) = true /\ activeModes (settled clickBrush st) = 1%nat).
Proof.
  destruct st as [a b c d e f z p br cr sel yd ys tr ir].
  destruct z, p, br; cbn; try discriminate. intros _. repeat split.
Qed.

(** Reset view: no mode active, no selection, no domain override. *)
Lemma handleResetView_clears st :
  activeModes (handleResetView st) = 0%nat /\
  selectedArea (handleResetView st) = noSelection /\
  yAxisDomain (handleResetView st) = None /\
  yAxisScale (handleResetView st) = Qc_of_Z 100.
Proof. destruct st. repeat split. Qed.

(** C2.  With Zoom active, a click on the Pan button is rendered with Zoom
    and Pan both active; the mode effect then looks at Zoom first and
    switches Pan off again, so the chart ends where it was, in Zoom, and Pan
    was never enabled.  (Reset view does clear the modes and the selection,
    see [handleResetView_clears].) *)
Theorem pan_click_while_zoom_active_is_undone :
  forall props now,
    let st0 := initialState props now in
    let st1 := settled clickZoom st0 in
    (zoomMode st1 = true /\ panMode st1 = false /\ brushMode st1 = false) /\
    (zoomMode (rendered clickPan st1) = true /\ panMode (rendered clickPan st1) = true) /\
    activeModes (rendered clickPan st1) = 2%nat /\
    settled clickPan st1 = st1 /\
    panMode (settled clickPan st1) = false.
Proof. intros props now. repeat split. Qed.

(** ** Refresh scheduler *)

Lemma clearInterval_own handle delay next :
  clearInterval handle {| intervals := [(handle, delay)]; nextHandle := next |}
  = {| intervals := []; nextHandle := next |}.
Proof. unfold clearInterval. cbn. rewrite Pos.eqb_refl. reflexivity. Qed.

Lemma refreshTimerRef_set_refreshInterval v st :
  refreshTimerRef (set_refreshInterval v st) = refreshTimerRef st.
Proof. destruct st. reflexivity. Qed.

Lemma handleRefreshIntervalChange_owned interval st w :
  timerOwned (st, w) ->
  let r := handleRefreshIntervalChange interval (st, w) in
  timerOwned r /\
  refreshInterval (fst r) = interval /\
  (interval <= 0 -> intervals (snd r) = [] /\ refreshTimerRef (fst r) = None) /\
  (0 < interval ->
     intervals (snd r) = [(nextHandle w, interval * 1000)] /\
     refreshTimerRef (fst r) = Some (nextHandle w)).
Proof.
  unfold timerOwned. cbn [fst snd]. intros Hown.
  destruct st as [a b c d e f z p br cr sel yd ys tr ir].
  destruct w as [ivs next]. cbn in Hown.
  unfold handleRefreshIntervalChange. cbn.
  destruct tr as [handle | ].
  - destruct Hown as [delay ->]. rewrite clearInterval_own. cbn.
    destruct (Z.ltb_spec 0 interval); cbn; repeat split; eauto; intros; lia.
  - rewrite Hown. destruct (Z.ltb_spec 0 interval); cbn; repeat split; eauto; intros; lia.
Qed.

(** The cadences that the selector passes to the handler: the values of
    its table, none of them negative. *)
Lemma REFRESH_INTERVALS_nonneg :
  Forall (fun item => 0 <= snd item) TimeUtils.REFRESH_INTERVALS.
Proof. repeat constructor; cbn; lia. Qed.

(** C6.  On a chart that owns the timers of its window, and for the
    cadences that the selector offers, all of which are zero or more: a
    cadence of 0 cancels the timer and leaves none; a nonzero cadence
    cancels the timer and installs one new timer with a fresh handle and a
    delay of that many seconds; so after two changes to nonzero cadences
    exactly one timer is active, the one of the second cadence, and the
    reloads it triggers in any duration are those of that single timer. *)
Theorem cadence_change_leaves_one_timer :
  Forall (fun item => 0 <= snd item) TimeUtils.REFRESH_INTERVALS /\
  forall interval st w,
    timerOwned (st, w) ->
    0 <= interval ->
    let r := handleRefreshIntervalChange interval (st, w) in
    timerOwned r /\
    refreshInterval (fst r) = interval /\
    (interval = 0 -> intervals (snd r) = [] /\ refreshTimerRef (fst r) = None) /\
    (interval <> 0 ->
       intervals (snd r) = [(nextHandle w, interval * 1000)] /\
       refreshTimerRef (fst r) = Some (nextHandle w)) /\
    (forall interval', 0 <= interval' -> interval <> 0 -> interval' <> 0 ->
       let r' := handleRefreshIntervalChange interval' r in
       intervals (snd r') = [(Pos.succ (nextHandle w), interval' * 1000)] /\
       refreshTimerRef (fst r') = Some (Pos.succ (nextHandle w)) /\
       forall d, ticksWithin d (snd r') = d / (interval' * 1000)).
Proof.
  split; [exact REFRESH_INTERVALS_nonneg | ].
  intros interval st w Hown Hnonneg r.
  destruct (handleRefreshIntervalChange_owned interval st w Hown)
    as (Ho & Hint & H0 & Hpos).
  fold r in Ho, Hint, H0, Hpos.
  split; [exact Ho | ]. split; [exact Hint | ].
  split; [intros E; apply H0; lia | ]. split; [intros E; apply Hpos; lia | ].
  intros interval' Hnonneg' Hi Hi' r'.
  destruct r as [st1 w1] eqn:Er.
  destruct (handleRefreshIntervalChange_owned interval' st1 w1 Ho) as (_ & _ & _ & Hpos').
  fold r' in Hpos'. destruct (Hpos' ltac:(lia)) as [Hiv Href].
  assert (Hn : nextHandle w1 = Pos.succ (nextHandle w)).
  { clear - Er Hi Hnonneg. subst r.
    destruct st as [a b c d e f z p br cr sel yd ys tr ir]. destruct w as [ivs next].
    unfold handleRefreshIntervalChange in Er. cbn in Er.
    destruct (Z.ltb_spec 0 interval); [ | lia].
    destruct tr; cbn in Er; injection Er as _ <-; reflexivity. }
  rewrite Hn in Hiv, Href. split; [exact Hiv | ]. split; [exact Href | ].
  intros d. unfold ticksWithin. rewrite Hiv. cbn. lia.
Qed.

Lemma cadence_change_leaves_one_timer_witness :
  let r := handleRefreshIntervalChange 5 (sampleState, emptyWindow) in
  intervals (snd r) = [(1%positive, 5000)] /\
  refreshTimerRef (fst r) = Some 1%positive /\
  intervals (snd (handleRefreshIntervalChange 30 r)) = [(2%positive, 30000)] /\
  intervals (snd (handleRefreshIntervalChange 0 r)) = [].
Proof.
  assert (Hown : timerOwned (sampleState, emptyWindow)) by reflexivity.
  pose proof (proj2 cadence_change_leaves_one_timer 5 sampleState emptyWindow Hown
                ltac:(lia))
    as (Hown' & _ & _ & Hpos & Hnext).
  intros r. split; [apply Hpos; lia | ]. split; [apply Hpos; lia | ].
  split; [apply (Hnext 30); lia | ].
  fold r in Hown'. destruct r as [st1 w1].
  apply (proj2 cadence_change_leaves_one_timer 0 st1 w1 Hown' ltac:(lia)).
  reflexivity.
Defined.

(** The guard of the handler is [interval > 0]: a cadence below zero, which
    the selector does not offer, installs no timer either. *)
Example cadence_below_zero_installs_no_timer :
  Forall (fun item => snd item <> -1) TimeUtils.REFRESH_INTERVALS /\
  intervals (snd (handleRefreshIntervalChange (-1) (sampleState, emptyWindow))) = [].
Proof. split; [repeat constructor; cbn; lia | reflexivity]. Qed.

(** ** Alignment engine *)

Section TimestampMap.

Implicit Types (m : list (Z * gmap string jsval)) (k t : Z).

Lemma mapHas_mapGet k m :
  mapHas k m = match mapGet k m with Some _ => true | None => false end.
Proof.
  induction m as [|[k' v'] m IH]; cbn; [reflexivity | ].
  destruct (k' =? k); [reflexivity | exact IH].
Qed.

Lemma mapGet_mapSet_eq k v m : mapGet k (mapSet k v m) = Some v.
Proof.
  induction m as [|[k' v'] m IH]; cbn.
  - rewrite Z.eqb_refl. reflexivity.
  - destruct (Z.eqb_spec k' k); cbn.
    + rewrite Z.eqb_refl. reflexivity.
    + destruct (Z.eqb_spec k' k); [contradiction | exact IH].
Qed.

Lemma mapGet_mapSet_ne k k' v m : k <> k' -> mapGet k' (mapSet k v m) = mapGet k' m.
Proof.
  intros Hne. induction m as [|[k0 v0] m IH]; cbn.
  - destruct (Z.eqb_spec k k'); [contradiction | reflexivity].
  - destruct (Z.eqb_spec k0 k); cbn.
    + subst k0. destruct (Z.eqb_spec k k'); [contradiction | reflexivity].
    + destruct (Z.eqb_spec k0 k'); [reflexivity | exact IH].
Qed.

Lemma mapSet_keys k v m :
  map fst (mapSet k v m) = if mapHas k m then map fst m else map fst m ++ [k].
Proof.
  induction m as [|[k0 v0] m IH]; cbn; [reflexivity | ].
  destruct (Z.eqb_spec k0 k); cbn.
  - subst. reflexivity.
  - rewrite IH. destruct (mapHas k m); reflexivity.
Qed.

Lemma mapGet_None_keys k m : mapGet k m = None <-> ~ In k (map fst m).
Proof.
  induction m as [|[k0 v0] m IH]; cbn; [tauto | ].
  destruct (Z.eqb_spec k0 k); [ | tauto].
  split; [discriminate | ]. intros H. exfalso. apply H. left. exact e.
Qed.

Lemma mapGet_In k v m : mapGet k m = Some v -> In (k, v) m.
Proof.
  induction m as [|[k0 v0] m IH]; cbn; [discriminate | ].
  destruct (Z.eqb_spec k0 k).
  - intros [= ->]. left. congruence.
  - intros H. right. apply IH, H.
Qed.

Lemma In_mapGet k v m : List.NoDup (map fst m) -> In (k, v) m -> mapGet k m = Some v.
Proof.
  induction m as [|[k0 v0] m IH]; cbn; [tauto | ].
  intros Hnd [E | Hin].
  - injection E as -> ->. rewrite Z.eqb_refl. reflexivity.
  - inversion Hnd as [ | ? ? Hnotin Hnd']; subst.
    destruct (Z.eqb_spec k0 k).
    + subst k0. exfalso. apply Hnotin.
      apply (in_map fst) in Hin. exact Hin.
    + apply IH; assumption.
Qed.

Lemma addPoint_get sid m (p : DataPoint) t :
  mapGet t (addPoint sid m p) =
  if timestamp p =? t
  then Some (setProp (default {[ "timestamp" := VDate (timestamp p) ]}
                              (mapGet (timestamp p) m))
                     sid (value p))
  else mapGet t m.
Proof.
  unfold addPoint. rewrite mapHas_mapGet.
  destruct (mapGet (timestamp p) m) as [row | ] eqn:G.
  - rewrite G. cbn [default].
    destruct (Z.eqb_spec (timestamp p) t) as [<- | Hne].
    + apply mapGet_mapSet_eq.
    + apply mapGet_mapSet_ne, Hne.
  - rewrite mapGet_mapSet_eq. cbn [default].
    destruct (Z.eqb_spec (timestamp p) t) as [<- | Hne].
    + apply mapGet_mapSet_eq.
    + rewrite !mapGet_mapSet_ne by exact Hne. reflexivity.
Qed.

Lemma addPoint_keys sid m (p : DataPoint) :
  map fst (addPoint sid m p) =
  if mapHas (timestamp p) m then map fst m else map fst m ++ [timestamp p].
Proof.
  unfold addPoint.
  destruct (mapHas (timestamp p) m) eqn:H.
  - rewrite mapHas_mapGet in H.
    destruct (mapGet (timestamp p) m) eqn:G; [ | discriminate].
    rewrite mapSet_keys, mapHas_mapGet, G. reflexivity.
  - rewrite mapGet_mapSet_eq, mapSet_keys, mapHas_mapGet, mapGet_mapSet_eq.
    rewrite mapSet_keys, H. reflexivity.
Qed.

Lemma addSeries_foldWrites (s : Series) m :
  addSeries m s = foldWrites (map (fun p => (id s, p)) (data s)) m.
Proof.
  unfold addSeries, foldWrites. revert m.
  induction (data s) as [|p l IH]; intros m; cbn; [reflexivity | apply IH].
Qed.

Lemma fold_addSeries_writes (vis : list Series) m :
  fold_left addSeries vis m = foldWrites (writesOf vis) m.
Proof.
  revert m. induction vis as [|s vis IH]; intros m; cbn; [reflexivity | ].
  unfold foldWrites. rewrite fold_left_app. fold (foldWrites (writesOf vis)).
  rewrite IH, addSeries_foldWrites. reflexivity.
Qed.

Lemma foldWrites_snoc ws w m :
  foldWrites (ws ++ [w]) m = addPoint (fst w) (foldWrites ws m) (snd w).
Proof. unfold foldWrites. rewrite fold_left_app. reflexivity. Qed.

Lemma lastWrite_snoc ws w key t :
  lastWrite (ws ++ [w]) key t =
  if String.eqb (fst w) key && (timestamp (snd w) =? t)
  then Some (value (snd w)) else lastWrite ws key t.
Proof. unfold lastWrite. rewrite fold_left_app. reflexivity. Qed.

Lemma lastWrite_no_time ws key t :
  ~ In t (map writeTime ws) -> lastWrite ws key t = None.
Proof.
  induction ws as [|w ws IH] using rev_ind; [reflexivity | ].
  rewrite map_app, in_app_iff. cbn. intros H.
  rewrite lastWrite_snoc.
  destruct (Z.eqb_spec (timestamp (snd w)) t) as [E | _].
  - exfalso. apply H. right. left. exact E.
  - rewrite andb_false_r. apply IH. tauto.
Qed.

Lemma setProp_lookup (row : gmap string jsval) (sid key : string) (v : Qc) :
  setProp row sid v !! key
  = if String.eqb sid key && negb (String.eqb key "__proto__")
    then Some (VNum v) else row !! key.
Proof.
  unfold setProp.
  destruct (String.eqb_spec sid key) as [<- | Hne]; cbn [andb].
  - destruct (String.eqb sid "__proto__"); cbn [negb]; [reflexivity | ].
    apply lookup_insert_eq.
  - destruct (String.eqb sid "__proto__"); [reflexivity | ].
    apply lookup_insert_ne, Hne.
Qed.

(** What the map holds after the writes [ws]: one key per time written, in
    the order of first writing; under each key a row with the time and,
    for every key other than ["timestamp"], the value last written, but
    nothing under ["__proto__"]. *)
Lemma foldWrites_inv ws :
  List.NoDup (map fst (foldWrites ws [])) /\
  (forall t, In t (map fst (foldWrites ws [])) <-> In t (map writeTime ws)) /\
  (forall t row, mapGet t (foldWrites ws []) = Some row ->
     (Forall (fun w => fst w <> "timestamp") ws ->
      row !! "timestamp" = Some (VDate t)) /\
     (forall key, key <> "timestamp" ->
        row !! key = VNum <$> (if String.eqb key "__proto__" then None
                               else lastWrite ws key t))).
Proof.
  induction ws as [|w ws (IHnd & IHkeys & IHrows)] using rev_ind.
  - cbn. split; [constructor | ]. split; [tauto | discriminate].
  - rewrite foldWrites_snoc. set (m := foldWrites ws []) in *.
    assert (Hhas : mapHas (timestamp (snd w)) m = true <-> In (timestamp (snd w)) (map fst m)).
    { rewrite mapHas_mapGet. pose proof (mapGet_None_keys (timestamp (snd w)) m) as HN.
      destruct (mapGet (timestamp (snd w)) m).
      - split; [intros _ | reflexivity].
        destruct (in_dec Z.eq_dec (timestamp (snd w)) (map fst m)) as [Hi | Hn]; [exact Hi | ].
        apply HN in Hn. discriminate.
      - split; [discriminate | ]. intros Hi. exfalso. apply (proj1 HN); auto. }
    split; [ | split].
    + rewrite addPoint_keys. destruct (mapHas (timestamp (snd w)) m) eqn:H; [exact IHnd | ].
      apply List.NoDup_app; [exact IHnd | | ].
      * constructor; [ | constructor]. intros [].
      * intros x Hx [<- | []]. apply Hhas in Hx. discriminate.
    + intros t. rewrite addPoint_keys, map_app. cbn [map]. rewrite in_app_iff. cbn [In].
      unfold writeTime at 2.
      destruct (mapHas (timestamp (snd w)) m) eqn:H.
      * rewrite IHkeys. split; [tauto | ]. intros [Hi | [<- | []]]; [exact Hi | ].
        apply IHkeys, Hhas. reflexivity.
      * rewrite in_app_iff, IHkeys. cbn [In]. tauto.
    + intros t row. rewrite addPoint_get.
      destruct (Z.eqb_spec (timestamp (snd w)) t) as [E | Hne].
      * intros [= <-]. subst t.
        assert (Hold : forall key, key <> "timestamp" ->
                  default {[ "timestamp" := VDate (timestamp (snd w)) ]}
                          (mapGet (timestamp (snd w)) m) !! key
                  = VNum <$> (if String.eqb key "__proto__" then None
                              else lastWrite ws key (timestamp (snd w)))).
        { intros key Hkey.
          destruct (mapGet (timestamp (snd w)) m) as [row0 | ] eqn:G; cbn [default].
          - apply (IHrows _ _ G), Hkey.
          - rewrite lookup_singleton_ne by congruence.
            rewrite lastWrite_no_time.
            + destruct (String.eqb key "__proto__"); reflexivity.
            + rewrite <- IHkeys. apply mapGet_None_keys, G. }
        split.
        -- rewrite Forall_app. intros [Hws Hw].
           apply Forall_inv in Hw. cbn in Hw. rewrite setProp_lookup.
           apply String.eqb_neq in Hw. rewrite Hw. cbn [andb].
           destruct (mapGet (timestamp (snd w)) m) as [row0 | ] eqn:G; cbn [default].
           ++ apply (IHrows _ _ G), Hws.
           ++ apply lookup_singleton_eq.
        -- intros key Hkey. rewrite setProp_lookup, lastWrite_snoc, Z.eqb_refl, andb_true_r.
           rewrite (Hold key Hkey).
           destruct (String.eqb (fst w) key), (String.eqb key "__proto__"); reflexivity.
      * intros G. destruct (IHrows _ _ G) as [Hts Hval]. split.
        -- rewrite Forall_app. intros [Hws _]. apply Hts, Hws.
        -- intros key Hkey. rewrite lastWrite_snoc.
           destruct (Z.eqb_spec (timestamp (snd w)) t); [contradiction | ].
           rewrite andb_false_r. apply Hval, Hkey.
Qed.

End TimestampMap.

Section Sorting.

Lemma rowLe_trans a b c : rowLe a b -> rowLe b c -> rowLe a c.
Proof.
  intros (ta & tb & Ha & Hb & Hab) (tb' & tc & Hb' & Hc & Hbc).
  exists ta, tc. repeat split; try assumption.
  rewrite Hb in Hb'. injection Hb' as <-. lia.
Qed.

Lemma insertRow_spec x l :
  hasTime x -> Forall hasTime l -> StronglySorted rowLe l ->
  exists l', insertRow x l = Some l' /\ Permutation (x :: l) l' /\ StronglySorted rowLe l'.
Proof.
  intros [tx Hx]. induction l as [|y l IH]; intros Hl Hs.
  - exists [x]. repeat split; [reflexivity | repeat constructor].
  - inversion Hl as [ | ? ? [ty Hy] Hl']; subst.
    inversion Hs as [ | ? ? Hs' Hy_le]; subst.
    cbn [insertRow]. unfold compareRows. rewrite Hx, Hy.
    destruct (Z.leb_spec (tx - ty) 0) as [Hle | Hgt].
    + exists (x :: y :: l). split; [reflexivity | ]. split; [reflexivity | ].
      assert (Hxy : rowLe x y) by (exists tx, ty; repeat split; [assumption .. | lia]).
      constructor; [exact Hs | ]. constructor; [exact Hxy | ].
      eapply List.Forall_impl; [ | exact Hy_le]. intros z Hz. eapply rowLe_trans; eassumption.
    + destruct (IH Hl' Hs') as (r & -> & Hperm & Hsr).
      exists (y :: r). split; [reflexivity | ]. split.
      * rewrite perm_swap. constructor. exact Hperm.
      * constructor; [exact Hsr | ].
        eapply Permutation_Forall; [exact Hperm | ].
        constructor; [ | exact Hy_le].
        exists ty, tx. repeat split; [assumption .. | lia].
Qed.

Lemma sortRows_spec l :
  Forall hasTime l ->
  exists l', sortRows l = Some l' /\ Permutation l l' /\ StronglySorted rowLe l'.
Proof.
  induction l as [|x l IH]; intros Hl.
  - exists []. repeat split; constructor.
  - inversion Hl as [ | ? ? Hx Hl']; subst.
    destruct (IH Hl') as (r & Hr & Hperm & Hsr). cbn [sortRows]. rewrite Hr.
    destruct (insertRow_spec x r Hx) as (l' & Hl'' & Hperm' & Hsl'); [ | exact Hsr | ].
    + eapply Permutation_Forall; eassumption.
    + exists l'. split; [exact Hl'' | ]. split; [ | exact Hsl'].
      rewrite <- Hperm'. constructor. exact Hperm.
Qed.

Lemma rowLe_times rows times :
  map getTime rows = map Some times ->
  StronglySorted rowLe rows -> StronglySorted Z.le times.
Proof.
  revert times. induction rows as [|r rows IH]; intros [|t times] E Hs;
    try discriminate; [constructor | ].
  cbn in E. injection E as Er E. inversion Hs as [ | ? ? Hs' Hr]; subst.
  constructor; [apply IH; assumption | ].
  clear IH Hs Hs'. revert times E.
  induction Hr as [ | r' rows' (ta & tb & Ha & Hb & Hab) Hr IHr]; intros [|t' times] E;
    try discriminate; constructor.
  - cbn in E. injection E as Er' E. rewrite Er in Ha. rewrite Er' in Hb.
    injection Ha as <-. injection Hb as <-. exact Hab.
  - cbn in E. injection E as _ E. apply IHr, E.
Qed.

Lemma StronglySorted_le_lt l :
  StronglySorted Z.le l -> List.NoDup l -> StronglySorted Z.lt l.
Proof.
  induction 1 as [ | x l Hs IH Hx]; intros Hnd; [constructor | ].
  inversion Hnd as [ | ? ? Hnotin Hnd']; subst.
  constructor; [apply IH, Hnd' | ].
  rewrite List.Forall_forall in *. intros y Hy.
  specialize (Hx y Hy). assert (x <> y) by (intros ->; contradiction). lia.
Qed.

End Sorting.

Section Contributions.

Variables (key : string) (t : Z).

Lemma valueAt_acc (l : list DataPoint) acc :
  fold_left (fun acc p => if timestamp p =? t then Some (value p) else acc) l acc
  = match fold_left (fun acc p => if timestamp p =? t then Some (value p) else acc) l None with
    | Some v => Some v
    | None => acc
    end.
Proof.
  revert acc. induction l as [|p l IH]; intros acc; cbn; [reflexivity | ].
  destruct (timestamp p =? t).
  - rewrite (IH (Some (value p))).
    destruct (fold_left _ l None); reflexivity.
  - apply IH.
Qed.

Lemma valueAt_Some_iff (s : Series) :
  is_Some (valueAt s t) <-> In t (map timestamp (data s)).
Proof.
  unfold valueAt. induction (data s) as [|p l IH]; cbn.
  - split; [intros [? [=]] | tauto].
  - rewrite valueAt_acc. destruct (Z.eqb_spec (timestamp p) t) as [E | Hne].
    + split; [auto | intros _]. destruct (fold_left _ l None); eauto.
    + destruct (fold_left _ l None) eqn:F.
      * split; [intros _; right; apply IH; eauto | eauto].
      * split; [intros [? [=]] | ]. intros [E | Hin]; [contradiction | ].
        apply IH in Hin. exact Hin.
Qed.

Lemma lastWrite_series (s : Series) acc :
  fold_left
    (fun acc w =>
       if String.eqb (fst w) key && (timestamp (snd w) =? t)
       then Some (value (snd w)) else acc)
    (map (fun p => (id s, p)) (data s)) acc
  = if String.eqb (id s) key
    then match valueAt s t with Some v => Some v | None => acc end
    else acc.
Proof.
  unfold valueAt. revert acc. induction (data s) as [|p l IH]; intros acc; cbn.
  - destruct (String.eqb (id s) key); reflexivity.
  - rewrite IH. destruct (String.eqb (id s) key); cbn; [ | reflexivity].
    rewrite (valueAt_acc l (if timestamp p =? t then Some (value p) else None)).
    destruct (fold_left _ l None); [reflexivity | ].
    destruct (timestamp p =? t); reflexivity.
Qed.

Lemma lastWrite_writesOf (vis : list Series) :
  lastWrite (writesOf vis) key t = contributed vis key t.
Proof.
  unfold lastWrite, contributed. generalize (@None Qc) as acc.
  induction vis as [|s vis IH]; intros acc; cbn; [reflexivity | ].
  rewrite fold_left_app, lastWrite_series. apply IH.
Qed.

End Contributions.

Lemma contributed_other (vis : list Series) key t acc :
  ~ In key (map id vis) ->
  fold_left
    (fun acc s =>
       if String.eqb (id s) key
       then match valueAt s t with Some v => Some v | None => acc end
       else acc)
    vis acc = acc.
Proof.
  revert acc. induction vis as [|s vis IH]; intros acc H; cbn; [reflexivity | ].
  cbn in H. destruct (String.eqb_spec (id s) key); [tauto | ].
  apply IH. tauto.
Qed.

Lemma contributed_unique_acc (vis : list Series) s t acc :
  List.NoDup (map id vis) -> In s vis ->
  fold_left
    (fun acc s' =>
       if String.eqb (id s') (id s)
       then match valueAt s' t with Some v => Some v | None => acc end
       else acc)
    vis acc
  = match valueAt s t with Some v => Some v | None => acc end.
Proof.
  revert acc. induction vis as [|s' vis IH]; intros acc Hnd Hin; [destruct Hin | ].
  cbn in Hnd. inversion Hnd as [ | ? ? Hnotin Hnd']; subst. cbn [fold_left].
  destruct Hin as [-> | Hin].
  - rewrite String.eqb_refl. apply contributed_other, Hnotin.
  - destruct (String.eqb_spec (id s') (id s)) as [E | _].
    + exfalso. apply Hnotin. rewrite E. apply in_map, Hin.
    + apply IH; assumption.
Qed.

(** With distinct ids, what is contributed under the id of a series is the
    value of that series. *)
Lemma contributed_unique (vis : list Series) s t :
  List.NoDup (map id vis) -> In s vis -> contributed vis (id s) t = valueAt s t.
Proof.
  intros Hnd Hin. unfold contributed.
  rewrite (contributed_unique_acc vis s t None Hnd Hin).
  destruct (valueAt s t); reflexivity.
Qed.

Lemma writeTime_writesOf (vis : list Series) :
  map writeTime (writesOf vis) = timestampsOf vis.
Proof.
  unfold writesOf, timestampsOf. induction vis as [|s vis IH]; cbn; [reflexivity | ].
  rewrite map_app, IH, map_map. reflexivity.
Qed.

Lemma writesOf_ids (vis : list Series) :
  Forall (fun s => id s <> "timestamp") vis ->
  Forall (fun w => fst w <> "timestamp") (writesOf vis).
Proof.
  unfold writesOf. induction 1 as [ | s vis Hs _ IH]; cbn; [constructor | ].
  apply Forall_app. split; [ | exact IH].
  apply List.Forall_forall. intros w Hw. apply in_map_iff in Hw as (p & <- & _). exact Hs.
Qed.

Lemma getTime_of_timestamp (row : gmap string jsval) t :
  row !! "timestamp" = Some (VDate t) -> getTime row = Some t.
Proof. intros H. unfold getTime, getProp. rewrite H. reflexivity. Qed.

Lemma map_getTime_entries (m : list (Z * gmap string jsval)) :
  (forall t row, In (t, row) m -> getTime row = Some t) ->
  map getTime (map snd m) = map Some (map fst m).
Proof.
  induction m as [|[t row] m IH]; intros H; cbn; [reflexivity | ].
  rewrite (H t row) by (left; reflexivity). f_equal. apply IH.
  intros t' row' Hin. apply H. right. exact Hin.
Qed.

(** The alignment of series none of which has the id ["timestamp"]: it
    returns rows whose times are the times of the points, each once, in
    strictly ascending order; the row of time [t] holds that time, nothing
    under ["__proto__"] and, under every other key, what the series
    with that id contribute at [t]. *)
Lemma align_rows (vis : list Series) :
  Forall (fun s => id s <> "timestamp") vis ->
  exists rows times,
    align vis = Some rows /\
    map getTime rows = map Some times /\
    StronglySorted Z.lt times /\
    (forall t, In t times <-> In t (timestampsOf vis)) /\
    (forall row t, In row rows -> getTime row = Some t ->
       row !! "timestamp" = Some (VDate t) /\
       forall key, key <> "timestamp" ->
         row !! key = VNum <$> (if String.eqb key "__proto__" then None
                                else contributed vis key t)).
Proof.
  intros Hids. apply writesOf_ids in Hids.
  unfold align. rewrite fold_addSeries_writes.
  destruct (foldWrites_inv (writesOf vis)) as (Hnd & Hkeys & Hrows).
  set (m := foldWrites (writesOf vis) []) in *.
  assert (Hentry : forall t row, In (t, row) m ->
            row !! "timestamp" = Some (VDate t) /\
            forall key, key <> "timestamp" ->
              row !! key = VNum <$> (if String.eqb key "__proto__" then None
                                     else contributed vis key t)).
  { intros t row Hin. apply (In_mapGet _ _ _ Hnd) in Hin.
    destruct (Hrows t row Hin) as [Hts Hval]. split; [apply Hts, Hids | ].
    intros key Hkey. rewrite <- lastWrite_writesOf. apply Hval, Hkey. }
  assert (Htimes : map getTime (map snd m) = map Some (map fst m)).
  { apply map_getTime_entries. intros t row Hin.
    apply getTime_of_timestamp, (Hentry t row Hin). }
  destruct (sortRows_spec (map snd m)) as (rows & Hsort & Hperm & Hsorted).
  { apply List.Forall_forall. intros row Hin. apply in_map_iff in Hin as ([t row'] & <- & Hin).
    exists t. apply getTime_of_timestamp, (Hentry t row' Hin). }
  assert (Hp : Permutation (map getTime rows) (map Some (map fst m))).
  { rewrite <- Htimes. apply Permutation_map. symmetry. exact Hperm. }
  apply Permutation_map_inv in Hp as (times & Etimes & Hptimes).
  exists rows, times. split; [exact Hsort | ]. split; [exact Etimes | ].
  split; [ | split].
  - apply StronglySorted_le_lt.
    + eapply rowLe_times; eassumption.
    + eapply Permutation_NoDup; eassumption.
  - intros t. rewrite <- writeTime_writesOf, <- Hkeys.
    split; intros Hin; eapply Permutation_in; try eassumption. symmetry. exact Hptimes.
  - intros row t Hin Ht.
    apply (Permutation_in _ (Permutation_sym Hperm)) in Hin.
    apply in_map_iff in Hin as ([t' row'] & E & Hin). cbn in E. subst row'.
    destruct (Hentry t' row Hin) as [Hts Hval].
    rewrite (getTime_of_timestamp _ _ Hts) in Ht. injection Ht as <-.
    split; assumption.
Qed.

(** The entry of a row of the alignment under the id of a series, for
    distinct ids other than ["timestamp"] and ["__proto__"]: the value of
    the series at the time of the row. *)
Lemma align_entry (vis : list Series) rows row t s :
  Forall (fun s => id s <> "timestamp" /\ id s <> "__proto__") vis ->
  List.NoDup (map id vis) ->
  align vis = Some rows -> In row rows -> getTime row = Some t -> In s vis ->
  row !! id s = VNum <$> valueAt s t.
Proof.
  intros Hids Hnd Ha Hin Htime Hs_in.
  assert (Hts : Forall (fun s => id s <> "timestamp") vis).
  { eapply List.Forall_impl; [ | exact Hids]. intros x [H _]. exact H. }
  destruct (align_rows vis Hts) as (rows' & times & Ha' & _ & _ & _ & Hrows).
  rewrite Ha in Ha'. injection Ha' as <-.
  rewrite List.Forall_forall in Hids. destruct (Hids s Hs_in) as [Hid Hproto].
  destruct (Hrows row t Hin Htime) as [_ Hval].
  rewrite (Hval _ Hid). apply String.eqb_neq in Hproto. rewrite Hproto.
  rewrite (contributed_unique vis s t Hnd Hs_in). reflexivity.
Qed.

(** Reading a row under a key that it does not own and that
    [Object.prototype] does not have gives [undefined]. *)
Lemma getProp_entry (row : gmap string jsval) (key : string) (v : option Qc) :
  inherited key = false -> row !! key = VNum <$> v ->
  getProp row key = match v with Some x => VNum x | None => VUndefined end.
Proof.
  intros Hinh H. unfold getProp. rewrite H, Hinh. destruct v; reflexivity.
Qed.

Lemma alignsAsSpecified_distinct_ids (vis : list Series) :
  Forall (fun s => id s <> "timestamp" /\ id s <> "__proto__") vis ->
  List.NoDup (map id vis) ->
  alignsAsSpecified vis.
Proof.
  intros Hids Hnd.
  assert (Hts : Forall (fun s => id s <> "timestamp") vis).
  { eapply List.Forall_impl; [ | exact Hids]. intros x [H _]. exact H. }
  destruct (align_rows vis Hts) as (rows & times & Ha & Ht & Hs & Hmem & Hrows).
  exists rows, times. repeat (split; [assumption | ]).
  intros row t s Hin Htime Hs_in.
  rewrite (align_entry vis rows row t s Hids Hnd Ha Hin Htime Hs_in).
  split; [reflexivity | ].
  rewrite <- valueAt_Some_iff. destruct (valueAt s t); cbn.
  - split; eauto.
  - split; intros [? [=]].
Qed.

(** C1, as the code has it.  For visible series with distinct ids, none of
    them ["timestamp"] or ["__proto__"], the alignment returns exactly one
    row per distinct time of a point, in strictly ascending order of time,
    and the row of a time has under the id of a series an entry of its own
    with the value of that series' last point at that time, and no entry of
    its own when the series has no point there.  Reading the row under the
    id of a series then gives that value or [undefined], unless the id is a
    key of [Object.prototype], which every row inherits. *)
Theorem align_one_row_per_timestamp (vis : list Series) :
  Forall (fun s => id s <> "timestamp" /\ id s <> "__proto__") vis ->
  List.NoDup (map id vis) ->
  alignsAsSpecified vis /\
  (forall rows row t s,
     align vis = Some rows -> In row rows -> getTime row = Some t -> In s vis ->
     inherited (id s) = false ->
     getProp row (id s)
     = match valueAt s t with Some v => VNum v | None => VUndefined end).
Proof.
  intros Hids Hnd. split.
  - apply alignsAsSpecified_distinct_ids; assumption.
  - intros rows row t s Ha Hin Htime Hs_in Hinh.
    apply getProp_entry; [exact Hinh | ].
    apply (align_entry vis rows row t s Hids Hnd Ha Hin Htime Hs_in).
Qed.

Lemma align_one_row_per_timestamp_witness :
  alignsAsSpecified [seriesA 1699999940000 1700000000000; seriesB 1699999940000] /\
  (forall rows row t s,
     align [seriesA 1699999940000 1700000000000; seriesB 1699999940000] = Some rows ->
     In row rows -> getTime row = Some t ->
     In s [seriesA 1699999940000 1700000000000; seriesB 1699999940000] ->
     inherited (id s) = false ->
     getProp row (id s)
     = match valueAt s t with Some v => VNum v | None => VUndefined end).
Proof.
  apply align_one_row_per_timestamp.
  - repeat constructor; discriminate.
  - cbn. constructor; [ | constructor; [ | constructor]]; cbn; intuition discriminate.
Defined.

(** C1, as the specification words it, fails for a series whose id is
    ["timestamp"]: its value is written over the time of the row, and the
    one row that comes out carries no time. *)
Lemma align_series_named_timestamp :
  ~ alignsAsSpecified [seriesNamedTimestamp].
Proof.
  intros (rows & times & Ha & Ht & _).
  vm_compute in Ha. injection Ha as <-.
  destruct times as [|t times]; discriminate.
Qed.

(** It fails as well for a series whose id is ["__proto__"]: the write of
    a number under that key stores nothing, and the row of the point has
    no entry for the series. *)
Example align_series_named_proto :
  ~ alignsAsSpecified [seriesNamedProto].
Proof.
  intros (rows & times & Ha & Ht & _ & _ & Hrows).
  assert (Ha' : align [seriesNamedProto] = Some [ {[ "timestamp" := VDate 10 ]} ])
    by (vm_compute; reflexivity).
  rewrite Ha' in Ha. injection Ha as <-.
  destruct (Hrows {[ "timestamp" := VDate 10 ]} 10 seriesNamedProto) as [H _].
  - left. reflexivity.
  - reflexivity.
  - left. reflexivity.
  - vm_compute in H. discriminate.
Qed.

(** ** Domain calculator *)

Lemma insertRow_length x l r : insertRow x l = Some r -> length r = S (length l).
Proof.
  revert r. induction l as [|y l IH]; intros r; cbn.
  - intros [= <-]. reflexivity.
  - destruct (compareRows x y) as [c | ]; [ | discriminate].
    destruct (c <=? 0); [intros [= <-]; reflexivity | ].
    destruct (insertRow x l) as [r' | ]; [ | discriminate].
    intros [= <-]. cbn. f_equal. apply IH. reflexivity.
Qed.

Lemma sortRows_length l r : sortRows l = Some r -> length r = length l.
Proof.
  revert r. induction l as [|x l IH]; intros r; cbn.
  - intros [= <-]. reflexivity.
  - destruct (sortRows l) as [r' | ]; [ | discriminate].
    intros H. apply insertRow_length in H. rewrite H. f_equal. apply IH. reflexivity.
Qed.

(** The alignment has as many rows as the points have distinct times; in
    particular none without a point and at least one with a point. *)
Lemma align_no_points (vis : list Series) :
  timestampsOf vis = [] -> align vis = Some [].
Proof.
  intros H. unfold align. rewrite fold_addSeries_writes.
  destruct (foldWrites_inv (writesOf vis)) as (_ & Hkeys & _).
  destruct (foldWrites (writesOf vis) []) as [|[t row] m]; [reflexivity | ].
  exfalso. specialize (Hkeys t). rewrite writeTime_writesOf, H in Hkeys.
  apply Hkeys. left. reflexivity.
Qed.

Lemma align_some_point (vis : list Series) rows :
  timestampsOf vis <> [] -> align vis = Some rows -> rows <> [].
Proof.
  intros H. unfold align. rewrite fold_addSeries_writes. intros Hs.
  apply sortRows_length in Hs. rewrite length_map in Hs.
  destruct (foldWrites_inv (writesOf vis)) as (_ & Hkeys & _).
  destruct (foldWrites (writesOf vis) []) as [|[t row] m].
  - exfalso. destruct (timestampsOf vis) as [|t ts] eqn:E; [congruence | ].
    specialize (Hkeys t). rewrite writeTime_writesOf, E in Hkeys.
    apply Hkeys. left. reflexivity.
  - destruct rows; [discriminate | congruence].
Qed.

Lemma timestampsOf_visible_empty (series : list Series) :
  (forall s, In s series -> isVisible s = true -> data s = []) ->
  timestampsOf (List.filter isVisible series) = [].
Proof.
  unfold timestampsOf. induction series as [|s series IH]; intros H; [reflexivity | ].
  cbn [List.filter]. destruct (isVisible s) eqn:V.
  - cbn. rewrite (H s) by (auto; left; reflexivity). cbn.
    apply IH. intros s' Hin. apply H. right. exact Hin.
  - apply IH. intros s' Hin. apply H. right. exact Hin.
Qed.





Lemma visibleValues_timestamps (series : list Series) :
  visibleValues series = [] <-> timestampsOf (List.filter isVisible series) = [].
Proof.
  unfold visibleValues, timestampsOf.
  induction series as [ | s series IH]; cbn; [tauto | ].
  destruct (isVisible s); cbn; [ | exact IH].
  destruct (data s) as [ | p l]; cbn; [exact IH | ].
  split; discriminate.
Qed.







(** ** CSV export *)

Lemma string_app_assoc (a b c : string) : (a +:+ b) +:+ c = a +:+ (b +:+ c).
Proof.
  induction a as [|x a IH]; [reflexivity | ].
  change (String x ((a +:+ b) +:+ c) = String x (a +:+ (b +:+ c))).
  f_equal. exact IH.
Qed.

Lemma string_app_nil_r (a : string) : a +:+ "" = a.
Proof.
  induction a as [|x a IH]; [reflexivity | ].
  change (String x (a +:+ "") = String x a). f_equal. exact IH.
Qed.

Lemma concat_nil_cons (x : string) (l : list string) :
  String.concat "" (x :: l) = x +:+ String.concat "" l.
Proof. destruct l; cbn; [rewrite string_app_nil_r | ]; reflexivity. Qed.

Lemma fold_left_append {A} (f : A -> string) (l : list A) (init : string) :
  fold_left (fun acc x => acc +:+ f x) l init = init +:+ String.concat "" (map f l).
Proof.
  revert init. induction l as [|x l IH]; intros init.
  - cbn. rewrite string_app_nil_r. reflexivity.
  - cbn [fold_left map]. rewrite IH, concat_nil_cons, string_app_assoc. reflexivity.
Qed.


Section CsvExport.

Variable Number_toString : Qc -> string.
Variable Date_toString : Z -> string.
Variable formatAbsoluteTime : jsval -> option string.
Variable Builtin_toString : string -> string.
Variable formatTime : Z -> string.

Hypothesis formats_dates : forall t, formatAbsoluteTime (VDate t) = Some (formatTime t).









End CsvExport.





(** The same happens for an id that is a key of [Object.prototype]: where
    the series has no point, the cell holds the text of the function that
    the row inherits under that key. *)
Example exportDataCSV_series_named_constructor :
  exists chartData,
    chartDataEffect [seriesA 10 20; mkSeries "constructor" "B" [point 10 5]]
    = Some chartData /\
    exportDataCSV sampleNumberToString sampleDateToString sampleFormatAbsoluteTime
      sampleBuiltinToString chartData
      [seriesA 10 20; mkSeries "constructor" "B" [point 10 5]]
    = Exported ("timestamp,A,B" +:+ LF +:+ "10,1,5" +:+ LF +:+
                "20,2,function constructor() { [native code] }" +:+ LF).
Proof.
  eexists. split; vm_compute; reflexivity.
Qed.

(** ** Formatting layer *)

Section Numerals.

Lemma isDigit_digitChar d : 0 <= d < 10 -> isDigit (digitChar d) = true.
Proof.
  intros H.
  assert (E : d = 0 \/ d = 1 \/ d = 2 \/ d = 3 \/ d = 4 \/ d = 5 \/ d = 6 \/ d = 7
              \/ d = 8 \/ d = 9) by lia.
  decompose [or] E; subst; reflexivity.
Qed.

Lemma isDigit_not_dot c : isDigit c = true -> isDot c = false.
Proof.
  destruct c as [[] [] [] [] [] [] [] []]; cbn; intros H;
    reflexivity || discriminate.
Qed.

Lemma digits_no_dot l : forallb isDigit l = true -> existsb isDot l = false.
Proof.
  induction l as [|c l IH]; cbn; [reflexivity | ].
  intros H. apply andb_true_iff in H as [Hc Hl].
  rewrite (isDigit_not_dot c Hc), (IH Hl). reflexivity.
Qed.

Lemma digitsFuel_digits fuel n acc :
  forallb isDigit acc = true -> forallb isDigit (digitsFuel fuel n acc) = true.
Proof.
  revert n acc. induction fuel as [|fuel IH]; intros n acc Hacc; cbn; [exact Hacc | ].
  assert (Hd : forallb isDigit (digitChar (n mod 10) :: acc) = true).
  { cbn. rewrite isDigit_digitChar by (apply Z.mod_pos_bound; lia). exact Hacc. }
  destruct (n / 10 =? 0); [exact Hd | apply IH, Hd].
Qed.


Lemma decimalDigits_digits n : forallb isDigit (decimalDigits n) = true.
Proof. apply digitsFuel_digits. reflexivity. Qed.


Lemma forallb_repeat_zero n : forallb isDigit (repeat "0"%char n) = true.
Proof. induction n; cbn; [reflexivity | exact IHn]. Qed.

Lemma forallb_take_drop {A} (p : A -> bool) k (l : list A) :
  forallb p l = true -> forallb p (take k l) = true /\ forallb p (drop k l) = true.
Proof.
  intros H. rewrite <- (take_drop k l), forallb_app in H.
  apply andb_true_iff in H. exact H.
Qed.

End Numerals.

Section Stripping.

Lemma dropWhile_app {A} (p : A -> bool) (l1 l2 : list A) :
  dropWhile p (l1 ++ l2)
  = if forallb p l1 then dropWhile p l2 else dropWhile p l1 ++ l2.
Proof.
  induction l1 as [|x l1 IH]; cbn; [reflexivity | ].
  destruct (p x); cbn; [exact IH | reflexivity].
Qed.

Lemma forallb_rev {A} (p : A -> bool) (l : list A) : forallb p (rev l) = forallb p l.
Proof.
  induction l as [|x l IH]; cbn; [reflexivity | ].
  rewrite forallb_app, IH. cbn. rewrite andb_true_r. apply andb_comm.
Qed.

Lemma replaceDotZeros_no_dot s : existsb isDot s = false -> replaceDotZeros s = s.
Proof.
  induction s as [|c s IH]; cbn; [reflexivity | ].
  intros H. apply orb_false_iff in H as [Hc Hs]. rewrite Hc. cbn. f_equal. apply IH, Hs.
Qed.

Lemma replaceTrailingZeros_no_dot s : existsb isDot s = false -> replaceTrailingZeros s = s.
Proof.
  induction s as [|c s IH]; cbn; [reflexivity | ].
  intros H. apply orb_false_iff in H as [Hc Hs]. rewrite Hc. cbn. f_equal. apply IH, Hs.
Qed.

Lemma replaceDotZeros_point pre frac :
  existsb isDot pre = false -> existsb isDot frac = false ->
  replaceDotZeros (pre ++ "."%char :: frac)
  = if nonEmpty frac && forallb isZeroChar frac then pre else pre ++ "."%char :: frac.
Proof.
  intros Hpre Hfrac. induction pre as [|c pre IH]; cbn.
  - destruct (nonEmpty frac && forallb isZeroChar frac); [reflexivity | ].
    rewrite replaceDotZeros_no_dot by exact Hfrac. reflexivity.
  - cbn in Hpre. apply orb_false_iff in Hpre as [Hc Hpre]. rewrite Hc. cbn.
    rewrite (IH Hpre). destruct (nonEmpty frac && forallb isZeroChar frac); reflexivity.
Qed.

Lemma replaceTrailingZeros_point pre frac :
  existsb isDot pre = false -> existsb isDot frac = false ->
  replaceTrailingZeros (pre ++ "."%char :: frac)
  = if forallb isDigit frac && endsWithZero frac
    then pre ++ "."%char :: dropTrailingZeros frac
    else pre ++ "."%char :: frac.
Proof.
  intros Hpre Hfrac. induction pre as [|c pre IH]; cbn.
  - destruct (forallb isDigit frac && endsWithZero frac); [reflexivity | ].
    rewrite replaceTrailingZeros_no_dot by exact Hfrac. reflexivity.
  - cbn in Hpre. apply orb_false_iff in Hpre as [Hc Hpre]. rewrite Hc. cbn.
    rewrite (IH Hpre). destruct (forallb isDigit frac && endsWithZero frac); reflexivity.
Qed.

Lemma dropWhile_head {A} (p : A -> bool) (l : list A) :
  forallb p l = false ->
  exists h r, dropWhile p l = h :: r /\ p h = false /\ In h l.
Proof.
  induction l as [|x l IH]; cbn; [discriminate | ].
  destruct (p x) eqn:E; cbn.
  - intros H. destruct (IH H) as (h & r & Hd & Hh & Hin). exists h, r. auto.
  - intros _. exists x, l. auto.
Qed.

Lemma dropTrailingZeros_keep frac :
  endsWithZero frac = false -> dropTrailingZeros frac = frac.
Proof.
  unfold endsWithZero, dropTrailingZeros. intros H.
  destruct (rev frac) as [|c r] eqn:E.
  - apply (f_equal (@rev ascii)) in E. rewrite rev_involutive in E. subst. reflexivity.
  - cbn. rewrite H. rewrite <- E. apply rev_involutive.
Qed.

(** The two replacements of [formatValue], one after the other, strip the
    trailing zeros of a decimal numeral as the specification says. *)
Lemma strip_refines s :
  numeralShape s -> replaceTrailingZeros (replaceDotZeros s) = stripZerosSpec s.
Proof.
  intros [Hno | (pre & frac & -> & Hpre & Hdig & Hne)].
  - rewrite replaceDotZeros_no_dot, replaceTrailingZeros_no_dot by exact Hno.
    unfold stripZerosSpec. rewrite Hno. reflexivity.
  - pose proof (digits_no_dot frac Hdig) as Hfrac.
    assert (Hdot : existsb isDot (pre ++ "."%char :: frac) = true).
    { rewrite existsb_app. cbn. apply orb_true_r. }
    assert (Hrev : rev (pre ++ "."%char :: frac) = rev frac ++ "."%char :: rev pre).
    { rewrite rev_app_distr. cbn. rewrite <- app_assoc. reflexivity. }
    assert (HT : dropTrailingZeros (pre ++ "."%char :: frac)
                 = if forallb isZeroChar frac then pre ++ ["."%char]
                   else pre ++ "."%char :: dropTrailingZeros frac).
    { unfold dropTrailingZeros. rewrite Hrev, dropWhile_app, forallb_rev.
      destruct (forallb isZeroChar frac).
      - cbn. rewrite rev_involutive. reflexivity.
      - rewrite rev_app_distr. cbn. rewrite rev_involutive, <- app_assoc. reflexivity. }
    unfold stripZerosSpec. rewrite Hdot, HT.
    rewrite replaceDotZeros_point by assumption.
    assert (Hn : nonEmpty frac = true) by (destruct frac; [congruence | reflexivity]).
    rewrite Hn. cbn [andb].
    destruct (forallb isZeroChar frac) eqn:Hz.
    + rewrite replaceTrailingZeros_no_dot by exact Hpre.
      rewrite rev_app_distr. cbn. rewrite rev_involutive. reflexivity.
    + rewrite replaceTrailingZeros_point by assumption. rewrite Hdig. cbn [andb].
      rewrite <- (forallb_rev _ frac) in Hz.
      destruct (dropWhile_head _ _ Hz) as (h & r & Hd & Hh & Hin).
      assert (Hhd : isDot h = false).
      { apply isDigit_not_dot. rewrite forallb_forall in Hdig.
        apply Hdig. apply in_rev. exact Hin. }
      assert (Er : rev (pre ++ "."%char :: dropTrailingZeros frac)
                   = h :: r ++ "."%char :: rev pre).
      { rewrite rev_app_distr. cbn. unfold dropTrailingZeros.
        rewrite rev_involutive, Hd, <- app_assoc. reflexivity. }
      rewrite Er, Hhd.
      destruct (endsWithZero frac) eqn:Hez; [reflexivity | ].
      rewrite dropTrailingZeros_keep by exact Hez. reflexivity.
Qed.

End Stripping.

Section FormatValue.

Variable Number_toString : Qc -> string.
Variable Math_log : Qc -> Qc.

Lemma list_ascii_of_string_app (a b : string) :
  list_ascii_of_string (a +:+ b) = list_ascii_of_string a ++ list_ascii_of_string b.
Proof.
  induction a as [|x a IH]; [reflexivity | ].
  change (x :: list_ascii_of_string (a +:+ b)
          = x :: (list_ascii_of_string a ++ list_ascii_of_string b)).
  f_equal. exact IH.
Qed.

(** Below 1e21 [toFixed] yields a decimal numeral. *)
Lemma toFixed_shape x f :
  (Math_abs x < Qc_of_Z (10 ^ 21))%Qc ->
  numeralShape (list_ascii_of_string (toFixed Number_toString x f)).
Proof.
  intros Hlt. unfold toFixed.
  assert (E : bool_decide (Qc_of_Z (10 ^ 21) <= Math_abs x)%Qc = false)
    by (apply bool_decide_eq_false_2, Qclt_not_le, Hlt).
  unfold Math_abs in E. rewrite E. clear E.
  rewrite list_ascii_of_string_app, list_ascii_of_string_of_list_ascii.
  set (sign := list_ascii_of_string (if bool_decide (x < 0)%Qc then "-" else "")).
  assert (Hsign : existsb isDot sign = false).
  { subst sign. destruct (bool_decide (x < 0)%Qc); reflexivity. }
  set (n := Qfloor _).
  pose proof (decimalDigits_digits n) as Hm.
  destruct (Nat.eqb_spec f 0) as [-> | Hf].
  - left. rewrite existsb_app, Hsign. apply digits_no_dot, Hm.
  - right.
    set (m := if (length (decimalDigits n) <=? f)%nat
              then repeat "0"%char (f + 1 - length (decimalDigits n)) ++ decimalDigits n
              else decimalDigits n).
    assert (Hm' : forallb isDigit m = true).
    { subst m. destruct (_ <=? _)%nat; [ | exact Hm].
      rewrite forallb_app, forallb_repeat_zero. exact Hm. }
    assert (Hlen : (f < length m)%nat).
    { subst m. destruct (Nat.leb_spec (length (decimalDigits n)) f).
      - rewrite length_app, repeat_length. lia.
      - lia. }
    destruct (forallb_take_drop isDigit (length m - f) m Hm') as [Ht Hd].
    exists (sign ++ take (length m - f) m), (drop (length m - f) m).
    split; [rewrite <- app_assoc; reflexivity | ].
    split; [rewrite existsb_app, Hsign; apply digits_no_dot, Ht | ].
    split; [exact Hd | ].
    intros E. apply (f_equal (@length ascii)) in E.
    rewrite length_drop in E. cbn in E. lia.
Qed.

Lemma precision_chain v :
  (if bool_decide (Qc_of_Z 1000 <= Math_abs v)%Qc then toFixed Number_toString v 0
   else if bool_decide (Qc_of_Z 100 <= Math_abs v)%Qc then toFixed Number_toString v 1
   else if bool_decide (Qc_of_Z 10 <= Math_abs v)%Qc then toFixed Number_toString v 2
   else toFixed Number_toString v 3)
  = toFixed Number_toString v (precisionFor v).
Proof. unfold precisionFor. repeat case_bool_decide; reflexivity. Qed.

(** Away from the byte units and below 1e21, [formatValue] is what the
    specification describes. *)
Lemma formatValue_refines v unit :
  (Math_abs v < Qc_of_Z (10 ^ 21))%Qc ->
  unit <> Some "B" -> unit <> Some "bytes" ->
  formatValue Number_toString Math_log (Some v) unit = formatValueSpec Number_toString v unit.
Proof.
  intros Hlt HB Hbytes. unfold formatValue, formatValueSpec.
  rewrite bool_decide_eq_false_2 by tauto.
  rewrite precision_chain, list_ascii_of_string_of_list_ascii.
  rewrite strip_refines by (apply toFixed_shape, Hlt).
  unfold unitSuffix. destruct unit as [u | ].
  - destruct (bool_decide (u = "")); [rewrite string_app_nil_r | ]; reflexivity.
  - rewrite string_app_nil_r. reflexivity.
Qed.

Lemma formatValue_bytes v unit :
  unit = Some "B" \/ unit = Some "bytes" ->
  formatValue Number_toString Math_log (Some v) unit = formatBytes Number_toString Math_log v.
Proof.
  intros H. unfold formatValue. rewrite bool_decide_eq_true_2 by exact H. reflexivity.
Qed.

End FormatValue.

(** C8, as the code has it.  For a value below 1e21 in magnitude and a unit
    other than ["B"] and ["bytes"], [formatValue] renders the value with the
    precision of its magnitude, strips the trailing zeros after the decimal
    point, and appends the unit after a space when one is supplied; for the
    units ["B"] and ["bytes"] it hands the value to the byte formatter.  The
    three examples hold. *)
Theorem formatValue_precision_and_stripping :
  forall (Number_toString : Qc -> string) (Math_log : Qc -> Qc),
    (forall v unit,
       (Math_abs v < Qc_of_Z (10 ^ 21))%Qc ->
       unit <> Some "B" -> unit <> Some "bytes" ->
       formatValue Number_toString Math_log (Some v) unit
       = formatValueSpec Number_toString v unit) /\
    (forall v unit,
       unit = Some "B" \/ unit = Some "bytes" ->
       formatValue Number_toString Math_log (Some v) unit = formatBytes Number_toString Math_log v) /\
    formatValue Number_toString Math_log (Some (Q2Qc (2469 # 2))) None = "1235" /\
    formatValue Number_toString Math_log (Some double_42_567) None = "42.57" /\
    formatValue Number_toString Math_log (Some 0%Qc) (Some "req/s") = "0 req/s".
Proof.
  intros nts. split; [apply formatValue_refines | ].
  split; [apply formatValue_bytes | ].
  repeat split; vm_compute; reflexivity.
Qed.

Lemma formatValue_precision_and_stripping_witness :
  formatValue sampleNumberToString sampleMathLog (Some (Q2Qc (2469 # 2))) (Some "ms")
  = formatValueSpec sampleNumberToString (Q2Qc (2469 # 2)) (Some "ms") /\
  formatValue sampleNumberToString sampleMathLog (Some (Qc_of_Z 2048)) (Some "bytes")
  = formatBytes sampleNumberToString sampleMathLog (Qc_of_Z 2048).
Proof.
  destruct (formatValue_precision_and_stripping sampleNumberToString sampleMathLog) as (H1 & H2 & _).
  split.
  - apply H1; [vm_compute; reflexivity | discriminate | discriminate].
  - apply H2. right. reflexivity.
Defined.

(** C8, as the specification words it, fails for a byte unit: the unit
    ["bytes"] is not appended, the value goes to the byte formatter. *)
Lemma formatValue_bytes_unit_not_appended :
  formatValue sampleNumberToString sampleMathLog (Some 0%Qc) (Some "bytes") = "0 B" /\
  formatValueSpec sampleNumberToString 0%Qc (Some "bytes") = "0 bytes" /\
  "0 B" <> "0 bytes".
Proof. repeat split; try (vm_compute; reflexivity). discriminate. Qed.

(** ** Time-range resolver: tokens of decimal digits and a unit *)

Section Tokens.










End Tokens.

Section Decimal.


Lemma digitValue_digitChar d : 0 <= d < 10 -> digitValue (digitChar d) = Some d.
Proof.
  intros H.
  assert (E : d = 0 \/ d = 1 \/ d = 2 \/ d = 3 \/ d = 4 \/ d = 5 \/ d = 6 \/ d = 7
              \/ d = 8 \/ d = 9) by lia.
  decompose [or] E; subst; reflexivity.
Qed.

(** Reading back the digits written by [digitsFuel]: they shift what was
    read before them and add the number. *)
Lemma parseDigits_digitsFuel fuel :
  forall n, 0 <= n < 2 ^ Z.of_nat fuel -> (0 < fuel)%nat ->
  exists k, 0 <= k /\
    forall acc a, parseDigits 10 (digitsFuel fuel n acc) (Some a)
                  = parseDigits 10 acc (Some (10 ^ k * a + n)).
Proof.
  induction fuel as [|fuel IH]; intros n Hn Hfuel; [lia | ].
  assert (Hmod : 0 <= n mod 10 < 10) by (apply Z.mod_pos_bound; lia).
  assert (Hstep : forall acc a,
             parseDigits 10 (digitChar (n mod 10) :: acc) (Some a)
             = parseDigits 10 acc (Some (10 * a + n mod 10))).
  { intros acc a. cbn [parseDigits]. rewrite digitValue_digitChar by exact Hmod.
    destruct (Z.ltb_spec (n mod 10) 10); [reflexivity | lia]. }
  cbn [digitsFuel]. destruct (Z.eqb_spec (n / 10) 0) as [E | Hne].
  - exists 1. split; [lia | ]. intros acc a. rewrite Hstep. do 2 f_equal.
    pose proof (Z.div_mod n 10). lia.
  - assert (Hdiv : 0 < n / 10).
    { assert (0 <= n / 10) by (apply Z.div_pos; lia). lia. }
    assert (Hfuel' : (0 < fuel)%nat).
    { destruct fuel; [ | lia]. cbn in Hn. assert (n / 10 = 0) by (apply Z.div_small; lia). lia. }
    destruct (IH (n / 10)) as (k & Hk & Hparse); [ | exact Hfuel' | ].
    + split; [lia | ].
      rewrite Nat2Z.inj_succ, Z.pow_succ_r in Hn by lia.
      assert (n / 10 <= n / 2) by (apply Z.div_le_compat_l; lia).
      assert (n / 2 < 2 ^ Z.of_nat fuel) by (apply Z.div_lt_upper_bound; lia).
      lia.
    + exists (k + 1). split; [lia | ]. intros acc a.
      rewrite Hparse, Hstep. do 2 f_equal.
      rewrite Z.pow_add_r by lia. pose proof (Z.div_mod n 10). lia.
Qed.

Lemma parseDigits_decimalDigits n :
  0 <= n -> parseDigits 10 (decimalDigits n) (Some 0) = Some n.
Proof.
  intros Hn. unfold decimalDigits.
  destruct (parseDigits_digitsFuel (S (Z.to_nat (Z.log2 n))) n) as (k & _ & H).
  - split; [exact Hn | ]. rewrite Nat2Z.inj_succ, Z2Nat.id by apply Z.log2_nonneg.
    destruct (Z.eq_dec n 0) as [-> | Hne]; [reflexivity | ].
    apply Z.log2_spec. lia.
  - lia.
  - rewrite H. cbn [parseDigits]. f_equal. lia.
Qed.





End Decimal.

Section ValidTokens.

Import TimeUtils.

Variable LocalTZA : Z -> bool -> Z.


End ValidTokens.

(** ** Durations *)

Section Durations.

Import TimeFormat.

Lemma duration_units (ms : Z) :
  0 <= ms ->
  let seconds := ms / 1000 in
  let minutes := seconds / 60 in
  let hours := minutes / 60 in
  let days := hours / 24 in
  (days * 86400000 + Z.rem hours 24 * 3600000 <= ms
     < days * 86400000 + (Z.rem hours 24 + 1) * 3600000) /\
  (hours * 3600000 + Z.rem minutes 60 * 60000 <= ms
     < hours * 3600000 + (Z.rem minutes 60 + 1) * 60000) /\
  (minutes * 60000 + Z.rem seconds 60 * 1000 <= ms
     < minutes * 60000 + (Z.rem seconds 60 + 1) * 1000) /\
  (seconds * 1000 <= ms < (seconds + 1) * 1000) /\
  0 <= Z.rem hours 24 < 24 /\ 0 <= Z.rem minutes 60 < 60 /\
  0 <= Z.rem seconds 60 < 60.
Proof.
  intros H seconds minutes hours days.
  subst days hours minutes seconds.
  rewrite !Z.rem_mod_nonneg by (try lia; repeat apply Z.div_pos; lia).
  Z.to_euclidean_division_equations. lia.
Qed.

(** X1 (formatDuration, non-negative span).  A span of [ms >= 0]
    milliseconds is printed with its two largest units, days and hours,
    hours and minutes or minutes and seconds, or with seconds alone below
    a minute.  The printed numbers truncate the span: the printed duration
    never exceeds [ms] and falls short of it by less than one of the
    smaller printed unit, and the smaller number stays below 24 or 60. *)
Theorem formatDuration_two_largest_units (ms : Z) :
  0 <= ms -> showsTruncated ms (formatDuration ms).
Proof.
  intros H.
  destruct (duration_units ms H) as (Hd & Hh & Hm & Hs & Rh & Rm & Rs).
  cbv zeta in Hd, Hh, Hm, Hs, Rh, Rm, Rs.
  unfold showsTruncated, formatDuration.
  set (seconds := ms / 1000) in *.
  set (minutes := seconds / 60) in *.
  set (hours := minutes / 60) in *.
  set (days := hours / 24) in *.
  destruct (0 <? days) eqn:Ed.
  { left. exists days, (Z.rem hours 24). repeat split; try lia. }
  right.
  destruct (0 <? hours) eqn:Eh.
  { left. exists hours, (Z.rem minutes 60).
    assert (hours < 24) by (subst days; Z.to_euclidean_division_equations; lia).
    repeat split; try lia. }
  right.
  destruct (0 <? minutes) eqn:Em.
  { left. exists minutes, (Z.rem seconds 60).
    assert (minutes < 60) by (subst hours; Z.to_euclidean_division_equations; lia).
    repeat split; try lia. }
  right. exists seconds.
  assert (seconds < 60) by (subst minutes; Z.to_euclidean_division_equations; lia).
  assert (0 <= seconds) by (subst seconds; Z.to_euclidean_division_equations; lia).
  repeat split; try lia.
Qed.

Lemma formatDuration_two_largest_units_witness :
  0 <= 93784000 /\ showsTruncated 93784000 "1d 2h".
Proof.
  split; [lia | ].
  exact (formatDuration_two_largest_units 93784000 ltac:(lia)).
Defined.

(** X2 (formatDuration, negative span).  A negative span (an end before
    the start) is never broken into larger units: it is printed as its
    whole seconds rounded towards minus infinity, a minus sign, digits and
    ["s"], so that one millisecond before zero reads ["-1s"]. *)
Theorem formatDuration_negative_in_seconds (ms : Z) :
  ms < 0 ->
  ms / 1000 < 0 /\
  formatDuration ms =
    "-" +:+ string_of_list_ascii (decimalDigits (- (ms / 1000))) +:+ "s".
Proof.
  intros H.
  assert (Hs : ms / 1000 < 0) by (Z.to_euclidean_division_equations; lia).
  split; [exact Hs | ].
  unfold formatDuration.
  set (seconds := ms / 1000) in *.
  assert (Hm : seconds / 60 < 0) by (Z.to_euclidean_division_equations; lia).
  set (minutes := seconds / 60) in *.
  assert (Hh : minutes / 60 < 0) by (Z.to_euclidean_division_equations; lia).
  set (hours := minutes / 60) in *.
  assert (Hd : hours / 24 < 0) by (Z.to_euclidean_division_equations; lia).
  replace (0 <? hours / 24) with false by (symmetry; apply Z.ltb_ge; lia).
  replace (0 <? hours) with false by (symmetry; apply Z.ltb_ge; lia).
  replace (0 <? minutes) with false by (symmetry; apply Z.ltb_ge; lia).
  unfold intToString.
  replace (seconds <? 0) with true by (symmetry; apply Z.ltb_lt; lia).
  reflexivity.
Qed.

Lemma formatDuration_negative_in_seconds_witness :
  -1 < 0 /\ formatDuration (-1) = "-1s" /\ formatDuration (-90000000) = "-90000s".
Proof.
  split; [lia | ].
  split; [ | vm_compute; reflexivity].
  exact (proj2 (formatDuration_negative_in_seconds (-1) ltac:(lia))).
Defined.

End Durations.

(** ** Series parsed from a Prometheus response *)

Section PrometheusSeries.

Import Prometheus.

Variable parseFloat : string -> Qc.

Lemma seriesId_inj (i j : nat) : seriesId i = seriesId j -> i = j.
Proof.
  unfold seriesId. intros H.
  change ("series-" +:+ ?s) with
    (String "s" (String "e" (String "r" (String "i" (String "e" (String "s"
       (String "-" s))))))) in H.
  injection H as H.
  apply (f_equal list_ascii_of_string) in H.
  rewrite !list_ascii_of_string_of_list_ascii in H.
  apply (f_equal (fun l => parseDigits 10 l (Some 0))) in H.
  rewrite !parseDigits_decimalDigits in H by lia.
  injection H as H. lia.
Qed.

Lemma seriesId_not_timestamp (i : nat) : seriesId i <> "timestamp".
Proof. unfold seriesId. discriminate. Qed.


Lemma parse_success (response : PrometheusResponse) :
  status response = "success" ->
  parsePrometheusResponse parseFloat response =
  imap
    (fun index series =>
       let metricName :=
         match ownProperty "__name__" (metric series) with
         | Some n => if String.eqb n "" then "unknown" else n
         | None => "unknown"
         end in
       let labels :=
         String.concat ", "
           (map (fun kv => fst kv +:+ "=" +:+ DQUOTE +:+ snd kv +:+ DQUOTE)
                (List.filter (fun kv => negb (String.eqb (fst kv) "__name__"))
                             (metric series))) in
       {| id := seriesId index;
          name := if String.eqb labels "" then metricName
                  else metricName +:+ "{" +:+ labels +:+ "}";
          color := default "" (colors !! (index mod length colors)%nat);
          data :=
            map (fun tv =>
                   {| Prometheus.timestamp := newDateOf (multiply (fst tv) (Qc_of_Z 1000));
                      Prometheus.value := parseFloat (snd tv) |})
                (values series);
          visible := Some true;
          query := None; unit := None; aggregation := None |})
    (result response).
Proof.
  intros E. unfold parsePrometheusResponse. rewrite E. cbn [String.eqb negb orb].
  change ("success" =? "success")%string with true. cbn [negb orb].
  destruct (result response) as [ | x l] eqn:El; reflexivity.
Qed.

Lemma parse_failure (response : PrometheusResponse) :
  status response <> "success" ->
  parsePrometheusResponse parseFloat response = [].
Proof.
  intros E. unfold parsePrometheusResponse.
  apply String.eqb_neq in E. rewrite E. reflexivity.
Qed.

Lemma imap_ids {A} (f : nat -> A -> ParsedSeries) (l : list A) (k : nat) :
  (forall i x, id (f i x) = seriesId (k + i)) ->
  map id (imap f l) = map seriesId (seq k (length l)).
Proof.
  revert f k. induction l as [ | x l IH]; intros f k Hf; [reflexivity | ].
  cbn. f_equal.
  - rewrite Hf. f_equal. lia.
  - apply IH. intros i y. unfold compose. rewrite Hf. f_equal. lia.
Qed.

Lemma seriesIds_NoDup (k n : nat) : List.NoDup (map seriesId (seq k n)).
Proof.
  apply Finite.Injective_map_NoDup.
  - intros i j. apply seriesId_inj.
  - apply List.seq_NoDup.
Qed.

Lemma parse_ids (response : PrometheusResponse) :
  status response = "success" ->
  map id (parsePrometheusResponse parseFloat response)
  = map seriesId (seq 0 (length (result response))).
Proof.
  intros E. rewrite (parse_success _ E). apply imap_ids. reflexivity.
Qed.

Lemma parse_lookup (response : PrometheusResponse) (i : nat) (s : ParsedSeries) :
  parsePrometheusResponse parseFloat response !! i = Some s ->
  status response = "success" /\
  id s = seriesId i /\ visible s = Some true /\
  color s = default "" (colors !! (i mod 8)%nat) /\
  exists r, result response !! i = Some r /\
            length (data s) = length (values r).
Proof.
  intros H.
  destruct (String.eqb_spec (status response) "success") as [E | E].
  - split; [exact E | ].
    rewrite (parse_success _ E), list_lookup_imap in H.
    destruct (result response !! i) as [r | ]; [ | discriminate].
    cbn in H. injection H as <-. cbn.
    repeat split; try reflexivity.
    exists r. split; [reflexivity | ]. now rewrite length_map.
  - rewrite (parse_failure _ E) in H. discriminate.
Qed.


Lemma parse_all (P : ParsedSeries -> Prop) (response : PrometheusResponse) :
  (forall i s, parsePrometheusResponse parseFloat response !! i = Some s -> P s) ->
  Forall P (parsePrometheusResponse parseFloat response).
Proof.
  intros H. apply List.Forall_forall. intros s Hin.
  apply list_elem_of_In, list_elem_of_lookup in Hin as [i Hi]. eauto.
Qed.

(** X3 (parsePrometheusResponse, ids).  Whatever the response, the parsed
    series carry the ids ["series-0"], ["series-1"], ... in the order of
    the result: they are pairwise distinct, none of them is the row key
    ["timestamp"], every series is visible, and there is one series per
    result of a successful response and none otherwise. *)
Theorem parsePrometheusResponse_ids (response : PrometheusResponse) :
  let out := parsePrometheusResponse parseFloat response in
  map id out = map seriesId (seq 0 (length out)) /\
  List.NoDup (map id out) /\
  Forall (fun s => id s <> "timestamp" /\ isVisible s = true) out /\
  length out = (if String.eqb (status response) "success"
                then length (result response) else 0%nat).
Proof.
  intros out.
  assert (Hlen : length out = (if String.eqb (status response) "success"
                               then length (result response) else 0%nat)).
  { subst out. destruct (String.eqb_spec (status response) "success") as [E | E].
    - rewrite (parse_success _ E). apply length_imap.
    - rewrite (parse_failure _ E). reflexivity. }
  assert (Hids : map id out = map seriesId (seq 0 (length out))).
  { subst out. destruct (String.eqb_spec (status response) "success") as [E | E].
    - rewrite Hlen. apply parse_ids, E.
    - rewrite (parse_failure _ E). reflexivity. }
  split; [exact Hids | ]. split; [ | split; [ | exact Hlen]].
  - rewrite Hids. apply seriesIds_NoDup.
  - apply parse_all. intros i s Hs.
    destruct (parse_lookup _ _ _ Hs) as (_ & Hid & Hvis & _).
    split.
    + rewrite Hid. apply seriesId_not_timestamp.
    + unfold isVisible. rewrite Hvis. reflexivity.
Qed.







Lemma colors_cycle (i j : nat) :
  (i < 8)%nat -> (j < 8)%nat ->
  default "" (colors !! i) = default "" (colors !! j) -> i = j.
Proof.
  intros Hi Hj.
  do 8 (destruct i as [ | i]; [
    do 8 (destruct j as [ | j]; [first [reflexivity | discriminate] | ]); lia | ]).
  lia.
Qed.

(** X5 (parsePrometheusResponse, colours).  The palette has eight distinct
    colours and is reused cyclically: two parsed series have the same
    colour exactly when their positions differ by a multiple of eight. *)
Theorem parsePrometheusResponse_colors_cycle
    (response : PrometheusResponse) (i j : nat) (si sj : ParsedSeries) :
  parsePrometheusResponse parseFloat response !! i = Some si ->
  parsePrometheusResponse parseFloat response !! j = Some sj ->
  (color si = color sj <-> (i mod 8 = j mod 8)%nat).
Proof.
  intros Hi Hj.
  destruct (parse_lookup _ _ _ Hi) as (_ & _ & _ & Ci & _).
  destruct (parse_lookup _ _ _ Hj) as (_ & _ & _ & Cj & _).
  rewrite Ci, Cj. split.
  - apply colors_cycle; apply Nat.mod_upper_bound; lia.
  - intros ->. reflexivity.
Qed.

End PrometheusSeries.


(** The time of a sample is rounded before it is truncated: a thousand
    times the double nearest to 1700000000.123 is just below
    1700000000123 and rounds to it. *)
Example sample_time_is_rounded :
  truncate (double_1700000000_123 * Qc_of_Z 1000)%Qc = 1700000000122 /\
  newDateOf (multiply double_1700000000_123 (Qc_of_Z 1000)) = DateMs 1700000000123.
Proof. split; vm_compute; reflexivity. Qed.

(** A sample beyond the range of dates has an invalid date, and the parsed
    series cannot be put in a store. *)
Example sample_time_out_of_range :
  let response :=
    {| Prometheus.status := "success"; Prometheus.resultType := "matrix";
       Prometheus.result :=
         [ {| Prometheus.metric := [];
              Prometheus.values := [(Qc_of_Z 8640000000001, "1")] |} ] |} in
  map (fun s => map Prometheus.timestamp (data s))
      (Prometheus.parsePrometheusResponse sampleParseFloat response)
  = [[InvalidDate]] /\
  storeOf (Prometheus.parsePrometheusResponse sampleParseFloat response) = None.
Proof. split; vm_compute; reflexivity. Qed.

Lemma parsePrometheusResponse_colors_cycle_witness :
  let response :=
    {| Prometheus.status := "success"; Prometheus.resultType := "matrix";
       Prometheus.result :=
         repeat {| Prometheus.metric := [("__name__", "up")];
                   Prometheus.values := [] |} 10 |} in
  let out := Prometheus.parsePrometheusResponse (fun _ => 0%Qc) response in
  (map (fun s => (id s, name s, color s)) (take 2 out)
   = [("series-0", "up", "#3584e4"); ("series-1", "up", "#f8e45c")]) /\
  (forall s0 s8, out !! 0%nat = Some s0 -> out !! 8%nat = Some s8 ->
                 color s0 = color s8).
Proof.
  intros response out. split; [vm_compute; reflexivity | ].
  intros s0 s8 H0 H8.
  apply (parsePrometheusResponse_colors_cycle (fun _ => 0%Qc) response 0 8 s0 s8 H0 H8).
  reflexivity.
Defined.

(** ** Query history *)

Section QueryHistory.

Import QueryInput.

Lemma existsb_query (q : string) (h : list QueryHistory) :
  existsb (fun item => String.eqb (query item) q) h = true
  <-> In q (map query h).
Proof.
  rewrite existsb_exists, in_map_iff. split.
  - intros (x & Hin & E). apply String.eqb_eq in E. eauto.
  - intros (x & E & Hin). exists x. split; [exact Hin | ]. now apply String.eqb_eq.
Qed.

Lemma In_take {A} (x : A) (n : nat) (l : list A) : In x (take n l) -> In x l.
Proof.
  revert n. induction l as [ | y l IH]; intros [ | n]; cbn; try tauto.
  intros [-> | H]; eauto.
Qed.

Lemma NoDup_map_take {A B} (f : A -> B) (n : nat) (l : list A) :
  List.NoDup (map f l) -> List.NoDup (map f (take n l)).
Proof.
  revert n. induction l as [ | y l IH]; intros [ | n] H; cbn; try constructor.
  - inversion H as [ | ? ? Hy Hl]; subst.
    intros Hin. apply Hy. apply in_map_iff in Hin as (x & E & Hin).
    apply in_map_iff. exists x. split; [exact E | ]. eapply In_take, Hin.
  - inversion H; subst. apply IH. assumption.
Qed.

Lemma addToQueryHistory_ok (now : Z) (q : string) (h : list QueryHistory) :
  trim q <> "" -> historyOk h -> historyOk (addToQueryHistory now q h).
Proof.
  intros Hq (Hnd & Hlen & Hnb). unfold addToQueryHistory.
  destruct (existsb _ h) eqn:E; cbn [negb]; [repeat split; assumption | ].
  assert (Hnew : ~ In q (map query h)).
  { rewrite <- existsb_query, E. discriminate. }
  repeat split.
  - cbn. constructor.
    + intros Hin. apply Hnew. apply in_map_iff in Hin as (x & Ex & Hin).
      apply in_map_iff. exists x. split; [exact Ex | ]. eapply In_take, Hin.
    + apply NoDup_map_take, Hnd.
  - cbn. rewrite length_take. lia.
  - constructor; [exact Hq | ].
    apply List.Forall_forall. intros x Hin.
    rewrite List.Forall_forall in Hnb. eapply Hnb, In_take, Hin.
Qed.

Lemma handleQuerySubmit_ok (now : Z) (q : string) (h : list QueryHistory) :
  historyOk h ->
  historyOk (fst (handleQuerySubmit now q h)) /\
  snd (handleQuerySubmit now q h) = [submitEffect q].
Proof.
  intros Hh. unfold handleQuerySubmit, submitEffect.
  destruct (String.eqb_spec (trim q) "") as [E | E]; cbn.
  - split; [exact Hh | reflexivity].
  - split; [now apply addToQueryHistory_ok | reflexivity].
Qed.

Lemma submitAll_acc (subs : list (Z * string)) (h : list QueryHistory)
    (effs : list Effect) :
  historyOk h ->
  let r := fold_left
    (fun acc e =>
       let '(h, effects) := handleQuerySubmit (fst e) (snd e) (fst acc) in
       (h, snd acc ++ effects))
    subs (h, effs) in
  historyOk (fst r) /\ snd r = effs ++ map (fun e => submitEffect (snd e)) subs.
Proof.
  revert h effs. induction subs as [ | e subs IH]; intros h effs Hh; cbn.
  - split; [exact Hh | now rewrite app_nil_r].
  - destruct (handleQuerySubmit_ok (fst e) (snd e) h Hh) as [Hok Heff].
    destruct (handleQuerySubmit (fst e) (snd e) h) as [h' eff'] eqn:E.
    cbn in Hok, Heff. subst eff'.
    destruct (IH h' (effs ++ [submitEffect (snd e)]) Hok) as [H1 H2].
    split; [exact H1 | ]. rewrite H2, <- app_assoc. reflexivity.
Qed.

Lemma SAMPLE_QUERY_HISTORY_ok (loaded : Z) : historyOk (SAMPLE_QUERY_HISTORY loaded).
Proof.
  repeat split.
  - cbn. repeat constructor; cbn; intuition discriminate.
  - cbn. lia.
  - repeat constructor; vm_compute; discriminate.
Qed.

(** X6 (QueryInput, history).  Through any sequence of submissions the
    history keeps no query twice, at most ten entries and no blank query,
    provided it started so, as the built-in sample history does; and the
    effects of the sequence are, in order, the error toast for each blank
    text and the host's callback with the text as typed for each other
    one.  A text is blank when [trim] leaves nothing of it, that is when
    it holds only white space and line terminators of ECMAScript, those
    beyond ASCII included. *)
Theorem submitAll_keeps_history (subs : list (Z * string)) (h : list QueryHistory) :
  historyOk h ->
  historyOk (fst (submitAll subs h)) /\
  snd (submitAll subs h) = map (fun e => submitEffect (snd e)) subs.
Proof.
  intros Hh. exact (submitAll_acc subs h [] Hh).
Qed.

Lemma submitAll_keeps_history_witness :
  let subs := [(5, "up"); (6, "   "); (7, " up"); (8, "up");
               (9, NBSP +:+ IDEOGRAPHIC_SPACE)] in
  historyOk (fst (submitAll subs (SAMPLE_QUERY_HISTORY 0))) /\
  snd (submitAll subs (SAMPLE_QUERY_HISTORY 0))
  = [OnQuerySubmit "up"; ToastQueryEmpty; OnQuerySubmit " up"; OnQuerySubmit "up";
     ToastQueryEmpty].
Proof.
  intros subs.
  exact (submitAll_keeps_history subs (SAMPLE_QUERY_HISTORY 0)
           (SAMPLE_QUERY_HISTORY_ok 0)).
Defined.

(** [trim] removes the white space of both ends, whatever its encoding,
    and none from the middle. *)
Example trim_unicode_white_space :
  trim (" " +:+ NBSP +:+ "a" +:+ NBSP +:+ "b" +:+ IDEOGRAPHIC_SPACE +:+ LF) = "a" +:+ NBSP +:+ "b" /\
  trim (NBSP +:+ LF +:+ IDEOGRAPHIC_SPACE) = "".
Proof. split; vm_compute; reflexivity. Qed.

(** X7 (addToQueryHistory).  A query that the history already holds is
    not added again, moved to the front or given a new time: the history
    stays as it is.  A new query becomes the first entry, stamped with the
    clock, in front of the previous entries in their order; with ten
    entries before, the last one of them is dropped. *)
Theorem addToQueryHistory_newest_first (now : Z) (q : string) (h : list QueryHistory) :
  (In q (map query h) -> addToQueryHistory now q h = h) /\
  (~ In q (map query h) ->
   exists dropped,
     {| query := q; timestamp := now |} :: h = addToQueryHistory now q h ++ dropped /\
     length dropped = (length h - 9)%nat).
Proof.
  unfold addToQueryHistory. split; intros H.
  - apply existsb_query in H. rewrite H. reflexivity.
  - destruct (existsb _ h) eqn:E.
    + exfalso. apply H, existsb_query, E.
    + cbn [negb]. exists (drop 9 h). split.
      * cbn. now rewrite take_drop.
      * apply length_drop.
Qed.

End QueryHistory.

Lemma addToQueryHistory_newest_first_witness :
  QueryInput.addToQueryHistory 5 "rate(http_requests_total[5m])"
    (QueryInput.SAMPLE_QUERY_HISTORY 0)
  = QueryInput.SAMPLE_QUERY_HISTORY 0 /\
  exists dropped,
    {| QueryInput.query := "up"; QueryInput.timestamp := 5 |}
      :: QueryInput.SAMPLE_QUERY_HISTORY 0
    = QueryInput.addToQueryHistory 5 "up" (QueryInput.SAMPLE_QUERY_HISTORY 0) ++ dropped /\
    length dropped = 0%nat.
Proof.
  split.
  - apply (proj1 (addToQueryHistory_newest_first 5 "rate(http_requests_total[5m])"
                    (QueryInput.SAMPLE_QUERY_HISTORY 0))).
    cbn. right. left. reflexivity.
  - apply (proj2 (addToQueryHistory_newest_first 5 "up"
                    (QueryInput.SAMPLE_QUERY_HISTORY 0))).
    cbn. intuition discriminate.
Defined.

(** ** Order of sample values *)

(** Linear arithmetic on [Qc], through the rationals under it. *)
Ltac qc_lra :=
  unfold Qcle, Qclt, Qcminus, Qcdiv in *;
  cbn [this Qcplus Qcmult Qcopp Qcinv Q2Qc Qc_of_Z] in *;
  rewrite ?Qred_correct in *;
  unfold inject_Z in *; cbn [Qinv Qnum Qden] in *;
  lra.

Lemma Math_min_cases (x y : Qc) :
  (Math_min x y = x /\ (x <= y)%Qc) \/ (Math_min x y = y /\ (y < x)%Qc).
Proof.
  unfold Math_min. case_bool_decide as H; [right | left]; split; try reflexivity.
  - exact H.
  - apply Qcnot_lt_le, H.
Qed.

Lemma Math_max_cases (x y : Qc) :
  (Math_max x y = x /\ (y <= x)%Qc) \/ (Math_max x y = y /\ (x < y)%Qc).
Proof.
  unfold Math_max. case_bool_decide as H; [right | left]; split; try reflexivity.
  - exact H.
  - apply Qcnot_lt_le, H.
Qed.

Lemma Math_abs_cases (x : Qc) :
  (Math_abs x = x /\ (0 <= x)%Qc) \/ (Math_abs x = (- x)%Qc /\ (x < 0)%Qc).
Proof.
  unfold Math_abs. case_bool_decide as H; [right | left]; split; try reflexivity.
  - exact H.
  - apply Qcnot_lt_le, H.
Qed.

(** ** The simpler chart variant: zoom level *)

Section ZoomLevel.

Import ChartBasicZoom.

Variable props : Props.

Lemma zoomStep_bounds (st : ChartBasic.ChartState) (e : ZoomEvent) :
  (1 <= ChartBasic.zoomLevel st)%Qc /\ (ChartBasic.zoomLevel st <= Qc_of_Z 10)%Qc ->
  ChartBasic.yAxisDomain st = None ->
  ((1 <= ChartBasic.zoomLevel (zoomStep props st e))%Qc /\
   (ChartBasic.zoomLevel (zoomStep props st e) <= Qc_of_Z 10)%Qc) /\
  ChartBasic.yAxisDomain (zoomStep props st e) = None.
Proof.
  intros [Hlo Hhi] Hdom. destruct e as [ | | a b]; cbn.
  - split; [ | exact Hdom].
    destruct (Math_min_cases (ChartBasic.zoomLevel st * double_1_5)%Qc (Qc_of_Z 10))
      as [[-> H] | [-> H]]; unfold double_1_5 in *; split; qc_lra.
  - split; [ | rewrite Hdom; now destruct (bool_decide _)].
    destruct (Math_max_cases (ChartBasic.zoomLevel st / double_1_5)%Qc (Qc_of_Z 1))
      as [[-> H] | [-> H]]; unfold double_1_5 in *; split; qc_lra.
  - split; [ | reflexivity]. split; qc_lra.
Qed.

(** X8 (zoom buttons of the simpler variant).  From a zoom level within
    [1, 10] and an automatic value axis, as on the first render, any
    sequence of zoom-in clicks, zoom-out clicks and custom time ranges
    leaves the zoom level within [1, 10] and the value axis automatic. *)
Theorem runZoom_level_within_bounds
    (events : list ZoomEvent) (st : ChartBasic.ChartState) :
  (1 <= ChartBasic.zoomLevel st)%Qc /\ (ChartBasic.zoomLevel st <= Qc_of_Z 10)%Qc ->
  ChartBasic.yAxisDomain st = None ->
  ((1 <= ChartBasic.zoomLevel (runZoom props events st))%Qc /\
   (ChartBasic.zoomLevel (runZoom props events st) <= Qc_of_Z 10)%Qc) /\
  ChartBasic.yAxisDomain (runZoom props events st) = None.
Proof.
  revert st. induction events as [ | e events IH]; intros st Hb Hd; cbn.
  - split; assumption.
  - destruct (zoomStep_bounds st e Hb Hd) as [Hb' Hd']. apply IH; assumption.
Qed.

End ZoomLevel.

Lemma runZoom_level_within_bounds_witness :
  let st := runZoom sampleProps
              (repeat ChartBasicZoom.ZoomIn 7 ++ [ChartBasicZoom.ZoomOut]) sampleBasicState in
  ((1 <= ChartBasic.zoomLevel st)%Qc /\ (ChartBasic.zoomLevel st <= Qc_of_Z 10)%Qc) /\
  ChartBasic.yAxisDomain st = None.
Proof.
  apply runZoom_level_within_bounds; [ | reflexivity].
  split; vm_compute; discriminate.
Defined.

(** ** The chart variant with a stored brush selection *)

Section BrushSelected.

Import ChartBrushSelected.

Variable props : Props.

Lemma at_in_range {A} (l : list A) (i : Z) :
  0 <= i < Z.of_nat (length l) -> exists x, at_ l i = Some x.
Proof.
  intros [H0 H1]. unfold at_.
  replace (i <? 0) with false by (symmetry; apply Z.ltb_ge; lia).
  destruct (lookup_lt_is_Some_2 l (Z.to_nat i)) as [x Hx]; [lia | ].
  exists x. exact Hx.
Qed.

(** X9 (handleApplyBrushSelection of the variant with [brushSelected]).
    With a stored selection of two row indices that are not negative,
    applying never throws.  When both indices are below the number of rows
    the callback and the toast are emitted for the times of the two rows
    and the selection is cleared, also when the two indices are equal or
    the first one is row 0; when one index is too large nothing is emitted
    and the stale selection is kept. *)
Theorem handleApplyBrushSelection_bounds_checked
    (st : ChartState) (startIndex endIndex : Z) :
  brushSelected st = Some (startIndex, endIndex) ->
  0 <= startIndex -> 0 <= endIndex ->
  let n := Z.of_nat (length (chartData st)) in
  (startIndex < n /\ endIndex < n ->
   exists startRow endRow,
     at_ (chartData st) startIndex = Some startRow /\
     at_ (chartData st) endIndex = Some endRow /\
     handleApplyBrushSelection props st =
     Returned
       {| timeRange := "custom";
          startTime := getProp startRow "timestamp";
          endTime := getProp endRow "timestamp";
          chartData := chartData st;
          brushSelected := None |}
       ((if hasOnTimeRangeChange props
         then [OnTimeRangeChange (getProp startRow "timestamp")
                                 (getProp endRow "timestamp")]
         else []) ++ [ToastTimeRangeUpdated])) /\
  (~ (startIndex < n /\ endIndex < n) ->
   handleApplyBrushSelection props st = Returned st []).
Proof.
  intros Hsel Hs He n. unfold handleApplyBrushSelection. rewrite Hsel. fold n.
  split.
  - intros [Hsn Hen].
    destruct (at_in_range (chartData st) startIndex ltac:(lia)) as [startRow Es].
    destruct (at_in_range (chartData st) endIndex ltac:(lia)) as [endRow Ee].
    exists startRow, endRow. split; [exact Es | ]. split; [exact Ee | ].
    replace (0 <? length (chartData st))%nat with true
      by (symmetry; apply Nat.ltb_lt; lia).
    replace (startIndex <? n) with true by (symmetry; apply Z.ltb_lt; lia).
    replace (endIndex <? n) with true by (symmetry; apply Z.ltb_lt; lia).
    cbn [andb]. rewrite Es, Ee. reflexivity.
  - intros Hout.
    destruct (0 <? length (chartData st))%nat; [ | reflexivity].
    destruct (startIndex <? n) eqn:E1; [ | reflexivity].
    destruct (endIndex <? n) eqn:E2; [ | reflexivity].
    exfalso. apply Hout. split; [apply Z.ltb_lt, E1 | apply Z.ltb_lt, E2].
Qed.

End BrushSelected.

Lemma handleApplyBrushSelection_bounds_checked_witness :
  ChartBrushSelected.handleApplyBrushSelection sampleProps
    (sampleBrushSelectedState (Some (0, 0)))
  = Returned
      {| ChartBrushSelected.timeRange := "custom";
         ChartBrushSelected.startTime := VDate 10;
         ChartBrushSelected.endTime := VDate 10;
         ChartBrushSelected.chartData := sampleRows;
         ChartBrushSelected.brushSelected := None |}
      [OnTimeRangeChange (VDate 10) (VDate 10); ToastTimeRangeUpdated] /\
  ChartBrushSelected.handleApplyBrushSelection sampleProps
    (sampleBrushSelectedState (Some (1, 2)))
  = Returned (sampleBrushSelectedState (Some (1, 2))) [].
Proof.
  split.
  - destruct (proj1 (handleApplyBrushSelection_bounds_checked sampleProps
                       (sampleBrushSelectedState (Some (0, 0))) 0 0
                       eq_refl ltac:(lia) ltac:(lia)))
      as (startRow & endRow & Es & Ee & E); [cbn; lia | ].
    injection Es as <-. injection Ee as <-. exact E.
  - apply (proj2 (handleApplyBrushSelection_bounds_checked sampleProps
                    (sampleBrushSelectedState (Some (1, 2))) 1 2
                    eq_refl ltac:(lia) ltac:(lia))).
    cbn. lia.
Defined.

(** ** The chart variant with a drag selection on the plot *)

Lemma truncate_bounds (x : Qc) :
  (inject_Z (truncate x) - 1 < x)%Q /\ (x < inject_Z (truncate x) + 1)%Q.
Proof.
  unfold truncate. case_bool_decide as H.
  - pose proof (Qle_ceiling x) as H1. pose proof (Qceiling_lt x) as H2.
    unfold Z.sub in H2. rewrite inject_Z_plus in H2.
    change (inject_Z (- (1))) with (- (1))%Q in H2. split; lra.
  - pose proof (Qfloor_le x) as H1. pose proof (Qlt_floor x) as H2.
    rewrite inject_Z_plus in H2. change (inject_Z 1) with 1%Q in H2. split; lra.
Qed.

Lemma newDate_order (x y : Qc) (tx ty : Z) :
  (Qc_of_Z 1000 < y - x)%Qc ->
  newDate x = DateMs tx -> newDate y = DateMs ty -> tx + 999 <= ty.
Proof.
  unfold newDate, TimeClip. intros Hxy Hx Hy.
  destruct (Z.abs (truncate x) <=? _); [ | discriminate].
  destruct (Z.abs (truncate y) <=? _); [ | discriminate].
  injection Hx as <-. injection Hy as <-.
  destruct (truncate_bounds x) as [Hx _]. destruct (truncate_bounds y) as [_ Hy].
  assert (H : (inject_Z (truncate x + 998) < inject_Z (truncate y))%Q).
  { rewrite inject_Z_plus. unfold Qclt, Qcminus in Hxy.
    cbn [this Qcplus Qcopp Qc_of_Z Q2Qc] in Hxy. rewrite ?Qred_correct in Hxy.
    change (inject_Z 1000) with (1000 # 1)%Q in Hxy.
    change (inject_Z 998) with (998 # 1)%Q.
    set (a := inject_Z (truncate x)) in *. set (b := inject_Z (truncate y)) in *.
    lra. }
  rewrite <- Zlt_Qlt in H. lia.
Qed.

Section DragSelection.

Import ChartSelect.

Variable props : Props.

Lemma drag_span (s e : Qc) :
  (Qc_of_Z 1000 < Math_abs (e - s))%Qc ->
  (Qc_of_Z 1000 < Math_max s e - Math_min s e)%Qc.
Proof.
  intros H.
  destruct (Math_abs_cases (e - s)) as [[Ea Ha] | [Ea Ha]]; rewrite Ea in H;
    destruct (Math_max_cases s e) as [[-> Hx] | [-> Hx]];
    destruct (Math_min_cases s e) as [[-> Hn] | [-> Hn]]; qc_lra.
Qed.

(** X10 (handleChartMouseUp).  Releasing the pointer over a drag whose two
    ends are more than 1000 ms apart applies the span between them as the
    custom time range, in ascending order whichever way the drag went: the
    window starts at the smaller end and ends at the larger one, each made
    a date by dropping its fraction, so that between valid dates the start
    is at least 999 ms before the end; the callback, if any, and the toast
    are emitted and the selection is cleared.  A release in any other
    state (no drag, a click without a move, a drag of at most 1000 ms)
    emits nothing, keeps the time range and clears the selection. *)
Theorem handleChartMouseUp_applies_meaningful_drag (st : ChartState) :
  (forall s e,
     isSelecting st = true -> selectionStart st = Some s -> selectionEnd st = Some e ->
     (Qc_of_Z 1000 < Math_abs (e - s))%Qc ->
     let newStart := newDate (Math_min s e) in
     let newEnd := newDate (Math_max s e) in
     handleChartMouseUp props st =
     ({| timeRange := "custom"; startTime := newStart; endTime := newEnd;
         hoveredPoint := hoveredPoint st;
         zoomMode := zoomMode st; panMode := panMode st;
         selectionStart := None; selectionEnd := None; isSelecting := false |},
      (if hasOnTimeRangeChange props then [OnTimeRangeChange newStart newEnd] else [])
      ++ [ToastTimeRangeUpdated]) /\
     (forall ta tb, newStart = DateMs ta -> newEnd = DateMs tb -> ta + 999 <= tb)) /\
  ((isSelecting st = false \/ selectionStart st = None \/ selectionEnd st = None \/
    exists s e, selectionStart st = Some s /\ selectionEnd st = Some e /\
                (Math_abs (e - s) <= Qc_of_Z 1000)%Qc) ->
   handleChartMouseUp props st = (endSelection st, [])).
Proof.
  split.
  - intros s e Hsel Hs He Hspan newStart newEnd. split.
    + unfold handleChartMouseUp. rewrite Hsel, Hs, He.
      rewrite bool_decide_eq_true_2 by exact Hspan. reflexivity.
    + intros ta tb Ha Hb.
      eapply newDate_order; [apply drag_span, Hspan | exact Ha | exact Hb].
  - intros H. unfold handleChartMouseUp.
    destruct (isSelecting st); [ | reflexivity].
    destruct (selectionStart st) as [s | ]; [ | reflexivity].
    destruct (selectionEnd st) as [e | ]; [ | reflexivity].
    destruct H as [H | [H | [H | (s' & e' & [= <-] & [= <-] & H)]]]; try discriminate.
    rewrite bool_decide_eq_false_2; [reflexivity | ].
    now apply Qcle_not_lt.
Qed.

(** X11 (handleChartMouseLeave).  When the pointer leaves the plot the
    hover and a running selection are dropped and nothing is emitted; a
    release of the button after that applies nothing either, and the time
    range is the one before the pointer left. *)
Theorem handleChartMouseLeave_cancels_selection (st : ChartState) :
  let left := handleChartMouseLeave st in
  let released := handleChartMouseUp props (fst left) in
  snd left = [] /\ isSelecting (fst left) = false /\ hoveredPoint (fst left) = None /\
  snd released = [] /\
  (timeRange (fst released), startTime (fst released), endTime (fst released))
  = (timeRange st, startTime st, endTime st).
Proof.
  unfold handleChartMouseLeave, handleChartMouseUp. cbn.
  destruct (isSelecting st) eqn:E; cbn; rewrite ?E; repeat split.
Qed.

End DragSelection.

Lemma handleChartMouseUp_applies_meaningful_drag_witness :
  ChartSelect.handleChartMouseUp sampleProps
    (sampleSelectState true (Some (Q2Qc (5001 # 2))) (Some (Q2Qc (1 # 2))))
  = ({| ChartSelect.timeRange := "custom";
        ChartSelect.startTime := DateMs 0;
        ChartSelect.endTime := DateMs 2500;
        ChartSelect.hoveredPoint := None;
        ChartSelect.zoomMode := true;
        ChartSelect.panMode := false;
        ChartSelect.selectionStart := None;
        ChartSelect.selectionEnd := None;
        ChartSelect.isSelecting := false |},
     [ChartSelect.OnTimeRangeChange (DateMs 0) (DateMs 2500);
      ChartSelect.ToastTimeRangeUpdated]) /\
  ChartSelect.handleChartMouseUp sampleProps
    (sampleSelectState true (Some (Qc_of_Z 5000)) None)
  = (sampleSelectState false None None, []).
Proof.
  split.
  - refine (proj1 (proj1 (handleChartMouseUp_applies_meaningful_drag sampleProps
                            (sampleSelectState true (Some (Q2Qc (5001 # 2)))
                                               (Some (Q2Qc (1 # 2)))))
                     (Q2Qc (5001 # 2)) (Q2Qc (1 # 2)) eq_refl eq_refl eq_refl _)).
    vm_compute. reflexivity.
  - apply (proj2 (handleChartMouseUp_applies_meaningful_drag sampleProps
                    (sampleSelectState true (Some (Qc_of_Z 5000)) None))).
    right. right. left. reflexivity.
Defined.

(** ** Refresh scheduler: runs of cadence changes *)

Lemma runCadences_snoc (cadences : list Z) (interval : Z) (stw : ChartState * Window) :
  runCadences (cadences ++ [interval]) stw
  = handleRefreshIntervalChange interval (runCadences cadences stw).
Proof. unfold runCadences. rewrite fold_left_app. reflexivity. Qed.

Lemma runCadences_owned (cadences : list Z) (stw : ChartState * Window) :
  timerOwned stw -> timerOwned (runCadences cadences stw).
Proof.
  revert stw. induction cadences as [ | c cadences IH]; intros [st w] H; [exact H | ].
  cbn. apply IH. apply (handleRefreshIntervalChange_owned c st w H).
Qed.

Lemma unmount_owned (stw : ChartState * Window) :
  timerOwned stw -> intervals (snd (unmount stw)) = [].
Proof.
  destruct stw as [st [ivs next]]. unfold timerOwned, unmount. cbn.
  destruct (refreshTimerRef st) as [handle | ].
  - intros [delay ->]. rewrite clearInterval_own. reflexivity.
  - intros ->. reflexivity.
Qed.

(** X12 (handleRefreshIntervalChange and the unmount cleanup).  On a chart
    that owns the timers of its window, after any sequence of cadence
    changes at most one timer runs: it is that of the last cadence chosen
    when that one is positive, with a delay of that many seconds, and none
    when it is not; and unmounting after the sequence leaves no timer
    running. *)
Theorem runCadences_no_timer_leak (cadences : list Z) (stw : ChartState * Window) :
  timerOwned stw ->
  let r := runCadences cadences stw in
  timerOwned r /\
  (length (intervals (snd r)) <= 1)%nat /\
  (forall earlier interval, cadences = earlier ++ [interval] ->
     map snd (intervals (snd r)) = if 0 <? interval then [interval * 1000] else []) /\
  intervals (snd (unmount r)) = [].
Proof.
  intros Hown r.
  assert (Hr : timerOwned r) by apply runCadences_owned, Hown.
  split; [exact Hr | ]. split; [ | split].
  - unfold timerOwned in Hr. destruct (refreshTimerRef (fst r)).
    + destruct Hr as [delay ->]. cbn. lia.
    + rewrite Hr. cbn. lia.
  - intros earlier interval ->. subst r. rewrite runCadences_snoc.
    pose proof (runCadences_owned earlier stw Hown) as He.
    destruct (runCadences earlier stw) as [st w].
    destruct (handleRefreshIntervalChange_owned interval st w He) as (_ & _ & H0 & Hpos).
    destruct (Z.ltb_spec 0 interval) as [Hi | Hi].
    + destruct (Hpos Hi) as [-> _]. reflexivity.
    + destruct (H0 Hi) as [-> _]. reflexivity.
  - apply unmount_owned, Hr.
Qed.

Lemma runCadences_no_timer_leak_witness :
  let r := runCadences [5; 0; 30; 60] (sampleState, emptyWindow) in
  map snd (intervals (snd r)) = [60000] /\ intervals (snd (unmount r)) = [].
Proof.
  assert (Hown : timerOwned (sampleState, emptyWindow)) by reflexivity.
  pose proof (runCadences_no_timer_leak [5; 0; 30; 60] (sampleState, emptyWindow) Hown)
    as (_ & _ & Hlast & Hun).
  intros r. split; [ | exact Hun].
  exact (Hlast [5; 0; 30] 60 eq_refl).
Defined.

(** ** Interaction mode controller: runs of clicks *)

Lemma modeStep_settled (st : ChartState) (e : ModeEvent) :
  (activeModes (modeStep st e) <= 1)%nat /\
  interactionModeRef (modeStep st e) = modeOf (modeStep st e).
Proof.
  unfold modeStep, modeOf.
  destruct st as [a b c d e' f z p br cr sel yd ys tr ir].
  destruct e, z, p, br; cbn; split; (lia || reflexivity).
Qed.

(** X13 (mode effect after every click).  Whatever the state of the first
    render and whatever sequence of clicks on the Zoom, Pan, Brush,
    Crosshair and Reset-view buttons follows, once the mode effect of the
    last render has run at most one of the three modes is active and the
    mode ref names exactly that mode. *)
Theorem mode_clicks_keep_exclusion (st0 : ChartState) (events : list ModeEvent) :
  let st := fold_left modeStep events (interactionModeEffect st0) in
  (activeModes st <= 1)%nat /\ interactionModeRef st = modeOf st.
Proof.
  intros st. subst st.
  induction events as [ | e earlier _] using rev_ind.
  2: { rewrite fold_left_app. cbn. apply modeStep_settled. }
  - cbn.
    destruct (interactionModeEffect_exclusive st0) as [H1 H2]. split; [exact H1 | ].
    rewrite H2. unfold modeOf.
    destruct st0 as [a b c d e' f z p br cr sel yd ys tr ir].
    destruct z, p, br; reflexivity.
Qed.

(** X14 (priority of the modes).  From a state with at most one active
    mode, a click and the mode effect after it give: Zoom toggles and, when
    switched on, is the only mode; Pan toggles only while Zoom is off, a
    click on it while Zoom is on changes nothing; Brush toggles only while
    Zoom and Pan are off; the crosshair button leaves the mode as it is;
    Reset view leaves no mode active. *)
Theorem mode_transition_table (st : ChartState) :
  (activeModes st <= 1)%nat ->
  modeOf (modeStep st ClickZoom) = (if zoomMode st then None else Some zoom) /\
  modeOf (modeStep st ClickPan)
  = (if zoomMode st then Some zoom else if panMode st then None else Some pan) /\
  modeOf (modeStep st ClickBrush)
  = (if zoomMode st then Some zoom else if panMode st then Some pan
     else if brushMode st then None else Some brush) /\
  modeOf (modeStep st ClickCrosshair) = modeOf st /\
  modeOf (modeStep st ClickResetView) = None /\
  (forall e, activeModes (modeStep st e)
             = match modeOf (modeStep st e) with Some _ => 1%nat | None => 0%nat end).
Proof.
  unfold modeStep, modeOf, activeModes.
  destruct st as [a b c d e' f z p br cr sel yd ys tr ir].
  destruct z, p, br; cbn; intros H; try lia; repeat split; intros []; reflexivity.
Qed.

Lemma mode_transition_table_witness :
  let inZoom := modeStep sampleState ClickZoom in
  modeOf inZoom = Some zoom /\
  modeOf (modeStep inZoom ClickPan) = Some zoom /\
  modeOf (modeStep inZoom ClickBrush) = Some zoom /\
  modeOf (modeStep inZoom ClickZoom) = None.
Proof.
  intros inZoom.
  assert (H0 : (activeModes sampleState <= 1)%nat) by (cbn; lia).
  assert (H1 : (activeModes inZoom <= 1)%nat) by (cbn; lia).
  pose proof (mode_transition_table sampleState H0) as (Hz & _).
  pose proof (mode_transition_table inZoom H1) as (Hzz & Hp & Hb & _).
  repeat split; assumption.
Defined.

(** ** Applying a stored selection *)

Lemma handleBrushApply_guards_passed (props : Props) (st : ChartState) (s e : Z) :
  start (selectedArea st) = Some s -> end_ (selectedArea st) = Some e ->
  s <> 0 -> e <> 0 -> s <> e ->
  handleBrushApply props st =
  if (0 <? length (chartData st))%nat then
    match at_ (chartData st) s, at_ (chartData st) e with
    | Some startRow, Some endRow =>
        Returned
          (set_brushMode false
             (set_selectedArea noSelection
                (set_timeRange "custom"
                   (set_endTime (getProp endRow "timestamp")
                      (set_startTime (getProp startRow "timestamp") st)))))
          ((if hasOnTimeRangeChange props
            then [OnTimeRangeChange (getProp startRow "timestamp")
                                    (getProp endRow "timestamp")]
            else []) ++ [ToastTimeRangeUpdated])
    | _, _ => TypeError
    end
  else Returned st [].
Proof.
  intros Es Ee Hs He Hse. unfold handleBrushApply. rewrite Es, Ee. cbn [truthy].
  change (default 0 (Some s)) with s. change (default 0 (Some e)) with e.
  replace (s =? 0) with false by (symmetry; apply Z.eqb_neq; exact Hs).
  replace (e =? 0) with false by (symmetry; apply Z.eqb_neq; exact He).
  rewrite bool_decide_eq_false_2 by congruence. reflexivity.
Qed.

Lemma at_Some_rows {A} (l : list A) (i : Z) (x : A) :
  at_ l i = Some x -> (0 <? length l)%nat = true.
Proof.
  intros H. apply Nat.ltb_lt. destruct l; [ | cbn; lia].
  unfold at_ in H. destruct (i <? 0); discriminate.
Qed.

Lemma handleBrushApply_rows
    (props : Props) (st : ChartState) (s e : Z) (startRow endRow : ChartData) :
  start (selectedArea st) = Some s -> end_ (selectedArea st) = Some e ->
  s <> 0 -> e <> 0 -> s <> e ->
  at_ (chartData st) s = Some startRow -> at_ (chartData st) e = Some endRow ->
  handleBrushApply props st =
  Returned
    (set_brushMode false
       (set_selectedArea noSelection
          (set_timeRange "custom"
             (set_endTime (getProp endRow "timestamp")
                (set_startTime (getProp startRow "timestamp") st)))))
    ((if hasOnTimeRangeChange props
      then [OnTimeRangeChange (getProp startRow "timestamp")
                              (getProp endRow "timestamp")]
      else []) ++ [ToastTimeRangeUpdated]).
Proof.
  intros Es Ee Hs He Hse Hsr Her.
  rewrite (handleBrushApply_guards_passed props st s e) by assumption.
  rewrite (at_Some_rows _ _ _ Hsr), Hsr, Her. reflexivity.
Qed.

(** X15 (handleBrushApply, a selection that passes the guards).  With a
    stored selection of two different indices, neither of them 0: on a
    chart without rows nothing happens; on a chart with rows, if both
    indices name a row the time range becomes the custom window from the
    time of the start row to the time of the end row, in the order stored,
    the selection is cleared, brush mode is left, and the callback, if any,
    and then the toast are emitted; if one index names no row (a selection
    kept from before the rows changed) the handler throws. *)
Theorem handleBrushApply_applies_or_throws
    (props : Props) (st : ChartState) (s e : Z) :
  start (selectedArea st) = Some s -> end_ (selectedArea st) = Some e ->
  s <> 0 -> e <> 0 -> s <> e ->
  (chartData st = [] -> handleBrushApply props st = Returned st []) /\
  (chartData st <> [] ->
   at_ (chartData st) s = None \/ at_ (chartData st) e = None ->
   handleBrushApply props st = TypeError) /\
  (forall startRow endRow,
     at_ (chartData st) s = Some startRow -> at_ (chartData st) e = Some endRow ->
     handleBrushApply props st =
     Returned
       (set_brushMode false
          (set_selectedArea noSelection
             (set_timeRange "custom"
                (set_endTime (getProp endRow "timestamp")
                   (set_startTime (getProp startRow "timestamp") st)))))
       ((if hasOnTimeRangeChange props
         then [OnTimeRangeChange (getProp startRow "timestamp")
                                 (getProp endRow "timestamp")]
         else []) ++ [ToastTimeRangeUpdated])).
Proof.
  intros Es Ee Hs He Hse.
  split; [ | split].
  - intros Hrows.
    rewrite (handleBrushApply_guards_passed props st s e) by assumption.
    rewrite Hrows. reflexivity.
  - intros Hrows Hnone.
    rewrite (handleBrushApply_guards_passed props st s e) by assumption.
    replace (0 <? length (chartData st))%nat with true
      by (symmetry; apply Nat.ltb_lt; destruct (chartData st); [congruence | cbn; lia]).
    destruct Hnone as [-> | Hnone]; [reflexivity | ].
    rewrite Hnone. now destruct (at_ _ s).
  - intros startRow endRow. apply handleBrushApply_rows; assumption.
Qed.

Lemma handleBrushApply_applies_or_throws_witness :
  let stored := set_selectedArea {| start := Some 2; end_ := Some 1 |} sampleState in
  handleBrushApply sampleProps stored = Returned stored [] /\
  handleBrushApply sampleProps (set_chartData sampleRows stored) = TypeError /\
  exists st',
    handleBrushApply sampleProps
      (set_chartData (sampleRows ++ sampleRows) stored)
    = Returned st' [OnTimeRangeChange (VDate 10) (VDate 20); ToastTimeRangeUpdated].
Proof.
  intros stored.
  assert (H : forall rows,
             let st := set_chartData rows stored in
             (chartData st = [] -> handleBrushApply sampleProps st = Returned st []) /\
             (chartData st <> [] ->
              at_ (chartData st) 2 = None \/ at_ (chartData st) 1 = None ->
              handleBrushApply sampleProps st = TypeError) /\
             (forall startRow endRow,
                at_ (chartData st) 2 = Some startRow ->
                at_ (chartData st) 1 = Some endRow ->
                handleBrushApply sampleProps st =
                Returned
                  (set_brushMode false
                     (set_selectedArea noSelection
                        (set_timeRange "custom"
                           (set_endTime (getProp endRow "timestamp")
                              (set_startTime (getProp startRow "timestamp") st)))))
                  ((if hasOnTimeRangeChange sampleProps
                    then [OnTimeRangeChange (getProp startRow "timestamp")
                                            (getProp endRow "timestamp")]
                    else []) ++ [ToastTimeRangeUpdated]))).
  { intros rows st.
    apply (handleBrushApply_applies_or_throws sampleProps st 2 1);
      (reflexivity || discriminate). }
  split; [ | split].
  - apply (proj1 (H [])). reflexivity.
  - apply (proj1 (proj2 (H sampleRows))); [discriminate | left; reflexivity].
  - eexists.
    rewrite (proj2 (proj2 (H (sampleRows ++ sampleRows)))
               {[ "timestamp" := VDate 10 ]} {[ "timestamp" := VDate 20 ]}
               eq_refl eq_refl).
    reflexivity.
Defined.

(** ** Hiding and showing a series *)

Lemma align_writes (vis1 vis2 : list Series) :
  writesOf vis1 = writesOf vis2 -> align vis1 = align vis2.
Proof.
  intros H. unfold align. rewrite !fold_addSeries_writes, H. reflexivity.
Qed.

Lemma handleToggleSeries_map {D} (sid : string) (series : list (TimeSeriesData D)) :
  handleToggleSeries sid series = map (toggled sid) series.
Proof. reflexivity. Qed.

Lemma toggled_fields {D} (sid : string) (s : TimeSeriesData D) :
  id (toggled sid s) = id s /\ data (toggled sid s) = data s /\
  isVisible (toggled sid s)
  = (if String.eqb (id s) sid then negb (isVisible s) else isVisible s).
Proof.
  unfold toggled, handleToggleSeries. cbn.
  destruct (String.eqb (id s) sid); [ | repeat split].
  unfold isVisible. cbn. destruct (visible s) as [[ | ] | ]; repeat split.
Qed.

Lemma toggled_twice_visible {D} (sid : string) (s : TimeSeriesData D) :
  isVisible (toggled sid (toggled sid s)) = isVisible s.
Proof.
  destruct (toggled_fields sid (toggled sid s)) as (_ & _ & ->).
  destruct (toggled_fields sid s) as (-> & _ & ->).
  destruct (String.eqb (id s) sid); [apply negb_involutive | reflexivity].
Qed.

Lemma toggle_twice_writes (sid : string) (series : list Series) :
  writesOf (List.filter isVisible
              (handleToggleSeries sid (handleToggleSeries sid series)))
  = writesOf (List.filter isVisible series).
Proof.
  rewrite !handleToggleSeries_map. unfold writesOf.
  induction series as [ | s series IH]; [reflexivity | ].
  cbn [map List.filter]. rewrite toggled_twice_visible.
  destruct (isVisible s); [ | exact IH].
  cbn [flat_map]. rewrite IH.
  destruct (toggled_fields sid (toggled sid s)) as (-> & -> & _).
  destruct (toggled_fields sid s) as (-> & -> & _). reflexivity.
Qed.

(** X16 (handleToggleSeries twice, with the chart-data effect).  Toggling
    the same series id twice gives back the chart rows: the effect computes
    from the store after the two toggles exactly the rows it computes from
    the store before them, and every series is visible or hidden as it
    was. *)
Theorem toggle_twice_restores_rows (sid : string) (series : list Series) :
  let twice := handleToggleSeries sid (handleToggleSeries sid series) in
  chartDataEffect twice = chartDataEffect series /\
  map isVisible twice = map isVisible series.
Proof.
  intros twice. split.
  - unfold chartDataEffect. subst twice. rewrite !handleToggleSeries_length.
    destruct (0 <? length series)%nat; [ | reflexivity].
    apply align_writes, toggle_twice_writes.
  - subst twice. rewrite !handleToggleSeries_map, !map_map.
    apply map_ext. intros s. apply toggled_twice_visible.
Qed.

Lemma toggle_hides (sid : string) (series : list Series) :
  (forall s, In s series -> id s = sid -> isVisible s = true) ->
  List.filter isVisible (handleToggleSeries sid series)
  = List.filter (fun s => isVisible s && negb (String.eqb (id s) sid)) series.
Proof.
  rewrite handleToggleSeries_map.
  induction series as [ | s series IH]; intros H; [reflexivity | ].
  cbn [map List.filter]. rewrite IH by (intros; apply H; [now right | assumption]).
  destruct (toggled_fields sid s) as (_ & _ & ->).
  destruct (String.eqb_spec (id s) sid) as [E | E].
  - rewrite (H s (or_introl eq_refl) E). reflexivity.
  - rewrite andb_true_r. unfold toggled, handleToggleSeries. cbn.
    apply String.eqb_neq in E. rewrite E. reflexivity.
Qed.

Lemma NoDup_map_filter {A B} (f : A -> B) (p : A -> bool) (l : list A) :
  List.NoDup (map f l) -> List.NoDup (map f (List.filter p l)).
Proof.
  induction l as [ | x l IH]; intros H; [constructor | ].
  inversion H as [ | ? ? Hx Hl]; subst. cbn. destruct (p x); [ | now apply IH].
  cbn. constructor; [ | now apply IH].
  intros Hin. apply Hx. apply in_map_iff in Hin as (y & E & Hin).
  apply in_map_iff. exists y. split; [exact E | ]. now apply filter_In in Hin.
Qed.

(** X17 (handleToggleSeries, hiding, with the chart-data effect).  In a
    store with distinct ids, none of them ["timestamp"] or ["__proto__"],
    hiding a visible series makes the effect align the other visible
    series alone: the rows are those of the times at which one of them has
    a point, a time at which only the hidden series has points has no row
    any more, no row has an entry of its own under the hidden id, and the
    entries of the others are their values as before.  Reading a row under
    the hidden id gives [undefined], unless the id is a key of
    [Object.prototype]. *)
Theorem toggle_hides_series_from_rows (series : list Series) (s : Series) :
  Forall (fun x => id x <> "timestamp" /\ id x <> "__proto__") series ->
  List.NoDup (map id series) ->
  In s series -> isVisible s = true ->
  let others :=
    List.filter (fun x => isVisible x && negb (String.eqb (id x) (id s))) series in
  chartDataEffect (handleToggleSeries (id s) series) = align others /\
  alignsAsSpecified others /\
  (forall rows row, align others = Some rows -> In row rows ->
     row !! id s = None /\
     (inherited (id s) = false -> getProp row (id s) = VUndefined)).
Proof.
  intros Hids Hnd Hin Hvis others.
  assert (Hothers_ids : Forall (fun x => id x <> "timestamp" /\ id x <> "__proto__")
                               others).
  { apply List.Forall_forall. intros x Hx. apply filter_In in Hx as [Hx _].
    rewrite List.Forall_forall in Hids. now apply Hids. }
  assert (Hothers_ts : Forall (fun x => id x <> "timestamp") others).
  { eapply List.Forall_impl; [ | exact Hothers_ids]. intros x [H _]. exact H. }
  assert (Hunique : forall x, In x series -> id x = id s -> isVisible x = true).
  { intros x Hx E. replace x with s; [exact Hvis | ].
    clear - Hnd Hin Hx E. induction series as [ | y l IH]; [destruct Hin | ].
    inversion Hnd as [ | ? ? Hy Hl]; subst.
    destruct Hin as [-> | Hin], Hx as [-> | Hx]; try reflexivity.
    - exfalso. apply Hy. rewrite <- E. now apply in_map.
    - exfalso. apply Hy. rewrite E. now apply in_map.
    - now apply IH. }
  split; [ | split].
  - unfold chartDataEffect. rewrite handleToggleSeries_length.
    destruct series as [ | y l]; [destruct Hin | ].
    cbn [length Nat.ltb Nat.leb]. rewrite toggle_hides by exact Hunique. reflexivity.
  - apply alignsAsSpecified_distinct_ids; [exact Hothers_ids | ].
    apply NoDup_map_filter, Hnd.
  - intros rows row Ha Hrow.
    destruct (align_rows others Hothers_ts)
      as (rows' & times & Ha' & Ht & _ & _ & Hrows).
    rewrite Ha in Ha'. injection Ha' as <-.
    assert (Htime : exists t, getTime row = Some t).
    { apply (in_map getTime) in Hrow. rewrite Ht in Hrow.
      apply in_map_iff in Hrow as (t & E & _). eauto. }
    destruct Htime as [t Htime].
    destruct (Hrows row t Hrow Htime) as [_ Hval].
    assert (Hid : id s <> "timestamp").
    { rewrite List.Forall_forall in Hids. now apply Hids. }
    assert (Hnone : row !! id s = None).
    { rewrite (Hval _ Hid). destruct (String.eqb (id s) "__proto__"); [reflexivity | ].
      unfold contributed. rewrite contributed_other; [reflexivity | ].
      intros Hx. apply in_map_iff in Hx as (x & E & Hx).
      apply filter_In in Hx as [_ Hx]. apply andb_true_iff in Hx as [_ Hx].
      rewrite E, String.eqb_refl in Hx. discriminate. }
    split; [exact Hnone | ].
    intros Hinh. unfold getProp. rewrite Hnone, Hinh. reflexivity.
Qed.

Lemma toggle_hides_series_from_rows_witness :
  let series := [seriesA 10 20; seriesB 10] in
  chartDataEffect (handleToggleSeries "series-0" series) = align [seriesB 10] /\
  alignsAsSpecified [seriesB 10] /\
  (forall rows row, align [seriesB 10] = Some rows -> In row rows ->
     row !! "series-0" = None /\
     (inherited "series-0" = false -> getProp row "series-0" = VUndefined)).
Proof.
  intros series.
  apply (toggle_hides_series_from_rows series (seriesA 10 20)).
  - repeat constructor; discriminate.
  - cbn. constructor; [ | constructor; [ | constructor]]; cbn; intuition discriminate.
  - left. reflexivity.
  - reflexivity.
Defined.

(** ** Domain calculator: the bounds and the values *)

Lemma scanPoint_covers (acc : option (Qc * Qc)) (seen : list Qc) (p : DataPoint) :
  covers acc seen -> covers (scanPoint acc p) (seen ++ [value p]).
Proof.
  destruct acc as [[mn mx] | ]; cbn.
  - intros (Hmn & Hmx & H). split; [ | split].
    + apply in_or_app.
      destruct (Math_min_cases mn (value p)) as [[-> _] | [-> _]];
        [left; exact Hmn | right; left; reflexivity].
    + apply in_or_app.
      destruct (Math_max_cases mx (value p)) as [[-> _] | [-> _]];
        [left; exact Hmx | right; left; reflexivity].
    + apply Forall_app. split.
      * eapply List.Forall_impl; [ | exact H]. cbn. intros v [H1 H2].
        destruct (Math_min_cases mn (value p)) as [[-> Hn] | [-> Hn]];
          destruct (Math_max_cases mx (value p)) as [[-> Hx] | [-> Hx]];
          split; qc_lra.
      * rewrite List.Forall_forall in H. destruct (H mn Hmn) as [_ Hle].
        constructor; [ | constructor].
        destruct (Math_min_cases mn (value p)) as [[-> Hn] | [-> Hn]];
          destruct (Math_max_cases mx (value p)) as [[-> Hx] | [-> Hx]];
          split; qc_lra.
  - intros ->. cbn. split; [now left | ]. split; [now left | ].
    constructor; [ | constructor]. split; qc_lra.
Qed.

Lemma scanPoints_covers (l : list DataPoint) (acc : option (Qc * Qc)) (seen : list Qc) :
  covers acc seen -> covers (fold_left scanPoint l acc) (seen ++ map value l).
Proof.
  revert acc seen. induction l as [ | p l IH]; intros acc seen H; cbn.
  - rewrite app_nil_r. exact H.
  - replace (seen ++ value p :: map value l) with ((seen ++ [value p]) ++ map value l)
      by (rewrite <- app_assoc; reflexivity).
    apply IH, scanPoint_covers, H.
Qed.

Lemma scanSeries_covers (series : list Series) (acc : option (Qc * Qc)) (seen : list Qc) :
  covers acc seen ->
  covers (fold_left scanSeries series acc) (seen ++ visibleValues series).
Proof.
  revert acc seen. induction series as [ | s series IH]; intros acc seen H; cbn.
  - rewrite app_nil_r. exact H.
  - rewrite app_assoc. apply IH. unfold scanSeries.
    destruct (isVisible s).
    + apply scanPoints_covers, H.
    + rewrite app_nil_r. exact H.
Qed.

Lemma visibleValues_In (series : list Series) (s : Series) (p : DataPoint) :
  In s series -> isVisible s = true -> In p (data s) ->
  In (value p) (visibleValues series).
Proof.
  intros Hs Hv Hp. unfold visibleValues. apply in_flat_map.
  exists s. split; [exact Hs | ]. rewrite Hv. now apply in_map.
Qed.

(** X18 (calculateYAxisDomain on the rows of the chart-data effect).  For
    rows computed by the effect from the series, the domain is a pair of
    numbers whose lower bound is never negative.  At the default scale of
    100 no visible value lies above the upper bound; and when no visible
    value is negative, at any scale of 100 or more every visible value
    lies within the domain. *)
Theorem calculateYAxisDomain_contains_visible_values
    (series : list Series) (rows : list ChartData) (scale : Qc) :
  chartDataEffect series = Some rows ->
  exists lo hi,
    calculateYAxisDomain rows series scale = Some (lo, hi) /\
    (0 <= lo)%Qc /\
    (scale = Qc_of_Z 100 -> Forall (fun v => (v <= hi)%Qc) (visibleValues series)) /\
    ((Qc_of_Z 100 <= scale)%Qc ->
     Forall (fun v => (0 <= v)%Qc) (visibleValues series) ->
     Forall (fun v => (lo <= v)%Qc /\ (v <= hi)%Qc) (visibleValues series)).
Proof.
  intros Heff. unfold calculateYAxisDomain.
  destruct rows as [ | row rows].
  - assert (Hnone : visibleValues series = []).
    { apply visibleValues_timestamps. unfold chartDataEffect in Heff.
      destruct (0 <? length series)%nat eqn:El.
      - destruct (timestampsOf (List.filter isVisible series)) eqn:Et; [reflexivity | ].
        exfalso. eapply (align_some_point _ [] ); [ | exact Heff | reflexivity].
        rewrite Et. discriminate.
      - destruct series; [reflexivity | discriminate]. }
    cbn. exists 0%Qc, (Qc_of_Z 100). rewrite Hnone.
    split; [reflexivity | ]. split; [qc_lra | ]. split; constructor.
  - cbn [length Nat.eqb].
    pose proof (scanSeries_covers series None [] eq_refl) as Hc. cbn [app] in Hc.
    destruct (fold_left scanSeries series None) as [[mn mx] | ].
    2: { exfalso. cbn in Hc. apply visibleValues_timestamps in Hc.
         unfold chartDataEffect in Heff.
         destruct (0 <? length series)%nat; [ | discriminate].
         rewrite (align_no_points _ Hc) in Heff. discriminate. }
    cbn in Hc. destruct Hc as (Hmn & Hmx & Hc). cbn [fst snd].
    set (padding := ((mx - mn) * tenth)%Qc).
    set (lo := Math_max 0%Qc (mn - padding)%Qc).
    assert (Hle : (mn <= mx)%Qc).
    { rewrite List.Forall_forall in Hc. apply (Hc mn Hmn). }
    assert (Hpad : (0 <= padding)%Qc) by (subst padding; unfold tenth; qc_lra).
    assert (Hlo0 : (0 <= lo)%Qc).
    { subst lo. destruct (Math_max_cases 0%Qc (mn - padding)%Qc) as [[-> H] | [-> H]];
        qc_lra. }
    assert (Hhi : Forall (fun v => (v <= mx + padding)%Qc) (visibleValues series)).
    { eapply List.Forall_impl; [ | exact Hc]. cbn. intros v [H1 H2]. qc_lra. }
    assert (Hin : Forall (fun v => (0 <= v)%Qc) (visibleValues series) ->
                  (lo <= mn)%Qc).
    { intros Hpos. rewrite List.Forall_forall in Hpos. pose proof (Hpos mn Hmn) as H0.
      subst lo. destruct (Math_max_cases 0%Qc (mn - padding)%Qc) as [[-> H] | [-> H]];
        qc_lra. }
    case_bool_decide as Hs.
    + exists lo, (lo + (mx + padding - lo) * (scale / Qc_of_Z 100))%Qc.
      split; [reflexivity | ]. split; [exact Hlo0 | ]. split; [congruence | ].
      intros Hscale Hpos. specialize (Hin Hpos).
      assert (Hgrow : (mx + padding
                       <= lo + (mx + padding - lo) * (scale / Qc_of_Z 100))%Qc).
      { assert (H : (0 <= (mx + padding - lo) * (scale / Qc_of_Z 100 - 1))%Qc).
        { replace 0%Qc with (0 * (scale / Qc_of_Z 100 - 1))%Qc by ring.
          apply Qcmult_le_compat_r; qc_lra. }
        replace (lo + (mx + padding - lo) * (scale / Qc_of_Z 100))%Qc
          with (mx + padding + (mx + padding - lo) * (scale / Qc_of_Z 100 - 1))%Qc
          by ring.
        set (d := ((mx + padding - lo) * (scale / Qc_of_Z 100 - 1))%Qc) in *.
        qc_lra. }
      eapply List.Forall_impl; [ | exact Hc]. cbn. intros v [H1 H2].
      split; [qc_lra | ].
      set (hi := (lo + (mx + padding - lo) * (scale / Qc_of_Z 100))%Qc) in *.
      qc_lra.
    + exists lo, (mx + padding)%Qc.
      split; [reflexivity | ]. split; [exact Hlo0 | ]. split; [intros _; exact Hhi | ].
      intros _ Hpos. specialize (Hin Hpos).
      eapply List.Forall_impl; [ | exact Hc]. cbn. intros v [H1 H2]. split; qc_lra.
Qed.

Lemma calculateYAxisDomain_contains_visible_values_witness :
  let series := [seriesA 10 20; seriesB 10] in
  exists rows lo hi,
    chartDataEffect series = Some rows /\
    calculateYAxisDomain rows series (Qc_of_Z 100) = Some (lo, hi) /\
    (0 <= lo)%Qc /\
    Forall (fun v => (lo <= v)%Qc /\ (v <= hi)%Qc) (visibleValues series).
Proof.
  intros series.
  destruct (chartDataEffect series) as [rows | ] eqn:E; [ | vm_compute in E; discriminate].
  destruct (calculateYAxisDomain_contains_visible_values series rows (Qc_of_Z 100) E)
    as (lo & hi & Hd & H0 & _ & Hin).
  exists rows, lo, hi. split; [reflexivity | ]. split; [exact Hd | ]. split; [exact H0 | ].
  apply Hin.
  - vm_compute. discriminate.
  - repeat constructor; vm_compute; discriminate.
Defined.

(** ** Formatting layer: what is left after the stripping *)

Lemma forallb_dropWhile {A} (p q : A -> bool) (l : list A) :
  forallb q l = true -> forallb q (dropWhile p l) = true.
Proof.
  induction l as [ | x l IH]; cbn; [reflexivity | ].
  intros H. apply andb_true_iff in H as [Hx Hl].
  destruct (p x); [apply IH, Hl | ]. cbn. now rewrite Hx, Hl.
Qed.

Lemma dropTrailingZeros_point (pre frac : list ascii) :
  dropTrailingZeros (pre ++ "."%char :: frac)
  = if forallb isZeroChar frac then pre ++ ["."%char]
    else pre ++ "."%char :: dropTrailingZeros frac.
Proof.
  unfold dropTrailingZeros.
  replace (rev (pre ++ "."%char :: frac)) with (rev frac ++ "."%char :: rev pre)
    by (rewrite rev_app_distr; cbn; rewrite <- app_assoc; reflexivity).
  rewrite dropWhile_app, forallb_rev.
  destruct (forallb isZeroChar frac).
  - cbn. rewrite rev_involutive. reflexivity.
  - rewrite rev_app_distr. cbn. rewrite rev_involutive, <- app_assoc. reflexivity.
Qed.

Lemma stripZerosSpec_shape (s : list ascii) :
  numeralShape s ->
  existsb isDot (stripZerosSpec s) = false \/
  exists pre frac c,
    stripZerosSpec s = pre ++ "."%char :: frac ++ [c] /\
    existsb isDot pre = false /\
    forallb isDigit (frac ++ [c]) = true /\ c <> "0"%char.
Proof.
  intros [Hno | (pre & frac & -> & Hpre & Hdig & Hne)].
  - left. unfold stripZerosSpec. rewrite Hno. exact Hno.
  - assert (Hdot : existsb isDot (pre ++ "."%char :: frac) = true).
    { rewrite existsb_app. cbn. apply orb_true_r. }
    unfold stripZerosSpec. rewrite Hdot, dropTrailingZeros_point.
    destruct (forallb isZeroChar frac) eqn:Hz.
    + left. rewrite rev_app_distr. cbn. rewrite rev_involutive. exact Hpre.
    + right. rewrite <- (forallb_rev _ frac) in Hz.
      destruct (dropWhile_head _ _ Hz) as (h & r & Hd & Hh & Hin).
      assert (Hrest : forallb isDigit (h :: r) = true).
      { rewrite <- Hd. apply forallb_dropWhile. rewrite forallb_rev. exact Hdig. }
      assert (Hhd : isDot h = false).
      { apply isDigit_not_dot. cbn in Hrest. now apply andb_true_iff in Hrest. }
      assert (Et : dropTrailingZeros frac = rev r ++ [h]).
      { unfold dropTrailingZeros. rewrite Hd. reflexivity. }
      rewrite Et.
      replace (rev (pre ++ "."%char :: rev r ++ [h]))
        with (h :: r ++ "."%char :: rev pre).
      2: { rewrite rev_app_distr. cbn. rewrite rev_app_distr. cbn.
           rewrite rev_involutive, <- app_assoc. reflexivity. }
      rewrite Hhd.
      exists pre, (rev r), h. split; [reflexivity | ]. split; [exact Hpre | ].
      split.
      * change (rev r ++ [h]) with (rev (h :: r)). rewrite forallb_rev. exact Hrest.
      * intros ->. discriminate.
Qed.

(** X19 (formatValue, no trailing zeros).  For a value below 1e21 in
    magnitude and no unit, the text of [formatValue] is a numeral without
    a decimal point, or it has one decimal point that is followed by
    digits of which the last is not 0: no zero is left at the end of the
    fraction and the point never stands last. *)
Theorem formatValue_no_trailing_zeros
    (Number_toString : Qc -> string) (Math_log : Qc -> Qc) (v : Qc) :
  (Math_abs v < Qc_of_Z (10 ^ 21))%Qc ->
  let text := list_ascii_of_string (formatValue Number_toString Math_log (Some v) None) in
  existsb isDot text = false \/
  exists pre frac c,
    text = pre ++ "."%char :: frac ++ [c] /\
    existsb isDot pre = false /\
    forallb isDigit (frac ++ [c]) = true /\ c <> "0"%char.
Proof.
  intros Hlt text. subst text.
  rewrite formatValue_refines by (exact Hlt || discriminate).
  unfold formatValueSpec, unitSuffix.
  rewrite string_app_nil_r, list_ascii_of_string_of_list_ascii.
  apply stripZerosSpec_shape, toFixed_shape, Hlt.
Qed.

Lemma formatValue_no_trailing_zeros_witness :
  (Math_abs (Q2Qc (5 # 2)) < Qc_of_Z (10 ^ 21))%Qc /\
  formatValue sampleNumberToString sampleMathLog (Some (Q2Qc (5 # 2))) None = "2.5" /\
  exists pre frac c,
    list_ascii_of_string (formatValue sampleNumberToString sampleMathLog (Some (Q2Qc (5 # 2))) None)
    = pre ++ "."%char :: frac ++ [c] /\ c <> "0"%char.
Proof.
  assert (H : (Math_abs (Q2Qc (5 # 2)) < Qc_of_Z (10 ^ 21))%Qc)
    by (vm_compute; reflexivity).
  split; [exact H | ]. split; [vm_compute; reflexivity | ].
  destruct (formatValue_no_trailing_zeros sampleNumberToString sampleMathLog (Q2Qc (5 # 2)) H)
    as [Hno | (pre & frac & c & E & _ & _ & Hc)].
  - vm_compute in Hno. discriminate.
  - exists pre, frac, c. split; assumption.
Defined.

(** ** Time-range resolver: windows of any length *)



(** In the zone of the examples the clock went back one hour on
    2023-10-29: thirty calendar days before a time in November are thirty
    days of 86400000 ms and one hour. *)
Example thirty_days_across_a_clock_change :
  TimeUtils.getTimeRangeFromValue zoneCET sampleNow "30d"
  = (DateMs (sampleNow - 30 * 86400000 - 3600000), DateMs sampleNow).
Proof. reflexivity. Qed.

(** ** Alignment engine: the order of the series *)

Lemma sorted_same_elements (l1 l2 : list Z) :
  StronglySorted Z.lt l1 -> StronglySorted Z.lt l2 ->
  (forall t, In t l1 <-> In t l2) -> l1 = l2.
Proof.
  intros H1. revert l2. induction H1 as [ | a l1 Hs1 IH Ha]; intros l2 H2 Hmem.
  - destruct l2 as [ | b l2]; [reflexivity | ].
    exfalso. apply (Hmem b). now left.
  - destruct H2 as [ | b l2 Hs2 Hb].
    + exfalso. apply (Hmem a). now left.
    + rewrite List.Forall_forall in Ha, Hb.
      assert (E : a = b).
      { destruct (proj1 (Hmem a) (or_introl eq_refl)) as [E | Hin]; [now symmetry | ].
        destruct (proj2 (Hmem b) (or_introl eq_refl)) as [E | Hin']; [exact E | ].
        specialize (Ha _ Hin'). specialize (Hb _ Hin). lia. }
      subst b. f_equal. apply IH; [exact Hs2 | ].
      intros t. split; intros Hin.
      * destruct (proj1 (Hmem t) (or_intror Hin)) as [E | Hin']; [ | exact Hin'].
        specialize (Ha _ Hin). lia.
      * destruct (proj2 (Hmem t) (or_intror Hin)) as [E | Hin']; [ | exact Hin'].
        specialize (Hb _ Hin). lia.
Qed.

Lemma timestampsOf_perm (vis1 vis2 : list Series) (t : Z) :
  Permutation vis1 vis2 -> In t (timestampsOf vis1) -> In t (timestampsOf vis2).
Proof.
  unfold timestampsOf. intros Hp Hin.
  apply in_flat_map in Hin as (s & Hs & Hin). apply in_flat_map.
  exists s. split; [ | exact Hin]. eapply Permutation_in; eassumption.
Qed.

Lemma contributed_perm (vis1 vis2 : list Series) (key : string) (t : Z) :
  Permutation vis1 vis2 -> List.NoDup (map id vis1) ->
  contributed vis1 key t = contributed vis2 key t.
Proof.
  intros Hp Hnd1.
  assert (Hnd2 : List.NoDup (map id vis2)).
  { eapply Permutation_NoDup; [ | exact Hnd1]. now apply Permutation_map. }
  destruct (in_dec string_dec key (map id vis1)) as [Hin | Hout].
  - apply in_map_iff in Hin as (s & <- & Hs).
    rewrite (contributed_unique vis1 s t Hnd1 Hs).
    rewrite (contributed_unique vis2 s t Hnd2); [reflexivity | ].
    eapply Permutation_in; eassumption.
  - unfold contributed. rewrite !contributed_other; [reflexivity | | exact Hout].
    intros Hin. apply Hout. eapply Permutation_in; [ | exact Hin].
    apply Permutation_map. now symmetry.
Qed.

Lemma rows_determined (times : list Z) (rows1 rows2 : list ChartData) :
  map getTime rows1 = map Some times ->
  map getTime rows2 = map Some times ->
  (forall r1 r2 t, In r1 rows1 -> In r2 rows2 ->
     getTime r1 = Some t -> getTime r2 = Some t -> r1 = r2) ->
  rows1 = rows2.
Proof.
  revert rows1 rows2. induction times as [ | t times IH]; intros rows1 rows2 H1 H2 H.
  - destruct rows1, rows2; try discriminate. reflexivity.
  - destruct rows1 as [ | r1 rows1], rows2 as [ | r2 rows2]; try discriminate.
    cbn in H1, H2. injection H1 as Hr1 H1. injection H2 as Hr2 H2. f_equal.
    + apply (H r1 r2 t); (now left) || assumption.
    + apply IH; try assumption.
      intros x y t' Hx Hy. apply H; now right.
Qed.

(** X21 (alignment, order of the series).  For visible series with
    distinct ids, none of them ["timestamp"], the rows do not depend on
    the order in which the series are listed: any reordering of the series
    gives the same list of rows. *)
Theorem align_order_independent (vis1 vis2 : list Series) :
  Permutation vis1 vis2 ->
  Forall (fun s => id s <> "timestamp") vis1 ->
  List.NoDup (map id vis1) ->
  align vis1 = align vis2.
Proof.
  intros Hp Hids1 Hnd1.
  assert (Hids2 : Forall (fun s => id s <> "timestamp") vis2).
  { eapply Permutation_Forall; eassumption. }
  destruct (align_rows vis1 Hids1) as (rows1 & times1 & Ha1 & Ht1 & Hs1 & Hm1 & Hr1).
  destruct (align_rows vis2 Hids2) as (rows2 & times2 & Ha2 & Ht2 & Hs2 & Hm2 & Hr2).
  rewrite Ha1, Ha2. f_equal.
  assert (Et : times1 = times2).
  { apply sorted_same_elements; try assumption.
    intros t. rewrite Hm1, Hm2. split; apply timestampsOf_perm; [ | symmetry]; exact Hp. }
  subst times2.
  apply (rows_determined times1); try assumption.
  intros r1 r2 t Hin1 Hin2 Hg1 Hg2.
  destruct (Hr1 r1 t Hin1 Hg1) as [Hts1 Hv1].
  destruct (Hr2 r2 t Hin2 Hg2) as [Hts2 Hv2].
  apply map_eq. intros key.
  destruct (string_dec key "timestamp") as [-> | Hk].
  - rewrite Hts1, Hts2. reflexivity.
  - rewrite (Hv1 key Hk), (Hv2 key Hk), (contributed_perm vis1 vis2 key t Hp Hnd1).
    reflexivity.
Qed.

Lemma align_order_independent_witness :
  align [seriesA 10 20; seriesB 10] = align [seriesB 10; seriesA 10 20].
Proof.
  apply align_order_independent.
  - apply perm_swap.
  - repeat constructor; discriminate.
  - cbn. constructor; [ | constructor; [ | constructor]]; cbn; intuition discriminate.
Defined.

(** ** The simpler chart variant: the end of a brush *)

(** X22 (handleBrushEnd of the simpler variant).  For two different
    indices: on a chart without rows nothing happens; if both indices name
    a row, row 0 included, the time range becomes the custom window from
    the time of the start row to that of the end row, the zoom level goes
    back to 1 and the value axis to automatic, and the callback, if any,
    and then the toast are emitted; if one index names no row the handler
    throws. *)
Theorem handleBrushEnd_applies_or_throws
    (props : Props) (st : ChartBasic.ChartState) (startIndex endIndex : Z) :
  startIndex <> endIndex ->
  (ChartBasic.chartData st = [] ->
   ChartBasic.handleBrushEnd props startIndex endIndex st = Returned st []) /\
  (ChartBasic.chartData st <> [] ->
   at_ (ChartBasic.chartData st) startIndex = None \/
   at_ (ChartBasic.chartData st) endIndex = None ->
   ChartBasic.handleBrushEnd props startIndex endIndex st = TypeError) /\
  (forall startRow endRow,
     at_ (ChartBasic.chartData st) startIndex = Some startRow ->
     at_ (ChartBasic.chartData st) endIndex = Some endRow ->
     ChartBasic.handleBrushEnd props startIndex endIndex st =
     Returned
       {| ChartBasic.timeRange := "custom";
          ChartBasic.startTime := getProp startRow "timestamp";
          ChartBasic.endTime := getProp endRow "timestamp";
          ChartBasic.zoomLevel := 1%Qc;
          ChartBasic.yAxisDomain := None;
          ChartBasic.chartData := ChartBasic.chartData st |}
       ((if hasOnTimeRangeChange props
         then [OnTimeRangeChange (getProp startRow "timestamp")
                                 (getProp endRow "timestamp")]
         else []) ++ [ToastTimeRangeUpdated])).
Proof.
  intros Hse. unfold ChartBasic.handleBrushEnd.
  replace (startIndex =? endIndex) with false by (symmetry; apply Z.eqb_neq; exact Hse).
  cbn [orb]. split; [ | split].
  - intros ->. reflexivity.
  - intros Hrows Hnone.
    replace (length (ChartBasic.chartData st) =? 0)%nat with false
      by (symmetry; apply Nat.eqb_neq; destruct (ChartBasic.chartData st);
          [congruence | discriminate]).
    destruct Hnone as [-> | Hnone]; [reflexivity | ].
    rewrite Hnone. now destruct (at_ _ startIndex).
  - intros startRow endRow Hsr Her.
    replace (length (ChartBasic.chartData st) =? 0)%nat with false.
    + rewrite Hsr, Her. reflexivity.
    + symmetry. apply Nat.eqb_neq. revert Hsr. clear.
      destruct (ChartBasic.chartData st); [ | discriminate].
      unfold at_. destruct (startIndex <? 0); discriminate.
Qed.

Lemma handleBrushEnd_applies_or_throws_witness :
  ChartBasic.handleBrushEnd sampleProps 0 1 sampleBasicState
  = Returned
      {| ChartBasic.timeRange := "custom";
         ChartBasic.startTime := VDate 10;
         ChartBasic.endTime := VDate 20;
         ChartBasic.zoomLevel := 1%Qc;
         ChartBasic.yAxisDomain := None;
         ChartBasic.chartData := sampleRows |}
      [OnTimeRangeChange (VDate 10) (VDate 20); ToastTimeRangeUpdated] /\
  ChartBasic.handleBrushEnd sampleProps 1 2 sampleBasicState = TypeError.
Proof.
  assert (H01 : 0 <> 1) by discriminate. assert (H12 : 1 <> 2) by discriminate.
  split.
  - rewrite (proj2 (proj2 (handleBrushEnd_applies_or_throws sampleProps
                             sampleBasicState 0 1 H01))
               {[ "timestamp" := VDate 10 ]} {[ "timestamp" := VDate 20 ]}
               eq_refl eq_refl).
    reflexivity.
  - apply (proj1 (proj2 (handleBrushEnd_applies_or_throws sampleProps
                           sampleBasicState 1 2 H12))).
    + discriminate.
    + right. reflexivity.
Defined.

(** ** Time-range resolver: the selector's table *)

(** X23 (TIME_RANGES and getTimeRangeFromValue).  The selector's table
    and the resolver agree: every entry is labelled with its token, no
    token occurs twice, and with a valid clock the token of an entry in
    minutes or hours resolves to the window that ends at [now] and is
    exactly as long as the duration the entry declares.  The token of an
    entry in days resolves, in every time zone, to the window that ends at
    [now] and starts at the same local time of day that many calendar days
    earlier; it is as long as the declared duration when the offset of the
    zone is the same at both ends of the window. *)
Theorem TIME_RANGES_agree_with_resolver (LocalTZA : Z -> bool -> Z) (now : Z) :
  clockOk now ->
  List.NoDup (map TimeUtils.value TimeUtils.TIME_RANGES) /\
  Forall (fun r =>
            TimeUtils.label r = TimeUtils.value r /\
            (endsWith (TimeUtils.value r) "d" = false ->
             TimeUtils.getTimeRangeFromValue LocalTZA now (TimeUtils.value r)
             = (DateMs (now - TimeUtils.duration r), DateMs now)) /\
            (endsWith (TimeUtils.value r) "d" = true ->
             TimeUtils.getTimeRangeFromValue LocalTZA now (TimeUtils.value r)
             = (TimeClip (localTimeBefore LocalTZA now (TimeUtils.duration r)),
                DateMs now)) /\
            (sameOffset LocalTZA now (TimeUtils.duration r) ->
             TimeUtils.getTimeRangeFromValue LocalTZA now (TimeUtils.value r)
             = (DateMs (now - TimeUtils.duration r), DateMs now)))
         TimeUtils.TIME_RANGES.
Proof.
  intros Hclock. split.
  - cbn. repeat (constructor; [cbn; intuition discriminate | ]). constructor.
  - pose proof (resolve_TIME_RANGES LocalTZA now Hclock) as H.
    rewrite List.Forall_forall in H. apply List.Forall_forall. intros r Hr.
    split; [ | split; [ | split]].
    + unfold TimeUtils.TIME_RANGES in Hr. cbn in Hr.
      repeat (destruct Hr as [<- | Hr]; [reflexivity | ]). destruct Hr.
    + intros Hd. rewrite (H r Hr). unfold tableStart. rewrite Hd. reflexivity.
    + intros Hd. rewrite (H r Hr). unfold tableStart. rewrite Hd. reflexivity.
    + intros Hsame. rewrite (H r Hr).
      rewrite (tableStart_sameOffset LocalTZA now r Hclock Hr Hsame). reflexivity.
Qed.

Lemma TIME_RANGES_agree_with_resolver_witness :
  clockOk sampleNow /\
  TimeUtils.getTimeRangeFromValue zoneCET sampleNow "7d"
  = (DateMs (sampleNow - 604800000), DateMs sampleNow).
Proof.
  assert (H : clockOk sampleNow) by (unfold clockOk, sampleNow; lia).
  split; [exact H | ].
  destruct (TIME_RANGES_agree_with_resolver zoneCET sampleNow H) as [_ HF].
  rewrite List.Forall_forall in HF.
  apply (HF {| TimeUtils.label := "7d"; TimeUtils.value := "7d";
               TimeUtils.duration := 7 * 24 * 60 * 60 * 1000 |}).
  - cbn. do 9 right. left. reflexivity.
  - reflexivity.
Defined.

(** The entry of thirty days in the zone of the examples, two weeks after
    the clock went back: the window is one hour longer than the table
    says. *)
Example thirty_days_entry_is_longer :
  In {| TimeUtils.label := "30d"; TimeUtils.value := "30d";
        TimeUtils.duration := 30 * 24 * 60 * 60 * 1000 |} TimeUtils.TIME_RANGES /\
  TimeUtils.getTimeRangeFromValue zoneCET sampleNow "30d"
  = (DateMs (sampleNow - 30 * 24 * 60 * 60 * 1000 - 3600000), DateMs sampleNow).
Proof. split; [cbn; do 10 right; left; reflexivity | reflexivity]. Qed.

(** ** Selection and brush engine: a selection is applied once *)

Lemma chartData_set_selectedArea (a : SelectedArea) (st : ChartState) :
  chartData (set_selectedArea a st) = chartData st.
Proof. destruct st. reflexivity. Qed.

(** X24 (handleBrushChange, then handleBrushApply).  A brush event with
    two different indices, neither of them 0, that name rows is stored as
    the selected area and emits nothing.  Apply then sets the custom time
    range from the times of the two rows, clears the stored selection,
    leaves brush mode, and emits the callback with the two times, if there
    is one, and then the toast; a second Apply emits nothing and changes
    nothing.  Reset view and the clear button clear the stored selection as
    well: Apply after either of them emits nothing. *)
Theorem stored_selection_is_applied_once
    (props : Props) (st : ChartState) (bd : BrushData) (s e : Z)
    (startRow endRow : ChartData) :
  startIndex bd = Some s -> endIndex bd = Some e ->
  s <> 0 -> e <> 0 -> s <> e ->
  at_ (chartData st) s = Some startRow -> at_ (chartData st) e = Some endRow ->
  let st1 := set_selectedArea {| start := Some s; end_ := Some e |} st in
  let st2 :=
    set_brushMode false
      (set_selectedArea noSelection
         (set_timeRange "custom"
            (set_endTime (getProp endRow "timestamp")
               (set_startTime (getProp startRow "timestamp") st1)))) in
  handleBrushChange (Some bd) st = Returned st1 [] /\
  selectedArea st1 = {| start := Some s; end_ := Some e |} /\
  handleBrushApply props st1
  = Returned st2
      ((if hasOnTimeRangeChange props
        then [OnTimeRangeChange (getProp startRow "timestamp")
                                (getProp endRow "timestamp")]
        else []) ++ [ToastTimeRangeUpdated]) /\
  selectedArea st2 = noSelection /\
  handleBrushApply props st2 = Returned st2 [] /\
  handleBrushApply props (handleResetView st1) = Returned (handleResetView st1) [] /\
  handleBrushApply props (clickClearSelection st1)
  = Returned (clickClearSelection st1) [].
Proof.
  intros Es Ee Hs He Hse Hsr Her st1 st2.
  assert (H1 : handleBrushChange (Some bd) st = Returned st1 []).
  { unfold handleBrushChange. rewrite Es, Ee. cbn [truthy].
    replace (s =? 0) with false by (symmetry; apply Z.eqb_neq; exact Hs).
    replace (e =? 0) with false by (symmetry; apply Z.eqb_neq; exact He).
    rewrite bool_decide_eq_false_2 by congruence. reflexivity. }
  assert (Ha : selectedArea st1 = {| start := Some s; end_ := Some e |})
    by apply selectedArea_set_selectedArea.
  assert (Hrows : chartData st1 = chartData st) by apply chartData_set_selectedArea.
  assert (Hs1 : start (selectedArea st1) = Some s) by (rewrite Ha; reflexivity).
  assert (He1 : end_ (selectedArea st1) = Some e) by (rewrite Ha; reflexivity).
  rewrite <- Hrows in Hsr, Her.
  split; [exact H1 | ]. split; [exact Ha | ].
  split; [apply (handleBrushApply_rows props st1 s e startRow endRow); assumption | ].
  split; [subst st2; destruct st1; reflexivity | ].
  split; [ | split].
  - apply handleBrushApply_no_selection. subst st2. destruct st1. reflexivity.
  - apply handleBrushApply_no_selection. destruct st1. reflexivity.
  - apply handleBrushApply_no_selection. destruct st1. reflexivity.
Qed.

Lemma stored_selection_is_applied_once_witness :
  let st := set_chartData (sampleRows ++ sampleRows) sampleState in
  let st1 := set_selectedArea {| start := Some 1; end_ := Some 2 |} st in
  let st2 :=
    set_brushMode false
      (set_selectedArea noSelection
         (set_timeRange "custom"
            (set_endTime (VDate 10) (set_startTime (VDate 20) st1)))) in
  handleBrushChange (Some {| startIndex := Some 1; endIndex := Some 2 |}) st
  = Returned st1 [] /\
  handleBrushApply sampleProps st1
  = Returned st2 [OnTimeRangeChange (VDate 20) (VDate 10); ToastTimeRangeUpdated] /\
  handleBrushApply sampleProps st2 = Returned st2 [].
Proof.
  intros st st1 st2.
  destruct (stored_selection_is_applied_once sampleProps st
              {| startIndex := Some 1; endIndex := Some 2 |} 1 2
              {[ "timestamp" := VDate 20 ]} {[ "timestamp" := VDate 10 ]}
              eq_refl eq_refl ltac:(discriminate) ltac:(discriminate)
              ltac:(discriminate) eq_refl eq_refl)
    as (H1 & _ & H3 & _ & H5 & _).
  split; [exact H1 | ]. split; [exact H3 | exact H5].
Defined.

(** ** The chart variant with a drag selection: reset of the view *)

Section ResetView.

Import ChartSelect.

Variable props : Props.

Lemma handleChartMouseUp_custom (st : ChartState) (s e : Qc) :
  isSelecting st = true -> selectionStart st = Some s -> selectionEnd st = Some e ->
  (Qc_of_Z 1000 < Math_abs (e - s))%Qc ->
  timeRange (fst (handleChartMouseUp props st)) = "custom".
Proof.
  intros Hsel Hs He Hspan. unfold handleChartMouseUp. rewrite Hsel, Hs, He.
  rewrite bool_decide_eq_true_2 by exact Hspan. reflexivity.
Qed.

(** X25 (resetView after a drag selection).  After a drag has been
    applied as the custom time range, Reset view goes back to the initial
    time range of the chart: for an initial range that is a token of the
    selector's table and a valid clock, the range is that token again, the
    window ends at [now] and starts where the table entry starts (its
    duration before [now], or for an entry in days the same local time of
    day that many calendar days before, which is the duration before [now]
    when the offset of the zone is the same at both ends), zoom and pan
    mode are off, and the callback, if any, and then the toast of the
    reset are emitted.  On a chart whose range is not custom Reset view
    leaves the range and the window as they are and only shows the
    toast. *)
Theorem resetView_restores_initial_range (LocalTZA : Z -> bool -> Z) (now : Z) :
  (forall (st : ChartState) (s e : Qc) (r : TimeUtils.TimeRange),
     isSelecting st = true -> selectionStart st = Some s -> selectionEnd st = Some e ->
     (Qc_of_Z 1000 < Math_abs (e - s))%Qc ->
     In r TimeUtils.TIME_RANGES -> initialTimeRange props = TimeUtils.value r ->
     clockOk now ->
     let reset := resetView LocalTZA props now (fst (handleChartMouseUp props st)) in
     timeRange (fst reset) = TimeUtils.value r /\
     startTime (fst reset) = tableStart LocalTZA now r /\
     (endsWith (TimeUtils.value r) "d" = false
      \/ sameOffset LocalTZA now (TimeUtils.duration r) ->
      startTime (fst reset) = DateMs (now - TimeUtils.duration r)) /\
     endTime (fst reset) = DateMs now /\
     zoomMode (fst reset) = false /\ panMode (fst reset) = false /\
     snd reset
     = (if hasOnTimeRangeChange props
        then [OnTimeRangeChange (tableStart LocalTZA now r) (DateMs now)]
        else []) ++ [ToastViewReset]) /\
  (forall st : ChartState, timeRange st <> "custom" ->
     let reset := resetView LocalTZA props now st in
     (timeRange (fst reset), startTime (fst reset), endTime (fst reset))
     = (timeRange st, startTime st, endTime st) /\
     snd reset = [ToastViewReset]).
Proof.
  split.
  - intros st s e r Hsel Hs He Hspan Hr Hinit Hclock reset.
    subst reset. unfold resetView.
    rewrite (handleChartMouseUp_custom st s e Hsel Hs He Hspan).
    change ("custom" =? "custom")%string with true. cbn iota.
    unfold handleTimeRangeChange. rewrite Hinit.
    pose proof (resolve_TIME_RANGES LocalTZA now Hclock) as HF.
    rewrite List.Forall_forall in HF. rewrite (HF r Hr). cbn.
    repeat split.
    intros [Hd | Hsame].
    + unfold tableStart. rewrite Hd. reflexivity.
    + apply tableStart_sameOffset; assumption.
  - intros st Hcustom reset. subst reset. unfold resetView.
    apply String.eqb_neq in Hcustom. rewrite Hcustom. cbn. split; reflexivity.
Qed.

End ResetView.

Lemma resetView_restores_initial_range_witness :
  let dragged :=
    sampleSelectState true (Some (Q2Qc (5001 # 2))) (Some (Q2Qc (1 # 2))) in
  let reset :=
    ChartSelect.resetView zoneCET sampleProps sampleNow
      (fst (ChartSelect.handleChartMouseUp sampleProps dragged)) in
  ChartSelect.timeRange (fst reset) = "1h" /\
  ChartSelect.startTime (fst reset) = DateMs (sampleNow - 3600000) /\
  ChartSelect.endTime (fst reset) = DateMs sampleNow /\
  ChartSelect.zoomMode (fst reset) = false.
Proof.
  intros dragged reset.
  assert (Hclock : clockOk sampleNow) by (unfold clockOk, sampleNow; lia).
  assert (Hin : In {| TimeUtils.label := "1h"; TimeUtils.value := "1h";
                      TimeUtils.duration := 60 * 60 * 1000 |} TimeUtils.TIME_RANGES)
    by (cbn; do 3 right; left; reflexivity).
  destruct (proj1 (resetView_restores_initial_range sampleProps zoneCET sampleNow) dragged
              (Q2Qc (5001 # 2)) (Q2Qc (1 # 2)) _
              eq_refl eq_refl eq_refl ltac:(vm_compute; reflexivity)
              Hin eq_refl Hclock)
    as (H1 & _ & H2 & H3 & H4 & _).
  split; [exact H1 | split; [ | split; [exact H3 | exact H4]]].
  apply H2. left. reflexivity.
Defined.
